(** * LocalReservationWebapp: the layout, grouping and reservation handlers

    A shallow embedding of [server/src/index.js] over the relational
    store of [server/db/schema.sql].  Every handler of the Express
    application becomes a function from the store to a response and the
    store that the handler leaves behind.  [db.js] opens one SQLite
    connection and turns foreign keys on, so the constraints of the
    schema are part of the behaviour: a statement that violates one
    throws, the handler's [catch] answers with an internal error, and
    what earlier statements of the same handler wrote stays written (no
    handler opens a transaction). *)

From Stdlib Require Import ZArith QArith Qround List Ascii String Bool Lia.
From Stdlib Require Import Sorted Permutation.
Import ListNotations.
Local Open Scope Z_scope.

(** ** Rows of [schema.sql] *)

Module Tables.
Record row := mk
  { id : Z; name : string; defaultX : Z; defaultY : Z;
    width : Z; height : Z; capacity : option Z }.
End Tables.

Module LayoutInstances.
Record row := mk { id : Z; date : string }.
End LayoutInstances.

Module TableGroups.
Record row := mk { id : Z; layoutInstanceId : Z }.
End TableGroups.

Module TableState.
Record row := mk
  { layoutInstanceId : Z; tableId : Z; x : Z; y : Z; groupId : option Z }.
End TableState.

Module Reservations.
(** [partySize] holds whatever finite number the request carried: the
    column has INTEGER affinity, which keeps a fraction as it is. *)
Record row := mk
  { id : Z; layoutInstanceId : Z; groupId : Z;
    time : string; name : string; partySize : Q; notes : option string;
    createdAt : string; updatedAt : string }.
End Reservations.

(** The store: the five tables in rowid order, and for each
    AUTOINCREMENT table the counter SQLite keeps in [sqlite_sequence]. *)
Record db := mkdb
  { tables : list Tables.row;
    layout_instances : list LayoutInstances.row;
    layout_instances_seq : Z;
    table_groups : list TableGroups.row;
    table_groups_seq : Z;
    table_state : list TableState.row;
    reservations : list Reservations.row;
    reservations_seq : Z }.

(** ** What the handlers answer

    [BadRequest] is status 400 (the spec's ValidationError), [NotFound]
    404, [Conflict] 409 and [ServerError] the 500 of a [catch] block. *)
Inductive response (A : Type) : Type :=
| Json (body : A)
| BadRequest
| NotFound
| Conflict
| ServerError.
Arguments Json {A} body.
Arguments BadRequest {A}.
Arguments NotFound {A}.
Arguments Conflict {A}.
Arguments ServerError {A}.

(** ** JavaScript values, as far as the handlers tell them apart

    A field tested with [Number.isFinite] is [Some q] when it is a finite
    number and [None] for anything else (absent, null, a string, NaN, an
    infinity).  A finite number is the rational it denotes. *)
Definition finite := option Q.

(** [Math.round]: the nearest integer, a tie going up. *)
Definition Math_round (q : Q) : Z := Qfloor (q + (1 # 2)).

(** A finite number bound to a statement and compared with an integer
    column matches the rows holding the same number. *)
Definition num_eqb (q : Q) (k : Z) : bool := Qeq_bool q (inject_Z k).

(** The integer a finite number is, if it is one: what an INTEGER column
    stores for it and what a foreign key looks up. *)
Definition integer_of (q : Q) : option Z :=
  if num_eqb q (Qfloor q) then Some (Qfloor q) else None.

(** A parameter that is not tested before it is bound (the [:tableId]
    segment of a route, an element of [tableIds]) is compared with an
    integer column under that column's affinity: [Some k] when it is the
    integer [k] (the number 3, the text '3'), [None] when it equals no
    integer. *)
Definition param_eqb (p : option Z) (k : Z) : bool :=
  match p with
  | Some n => n =? k
  | None => false
  end.

(** [tableId IN (?,?,...)]. *)
Definition param_in (ids : list (option Z)) (k : Z) : bool :=
  existsb (fun p => param_eqb p k) ids.

(** [!s] for a text field: an absent field and the empty string are falsy. *)
Definition truthy (s : option string) : bool :=
  match s with
  | Some v => negb (v =? EmptyString)%string
  | None => false
  end.

(** ** SQLite: AUTOINCREMENT

    The rowid of a new row is one more than the largest rowid the table
    has ever held: the larger of the [sqlite_sequence] counter and the
    largest rowid present. *)
Definition max_rowid (ids : list Z) : Z := fold_right Z.max 0 ids.

Definition autoincrement (seq : Z) (ids : list Z) : Z :=
  Z.max seq (max_rowid ids) + 1.

(** ** Statements shared by the handlers *)

(** [SELECT id FROM layout_instances WHERE date = ?] through [get]: the
    first row, if any. *)
Definition select_layout (date : string) (d : db) : option Z :=
  option_map LayoutInstances.id
    (find (fun r => (LayoutInstances.date r =? date)%string) (layout_instances d)).

(** [INSERT INTO layout_instances (date) VALUES (?)], with [lastID]. *)
Definition insert_layout_instance (date : string) (d : db) : Z * db :=
  let newId :=
    autoincrement (layout_instances_seq d)
      (map LayoutInstances.id (layout_instances d)) in
  (newId,
   mkdb (tables d)
        (layout_instances d ++ [LayoutInstances.mk newId date]) newId
        (table_groups d) (table_groups_seq d)
        (table_state d)
        (reservations d) (reservations_seq d)).

Definition set_table_state (rows : list TableState.row) (d : db) : db :=
  mkdb (tables d) (layout_instances d) (layout_instances_seq d)
       (table_groups d) (table_groups_seq d)
       rows
       (reservations d) (reservations_seq d).

Definition set_reservations (rows : list Reservations.row) (d : db) : db :=
  mkdb (tables d) (layout_instances d) (layout_instances_seq d)
       (table_groups d) (table_groups_seq d)
       (table_state d)
       rows (reservations_seq d).

(** The primary key of [table_state]. *)
Definition same_key (a b : TableState.row) : bool :=
  (TableState.layoutInstanceId a =? TableState.layoutInstanceId b)
  && (TableState.tableId a =? TableState.tableId b).

(** Rows go in one after the other; a row whose key is already there
    violates the primary key and the statement fails as a whole. *)
Fixpoint insert_rows (new old : list TableState.row) : option (list TableState.row) :=
  match new with
  | [] => Some old
  | r :: rest =>
      if existsb (same_key r) old then None
      else insert_rows rest (old ++ [r])
  end.

Definition default_state (layoutId : Z) (t : Tables.row) : TableState.row :=
  TableState.mk layoutId (Tables.id t) (Tables.defaultX t) (Tables.defaultY t) None.

(** [INSERT INTO table_state (...) SELECT ?, id, defaultX, defaultY, NULL
    FROM tables]. *)
Definition insert_default_states (layoutId : Z) (d : db) : option db :=
  match insert_rows (map (default_state layoutId) (tables d)) (table_state d) with
  | Some rows => Some (set_table_state rows d)
  | None => None
  end.

(** ** [ensureLayoutInstance] *)

Record ensured := mk_ensured { id : Z; existed : bool }.

(** [None] is the exception of the second INSERT; the instance row of
    the first one is in the store by then. *)
Definition ensureLayoutInstance (date : string) (d : db) : option ensured * db :=
  match select_layout date d with
  | Some rowId => (Some (mk_ensured rowId true), d)
  | None =>
      let (layoutId, d1) := insert_layout_instance date d in
      match insert_default_states layoutId d1 with
      | Some d2 => (Some (mk_ensured layoutId false), d2)
      | None => (None, d1)
      end
  end.

(** [POST /api/layout/:date/init]. *)
Definition post_init (date : string) (d : db) : response ensured * db :=
  match ensureLayoutInstance date d with
  | (Some result, d') => (Json result, d')
  | (None, d') => (ServerError, d')
  end.

(** ** [fetchLayoutPayload] *)

(** Stable insertion sort on an integer key: [ORDER BY] and the order in
    which an object lists its integer keys. *)
Fixpoint insert_on {A : Type} (key : A -> Z) (a : A) (l : list A) : list A :=
  match l with
  | [] => [a]
  | b :: rest =>
      if key a <=? key b then a :: b :: rest else b :: insert_on key a rest
  end.

Definition sort_on {A : Type} (key : A -> Z) (l : list A) : list A :=
  fold_right (insert_on key) [] l.

Module Payload.
Record table := mk_table
  { tableId : Z; x : Z; y : Z; groupId : option Z;
    name : string; width : Z; height : Z; capacity : option Z }.
Record group := mk_group { group_id : Z; tableIds : list Z }.
Record reservation := mk_reservation
  { id : Z; reservation_groupId : Z; time : string; reservation_name : string;
    partySize : Q; notes : option string; createdAt : string; updatedAt : string }.
Record t := mk
  { layoutInstanceId : Z;
    tables : list table;
    groups : list group;
    reservations : list reservation }.
End Payload.

Definition join_table (ts : TableState.row) (t : Tables.row) : Payload.table :=
  Payload.mk_table (TableState.tableId ts) (TableState.x ts) (TableState.y ts)
    (TableState.groupId ts)
    (Tables.name t) (Tables.width t) (Tables.height t) (Tables.capacity t).

(** [FROM table_state ts JOIN tables t ON t.id = ts.tableId WHERE
    ts.layoutInstanceId = ? ORDER BY ts.tableId]. *)
Definition select_tables (layoutInstanceId : Z) (d : db) : list Payload.table :=
  sort_on Payload.tableId
    (flat_map
       (fun ts =>
          map (join_table ts)
            (filter (fun t => Tables.id t =? TableState.tableId ts) (tables d)))
       (filter (fun ts => TableState.layoutInstanceId ts =? layoutInstanceId)
          (table_state d))).

(** The [forEach] that fills [groups]: a row joins the list of its group,
    which it starts when it is the first one. *)
Fixpoint push_member (g t : Z) (groups : list Payload.group) : list Payload.group :=
  match groups with
  | [] => [Payload.mk_group g [t]]
  | e :: rest =>
      if Payload.group_id e =? g
      then Payload.mk_group g (Payload.tableIds e ++ [t]) :: rest
      else e :: push_member g t rest
  end.

(** [groupRows] are taken in the order of the table (the query has no
    ORDER BY); [Object.keys] lists the group ids, integer keys, in
    ascending order. *)
Definition select_groups (layoutInstanceId : Z) (d : db) : list Payload.group :=
  sort_on Payload.group_id
    (fold_left
       (fun groups ts =>
          match TableState.groupId ts with
          | Some g =>
              if TableState.layoutInstanceId ts =? layoutInstanceId
              then push_member g (TableState.tableId ts) groups
              else groups
          | None => groups
          end)
       (table_state d) []).

Definition select_reservations (layoutInstanceId : Z) (d : db) : list Payload.reservation :=
  map
    (fun r =>
       Payload.mk_reservation (Reservations.id r) (Reservations.groupId r)
         (Reservations.time r) (Reservations.name r) (Reservations.partySize r)
         (Reservations.notes r) (Reservations.createdAt r) (Reservations.updatedAt r))
    (filter (fun r => Reservations.layoutInstanceId r =? layoutInstanceId)
       (reservations d)).

Definition fetchLayoutPayload (layoutInstanceId : Z) (d : db) : Payload.t :=
  Payload.mk layoutInstanceId
    (select_tables layoutInstanceId d)
    (select_groups layoutInstanceId d)
    (select_reservations layoutInstanceId d).

(** [GET /api/layout/:date]. *)
Definition get_layout (date : string) (d : db) : response Payload.t :=
  match select_layout date d with
  | None => NotFound
  | Some layoutId => Json (fetchLayoutPayload layoutId d)
  end.

(** ** [PUT /api/layout/:date/table/:tableId] *)

Module PutTable.
(** The [groupId] of the body: [null], a finite number, or anything
    else (absent included), which the handler skips. *)
Inductive group_field := Skipped | Null | Number (q : Q).
Record body := mk { x : finite; y : finite; groupId : group_field }.
End PutTable.

(** One entry of [updates] with its entry of [params]. *)
Inductive assignment :=
| SetX (v : Z)
| SetY (v : Z)
| SetGroupId (v : option Q).

Definition assignments (b : PutTable.body) : list assignment :=
  match PutTable.x b with Some q => [SetX (Math_round q)] | None => [] end
  ++ match PutTable.y b with Some q => [SetY (Math_round q)] | None => [] end
  ++ match PutTable.groupId b with
     | PutTable.Null => [SetGroupId None]
     | PutTable.Number q => [SetGroupId (Some q)]
     | PutTable.Skipped => []
     end.

(** The foreign key on a group column: the number has to be the id of a
    row of [table_groups] (of any layout instance). *)
Definition references_group (q : Q) (d : db) : option Z :=
  match integer_of q with
  | Some k =>
      if existsb (fun g => TableGroups.id g =? k) (table_groups d)
      then Some k else None
  | None => None
  end.

(** A row after one assignment; [None] when the new value breaks the
    foreign key. *)
Definition assign (d : db) (a : assignment) (r : TableState.row) : option TableState.row :=
  match a with
  | SetX v =>
      Some (TableState.mk (TableState.layoutInstanceId r) (TableState.tableId r)
              v (TableState.y r) (TableState.groupId r))
  | SetY v =>
      Some (TableState.mk (TableState.layoutInstanceId r) (TableState.tableId r)
              (TableState.x r) v (TableState.groupId r))
  | SetGroupId None =>
      Some (TableState.mk (TableState.layoutInstanceId r) (TableState.tableId r)
              (TableState.x r) (TableState.y r) None)
  | SetGroupId (Some q) =>
      match references_group q d with
      | Some k =>
          Some (TableState.mk (TableState.layoutInstanceId r) (TableState.tableId r)
                  (TableState.x r) (TableState.y r) (Some k))
      | None => None
      end
  end.

Fixpoint assign_all (d : db) (l : list assignment) (r : TableState.row) : option TableState.row :=
  match l with
  | [] => Some r
  | a :: rest =>
      match assign d a r with
      | Some r' => assign_all d rest r'
      | None => None
      end
  end.

(** [UPDATE table_state SET ... WHERE ...]: every row of the WHERE clause
    is rewritten; one row that breaks a constraint fails the statement
    and nothing is written. *)
Fixpoint update_rows (cond : TableState.row -> bool)
    (f : TableState.row -> option TableState.row)
    (rows : list TableState.row) : option (list TableState.row) :=
  match rows with
  | [] => Some []
  | r :: rest =>
      match (if cond r then f r else Some r), update_rows cond f rest with
      | Some r', Some rest' => Some (r' :: rest')
      | _, _ => None
      end
  end.

Definition put_table (date : string) (tableId : option Z) (b : PutTable.body)
    (d : db) : response unit * db :=
  match select_layout date d with
  | None => (NotFound, d)
  | Some layoutId =>
      let updates := assignments b in
      if (List.length updates =? 0)%nat then (BadRequest, d)
      else
        match
          update_rows
            (fun r => (TableState.layoutInstanceId r =? layoutId)
                      && param_eqb tableId (TableState.tableId r))
            (assign_all d updates) (table_state d)
        with
        | Some rows => (Json tt, set_table_state rows d)
        | None => (ServerError, d)
        end
  end.

(** ** Statements of the grouping handlers *)

Definition with_groupId (g : option Z) (r : TableState.row) : TableState.row :=
  TableState.mk (TableState.layoutInstanceId r) (TableState.tableId r)
    (TableState.x r) (TableState.y r) g.

(** [UPDATE table_state SET groupId = ? WHERE layoutInstanceId = ? AND
    tableId IN (...)], for NULL and for the id of a group row that is
    there: neither can break the foreign key. *)
Definition set_group_of_tables (g : option Z) (layoutId : Z) (ids : list (option Z))
    (d : db) : db :=
  set_table_state
    (map (fun r =>
            if (TableState.layoutInstanceId r =? layoutId)
               && param_in ids (TableState.tableId r)
            then with_groupId g r else r)
       (table_state d))
    d.

(** [SELECT DISTINCT groupId FROM table_state WHERE layoutInstanceId = ?
    AND tableId IN (...) AND groupId IS NOT NULL]. *)
Fixpoint group_ids_of (rows : list TableState.row) : list Z :=
  match rows with
  | [] => []
  | r :: rest =>
      match TableState.groupId r with
      | Some g => g :: group_ids_of rest
      | None => group_ids_of rest
      end
  end.

Definition select_existing_groups (layoutId : Z) (ids : list (option Z)) (d : db) : list Z :=
  nodup Z.eq_dec
    (group_ids_of
       (filter (fun r => (TableState.layoutInstanceId r =? layoutId)
                         && param_in ids (TableState.tableId r))
          (table_state d))).

Definition mem (k : Z) (l : list Z) : bool := existsb (Z.eqb k) l.

(** [SELECT COUNT( * ) AS count FROM reservations WHERE layoutInstanceId = ?
    AND groupId IN (...)]. *)
Definition count_reserved (layoutId : Z) (groupIds : list Z) (d : db) : nat :=
  List.length
    (filter (fun r => (Reservations.layoutInstanceId r =? layoutId)
                      && mem (Reservations.groupId r) groupIds)
       (reservations d)).

(** [DELETE FROM table_groups WHERE ...]: the rows go, and with them, by
    the foreign keys of the schema, the reservations of those groups
    (ON DELETE CASCADE) and the [groupId] of the table states that
    pointed at them (ON DELETE SET NULL). *)
Definition delete_groups (doomed : TableGroups.row -> bool) (d : db) : db :=
  let gone := map TableGroups.id (filter doomed (table_groups d)) in
  mkdb (tables d) (layout_instances d) (layout_instances_seq d)
       (filter (fun g => negb (doomed g)) (table_groups d)) (table_groups_seq d)
       (map (fun r =>
               match TableState.groupId r with
               | Some g => if mem g gone then with_groupId None r else r
               | None => r
               end)
          (table_state d))
       (filter (fun r => negb (mem (Reservations.groupId r) gone)) (reservations d))
       (reservations_seq d).

(** The inner [SELECT DISTINCT groupId FROM table_state WHERE
    layoutInstanceId = ? AND groupId IS NOT NULL]. *)
Definition groups_in_use (layoutId : Z) (d : db) : list Z :=
  nodup Z.eq_dec
    (group_ids_of
       (filter (fun r => TableState.layoutInstanceId r =? layoutId) (table_state d))).

Definition delete_emptied_groups (layoutId : Z) (groupIds : list Z) (d : db) : db :=
  delete_groups
    (fun g => (TableGroups.layoutInstanceId g =? layoutId)
              && mem (TableGroups.id g) groupIds
              && negb (mem (TableGroups.id g) (groups_in_use layoutId d)))
    d.

(** [INSERT INTO table_groups (layoutInstanceId) VALUES (?)], with [lastID]. *)
Definition insert_table_group (layoutId : Z) (d : db) : Z * db :=
  let newId :=
    autoincrement (table_groups_seq d) (map TableGroups.id (table_groups d)) in
  (newId,
   mkdb (tables d) (layout_instances d) (layout_instances_seq d)
        (table_groups d ++ [TableGroups.mk newId layoutId]) newId
        (table_state d)
        (reservations d) (reservations_seq d)).

(** ** [POST /api/layout/:date/group]

    SQLite prepares no statement with more than
    SQLITE_MAX_VARIABLE_NUMBER parameters: 32766, the default of the
    library since 3.32.  The statements of this handler have one
    placeholder for each element of [tableIds] or of [groupIds]; past
    the limit [run], [get] and [all] reject, the handler's [catch]
    answers 500, and what the earlier statements wrote stays written. *)
Definition SQLITE_MAX_VARIABLE_NUMBER : Z := 32766.

(** A statement binding [others] parameters and one for each element of
    [l] can be prepared. *)
Definition binds {A : Type} (others : Z) (l : list A) : bool :=
  others + Z.of_nat (List.length l) <=? SQLITE_MAX_VARIABLE_NUMBER.

(** The INSERT of the group row and the UPDATE that fills the group,
    which binds [groupId], [layout.id] and [tableIds]. *)
Definition create_group (layoutId : Z) (ids : list (option Z)) (d : db) : response Z * db :=
  let (groupId, d1) := insert_table_group layoutId d in
  if binds 2 ids
  then (Json groupId, set_group_of_tables (Some groupId) layoutId ids d1)
  else (ServerError, d1).

(** [tableIds] is [None] when the body holds no array under that name.
    The first SELECT and the UPDATE to NULL bind [layout.id] and
    [tableIds]; the COUNT binds [layout.id] and [groupIds]; the DELETE
    binds [layout.id], [groupIds] and [layout.id] again. *)
Definition post_group (date : string) (tableIds : option (list (option Z)))
    (d : db) : response Z * db :=
  match tableIds with
  | None => (BadRequest, d)
  | Some [] => (BadRequest, d)
  | Some ids =>
      match select_layout date d with
      | None => (NotFound, d)
      | Some layoutId =>
          if negb (binds 1 ids) then (ServerError, d)
          else
            match select_existing_groups layoutId ids d with
            | [] => create_group layoutId ids d
            | groupIds =>
                if negb (binds 1 groupIds) then (ServerError, d)
                else if (0 <? count_reserved layoutId groupIds d)%nat then (Conflict, d)
                else if negb (binds 2 groupIds)
                then (ServerError, set_group_of_tables None layoutId ids d)
                else
                  create_group layoutId ids
                    (delete_emptied_groups layoutId groupIds
                       (set_group_of_tables None layoutId ids d))
            end
      end
  end.

(** ** [POST /api/layout/:date/ungroup] *)

(** [UPDATE table_state SET groupId = NULL WHERE layoutInstanceId = ? AND
    groupId = ?]. *)
Definition clear_group (layoutId : Z) (q : Q) (d : db) : db :=
  set_table_state
    (map (fun r =>
            match TableState.groupId r with
            | Some g =>
                if (TableState.layoutInstanceId r =? layoutId) && num_eqb q g
                then with_groupId None r else r
            | None => r
            end)
       (table_state d))
    d.

Definition post_ungroup (date : string) (groupId : finite) (d : db) : response unit * db :=
  match groupId with
  | None => (BadRequest, d)
  | Some q =>
      match select_layout date d with
      | None => (NotFound, d)
      | Some layoutId =>
          if existsb
               (fun r => (Reservations.layoutInstanceId r =? layoutId)
                         && num_eqb q (Reservations.groupId r))
               (reservations d)
          then (Conflict, d)
          else
            (Json tt,
             delete_groups
               (fun g => num_eqb q (TableGroups.id g)
                         && (TableGroups.layoutInstanceId g =? layoutId))
               (clear_group layoutId q d))
      end
  end.

(** ** [POST /api/layout/:date/reservation] *)

Module ReservationForm.
(** The body of the request.  [time], [name] and [notes] are strings, as
    the form of the client sends them, and [None] when the body does not
    hold them. *)
Record body := mk
  { groupId : finite; reservationId : finite;
    time : option string; name : option string;
    partySize : finite; notes : option string }.
End ReservationForm.

(** What the handler sends back: the request's own fields under the id
    of the row. *)
Record saved := mk_saved
  { saved_id : Q; saved_groupId : Q; saved_time : string; saved_name : string;
    saved_partySize : Q; saved_notes : option string }.

Definition text (s : option string) : string :=
  match s with Some v => v | None => EmptyString end.

Definition number (n : finite) : Q :=
  match n with Some q => q | None => 0%Q end.

(** [notes || null]. *)
Definition or_null (s : option string) : option string :=
  if truthy s then s else None.

Definition is_finite (n : finite) : bool :=
  match n with Some _ => true | None => false end.

(** [UPDATE reservations SET time = ?, name = ?, partySize = ?, notes = ?,
    updatedAt = ? WHERE id = ?]. *)
Definition update_reservation (time name : string) (partySize : Q)
    (notes : option string) (now : string) (reservationId : Q) (d : db) : db :=
  set_reservations
    (map (fun r =>
            if num_eqb reservationId (Reservations.id r)
            then Reservations.mk (Reservations.id r) (Reservations.layoutInstanceId r)
                   (Reservations.groupId r) time name partySize notes
                   (Reservations.createdAt r) now
            else r)
       (reservations d))
    d.

(** [INSERT INTO reservations (...) VALUES (...)], with [lastID]; [None]
    when [groupId] is not the id of a group row. *)
Definition insert_reservation (layoutId : Z) (groupId : Q) (time name : string)
    (partySize : Q) (notes : option string) (now : string) (d : db) : option (Z * db) :=
  match references_group groupId d with
  | Some g =>
      let newId :=
        autoincrement (reservations_seq d) (map Reservations.id (reservations d)) in
      Some (newId,
            mkdb (tables d) (layout_instances d) (layout_instances_seq d)
                 (table_groups d) (table_groups_seq d)
                 (table_state d)
                 (reservations d
                  ++ [Reservations.mk newId layoutId g time name partySize notes now now])
                 newId)
  | None => None
  end.

(** [now] is the reading of the clock, [new Date().toISOString()]. *)
Definition post_reservation (now : string) (date : string) (b : ReservationForm.body)
    (d : db) : response saved * db :=
  if negb (is_finite (ReservationForm.groupId b))
     || negb (truthy (ReservationForm.time b))
     || negb (truthy (ReservationForm.name b))
     || negb (is_finite (ReservationForm.partySize b))
  then (BadRequest, d)
  else
    let groupId := number (ReservationForm.groupId b) in
    let time := text (ReservationForm.time b) in
    let name := text (ReservationForm.name b) in
    let partySize := number (ReservationForm.partySize b) in
    let notes := or_null (ReservationForm.notes b) in
    match select_layout date d with
    | None => (NotFound, d)
    | Some layoutId =>
        match ReservationForm.reservationId b with
        | Some reservationId =>
            if existsb
                 (fun r => num_eqb reservationId (Reservations.id r)
                           && (Reservations.layoutInstanceId r =? layoutId))
                 (reservations d)
            then
              (Json (mk_saved reservationId groupId time name partySize notes),
               update_reservation time name partySize notes now reservationId d)
            else (NotFound, d)
        | None =>
            match insert_reservation layoutId groupId time name partySize notes now d with
            | Some (lastID, d') =>
                (Json (mk_saved (inject_Z lastID) groupId time name partySize notes), d')
            | None => (ServerError, d)
            end
        end
    end.

(** ** [DELETE /api/layout/:date/reservation/:reservationId] *)
Definition delete_reservation (date : string) (reservationId : option Z)
    (d : db) : response unit * db :=
  match select_layout date d with
  | None => (NotFound, d)
  | Some layoutId =>
      (Json tt,
       set_reservations
         (filter (fun r => negb (param_eqb reservationId (Reservations.id r)
                                 && (Reservations.layoutInstanceId r =? layoutId)))
            (reservations d))
         d)
  end.

(** * Predicates on stores and a sample floor *)

(** ** Constraints of the schema *)

(** [tables.id] is the primary key of the catalog. *)
Definition catalog_key (d : db) : Prop := NoDup (map Tables.id (tables d)).

(** [table_state.layoutInstanceId] references [layout_instances(id)]. *)
Definition states_reference_instances (d : db) : Prop :=
  forall r, In r (table_state d) ->
    In (TableState.layoutInstanceId r) (map LayoutInstances.id (layout_instances d)).

(** [(layoutInstanceId, tableId)] is the primary key of [table_state]. *)
Definition state_key (d : db) : Prop :=
  NoDup (map (fun r => (TableState.layoutInstanceId r, TableState.tableId r))
           (table_state d)).

(** [table_groups.id] is the primary key of [table_groups]. *)
Definition group_key (d : db) : Prop :=
  NoDup (map TableGroups.id (table_groups d)).

(** The [sqlite_sequence] counter of [table_groups] is at least every
    rowid the table holds: each INSERT stores the rowid it handed out. *)
Definition group_sequence (d : db) : Prop :=
  forall g, In g (table_groups d) -> TableGroups.id g <= table_groups_seq d.

(** ** Groups and their members *)

(** The state rows whose [groupId] references a group row. *)
Definition members (g : TableGroups.row) (d : db) : list TableState.row :=
  filter (fun r => match TableState.groupId r with
                   | Some k => k =? TableGroups.id g
                   | None => false
                   end)
    (table_state d).

(** Invariant I2 of the specification: no group row without a member. *)
Definition no_empty_group (d : db) : bool :=
  forallb (fun g => negb (List.length (members g d) =? 0)%nat) (table_groups d).

(** A state row in a group points at a group row of its own instance. *)
Definition states_in_groups (d : db) : Prop :=
  forall r g, In r (table_state d) -> TableState.groupId r = Some g ->
    In (TableGroups.mk g (TableState.layoutInstanceId r)) (table_groups d).

(** Every group row has a member in its instance. *)
Definition groups_have_members (d : db) : Prop :=
  forall grp, In grp (table_groups d) ->
    exists r, In r (table_state d)
              /\ TableState.groupId r = Some (TableGroups.id grp)
              /\ TableState.layoutInstanceId r = TableGroups.layoutInstanceId grp.

(** What the grouping handlers keep true, together. *)
Definition grouping_ok (d : db) : Prop :=
  group_key d /\ states_in_groups d /\ groups_have_members d.

(** The store a group call is in when it creates its group: the group
    rows are a key, states point at groups of their instance, every
    group row has a member that the call does not name, and the call
    names a row. *)
Definition ready (layoutId : Z) (ids : list (option Z)) (d : db) : Prop :=
  group_key d
  /\ states_in_groups d
  /\ (forall grp, In grp (table_groups d) ->
        exists r, In r (table_state d)
                  /\ TableState.groupId r = Some (TableGroups.id grp)
                  /\ TableState.layoutInstanceId r = TableGroups.layoutInstanceId grp
                  /\ (TableState.layoutInstanceId r =? layoutId)
                     && param_in ids (TableState.tableId r) = false)
  /\ (exists r, In r (table_state d)
                /\ (TableState.layoutInstanceId r =? layoutId)
                   && param_in ids (TableState.tableId r) = true).

(** ** Sequences of grouping calls *)

Inductive call :=
| Group (date : string) (tableIds : option (list (option Z)))
| Ungroup (date : string) (groupId : finite).

Definition perform (c : call) (d : db) : db :=
  match c with
  | Group date tableIds => snd (post_group date tableIds d)
  | Ungroup date groupId => snd (post_ungroup date groupId d)
  end.

(** A group call is aimed when its [tableIds] name a state row of the
    instance of its date and are no more than the last UPDATE of the
    handler can bind beside its two other parameters. *)
Definition aimed (c : call) (d : db) : Prop :=
  match c with
  | Group date (Some ids) =>
      2 + Z.of_nat (List.length ids) <= SQLITE_MAX_VARIABLE_NUMBER
      /\ forall layoutId, select_layout date d = Some layoutId ->
           exists r, In r (table_state d)
                     /\ TableState.layoutInstanceId r = layoutId
                     /\ param_in ids (TableState.tableId r) = true
  | _ => True
  end.

(** The stores a sequence of calls goes through. *)
Fixpoint trace (calls : list call) (d : db) : list db :=
  match calls with
  | [] => []
  | c :: rest => perform c d :: trace rest (perform c d)
  end.

Fixpoint all_aimed (calls : list call) (d : db) : Prop :=
  match calls with
  | [] => True
  | c :: rest => aimed c d /\ all_aimed rest (perform c d)
  end.

(** ** Position updates and reservations *)

(** The row that [SET x = ?, y = ?] leaves. *)
Definition moved (vx vy : Z) (r : TableState.row) : TableState.row :=
  TableState.mk (TableState.layoutInstanceId r) (TableState.tableId r)
    vx vy (TableState.groupId r).

(** The value a [groupId] field puts in the column: NULL for [null], the
    id for a number that is the id of a group row. *)
Definition group_value (f : PutTable.group_field) (d : db) : option (option Z) :=
  match f with
  | PutTable.Null => Some None
  | PutTable.Number q => option_map Some (references_group q d)
  | PutTable.Skipped => None
  end.

(** The test the reservation handler makes before it looks at the store. *)
Definition accepted (b : ReservationForm.body) : bool :=
  is_finite (ReservationForm.groupId b)
  && truthy (ReservationForm.time b)
  && truthy (ReservationForm.name b)
  && is_finite (ReservationForm.partySize b).

(** The columns an update of a reservation has no SET for. *)
Definition binding (r : Reservations.row) : Z * Z * Z * string :=
  (Reservations.id r, Reservations.layoutInstanceId r, Reservations.groupId r,
   Reservations.createdAt r).

(** ** The words of the specification

    Where the specification promises more than the handlers check, its
    own wording is kept here, to be set against what the handlers do. *)

(** A stored coordinate: rounded, and a negative value clamped to zero. *)
Definition spec_coordinate (q : Q) : Z := Z.max 0 (Math_round q).

Definition is_digit (c : Ascii.ascii) : bool :=
  ((48 <=? Ascii.nat_of_ascii c) && (Ascii.nat_of_ascii c <=? 57))%nat.

Definition digit (c : Ascii.ascii) : nat := Ascii.nat_of_ascii c - 48.

(** A well-formed "HH:MM": two digits, a colon, two digits, an hour
    below 24 and a minute below 60. *)
Definition spec_well_formed_time (s : string) : bool :=
  match s with
  | String h1 (String h2 (String c (String m1 (String m2 EmptyString)))) =>
      is_digit h1 && is_digit h2 && Ascii.eqb c ":"%char && is_digit m1 && is_digit m2
      && (10 * digit h1 + digit h2 <? 24)%nat
      && (10 * digit m1 + digit m2 <? 60)%nat
  | _ => false
  end.




(** ** A floor of three tables

    The scenario of the specification: a catalog of three tables, the
    date 2024-01-01 opened, tables 1 and 2 grouped, the group reserved. *)

Definition floor : list Tables.row :=
  [ Tables.mk 1 "T1" 40 40 80 80 (Some 4);
    Tables.mk 2 "T2" 160 40 80 80 (Some 4);
    Tables.mk 3 "T3" 280 40 120 80 None ].

Definition day : string := "2024-01-01".

Definition tomorrow : string := "2024-01-02".

Definition closed : db := mkdb floor [] 0 [] 0 [] [] 0.

Definition opened : db := Eval vm_compute in snd (post_init day closed).

Definition grouped : db :=
  Eval vm_compute in snd (post_group day (Some [Some 1; Some 2]) opened).

Definition smith : ReservationForm.body :=
  ReservationForm.mk (Some 1%Q) None (Some "18:30"%string) (Some "Smith"%string)
    (Some 4%Q) None.

Definition reserved : db :=
  Eval vm_compute in snd (post_reservation "2024-01-01T09:00:00.000Z" day smith grouped).

(** The second day opened next to the first, whose tables 1 and 2 are
    grouped. *)
Definition two_days : db := Eval vm_compute in snd (post_init tomorrow grouped).

(** The second day opened, and a reservation filed under it for group 1,
    which is a group of the first day: the reservation handler asks for
    a group row, of whatever instance. *)
Definition misfiled : db :=
  Eval vm_compute in snd (post_reservation "2024-01-01T09:00:00.000Z" tomorrow smith two_days).

(** Table 1 named once more than the last UPDATE of a group call can
    bind beside its two other parameters. *)
Definition crowd : list (option Z) :=
  repeat (Some 1) (Z.to_nat (SQLITE_MAX_VARIABLE_NUMBER - 1)).



(** A drag to the left of the canvas. *)
Definition off_canvas : PutTable.body :=
  PutTable.mk (Some (-5 # 1)) (Some (3 # 1)) PutTable.Skipped.

(** * The rest of the server and the client's handlers *)

(** ** [GET /api/tables/default] *)

(** [SELECT id, name, defaultX, defaultY, width, height, capacity FROM
    tables ORDER BY id]. *)
Definition get_tables_default (d : db) : list Tables.row :=
  sort_on Tables.id (tables d).

(** ** The requests that write *)

Inductive request :=
| ReqInit (date : string)
| ReqPutTable (date : string) (tableId : option Z) (body : PutTable.body)
| ReqGroup (date : string) (tableIds : option (list (option Z)))
| ReqUngroup (date : string) (groupId : finite)
| ReqReservation (now date : string) (body : ReservationForm.body)
| ReqDeleteReservation (date : string) (reservationId : option Z).

(** The store a request leaves. *)
Definition handle (r : request) (d : db) : db :=
  match r with
  | ReqInit date => snd (post_init date d)
  | ReqPutTable date tableId body => snd (put_table date tableId body d)
  | ReqGroup date tableIds => snd (post_group date tableIds d)
  | ReqUngroup date groupId => snd (post_ungroup date groupId d)
  | ReqReservation now date body => snd (post_reservation now date body d)
  | ReqDeleteReservation date reservationId => snd (delete_reservation date reservationId d)
  end.

(** The store after a sequence of requests, served one after the other. *)
Definition serve (requests : list request) (d : db) : db :=
  fold_left (fun d r => handle r d) requests d.

(** A request leaves the grouping to the grouping handlers when, as a
    group request, it is aimed and, as a position update, its body has
    no [groupId] the handler accepts (the client's drag sends [x] and
    [y] only). *)
Definition settled (r : request) (d : db) : Prop :=
  match r with
  | ReqGroup date tableIds => aimed (Group date tableIds) d
  | ReqPutTable _ _ body => PutTable.groupId body = PutTable.Skipped
  | _ => True
  end.

Fixpoint all_settled (requests : list request) (d : db) : Prop :=
  match requests with
  | [] => True
  | r :: rest => settled r d /\ all_settled rest (handle r d)
  end.

(** ** The schema, whole

    Every constraint of [schema.sql], with the AUTOINCREMENT counters. *)
Record schema_ok (d : db) : Prop := mk_schema_ok
  { ok_catalog : catalog_key d;
    ok_instances : NoDup (map LayoutInstances.id (layout_instances d));
    ok_dates : NoDup (map LayoutInstances.date (layout_instances d));
    ok_instance_seq :
      forall i, In i (layout_instances d) -> LayoutInstances.id i <= layout_instances_seq d;
    ok_groups : group_key d;
    ok_group_seq : group_sequence d;
    ok_group_instance :
      forall g, In g (table_groups d) ->
        In (TableGroups.layoutInstanceId g) (map LayoutInstances.id (layout_instances d));
    ok_states : state_key d;
    ok_state_instance : states_reference_instances d;
    ok_state_table :
      forall r, In r (table_state d) ->
        In (TableState.tableId r) (map Tables.id (tables d));
    ok_state_group :
      forall r g, In r (table_state d) -> TableState.groupId r = Some g ->
        In g (map TableGroups.id (table_groups d));
    ok_reservations : NoDup (map Reservations.id (reservations d));
    ok_reservation_seq :
      forall r, In r (reservations d) -> Reservations.id r <= reservations_seq d;
    ok_reservation_instance :
      forall r, In r (reservations d) ->
        In (Reservations.layoutInstanceId r) (map LayoutInstances.id (layout_instances d));
    ok_reservation_group :
      forall r, In r (reservations d) ->
        In (Reservations.groupId r) (map TableGroups.id (table_groups d)) }.

(** Invariant I6 of the specification: an instance has a state row for
    every table of the catalog. *)
Definition seeded (d : db) : Prop :=
  forall i t, In i (layout_instances d) -> In t (tables d) ->
    exists r, In r (table_state d)
              /\ TableState.layoutInstanceId r = LayoutInstances.id i
              /\ TableState.tableId r = Tables.id t.

(** Where a table stands: its key and its coordinates. *)
Definition position (r : TableState.row) : Z * Z * Z * Z :=
  (TableState.layoutInstanceId r, TableState.tableId r, TableState.x r, TableState.y r).

(** The row a position update leaves of a row it names, in closed form:
    each column holds the value of the body's field, or what it held
    when the body has no such field; [None] when the group field breaks
    the foreign key. *)
Definition updated (b : PutTable.body) (d : db) (r : TableState.row) : option TableState.row :=
  match
    match PutTable.groupId b with
    | PutTable.Skipped => Some (TableState.groupId r)
    | PutTable.Null => Some None
    | PutTable.Number q => option_map Some (references_group q d)
    end
  with
  | Some g =>
      Some (TableState.mk (TableState.layoutInstanceId r) (TableState.tableId r)
              (match PutTable.x b with Some q => Math_round q | None => TableState.x r end)
              (match PutTable.y b with Some q => Math_round q | None => TableState.y r end)
              g)
  | None => None
  end.

(** The rows that [tableId = ?] of a position update names. *)
Definition named_by (layoutId : Z) (tableId : option Z) (r : TableState.row) : bool :=
  (TableState.layoutInstanceId r =? layoutId) && param_eqb tableId (TableState.tableId r).

(** The rows that [tableId IN (...)] of a group call names. *)
Definition named_in (layoutId : Z) (ids : list (option Z)) (r : TableState.row) : bool :=
  (TableState.layoutInstanceId r =? layoutId) && param_in ids (TableState.tableId r).

(** How a statement on [table_state] may rewrite a row without breaking
    the schema: the key stays, and the group stays, goes, or is the id of
    a group row. *)
Definition rewritten (d : db) (r r' : TableState.row) : Prop :=
  TableState.layoutInstanceId r' = TableState.layoutInstanceId r
  /\ TableState.tableId r' = TableState.tableId r
  /\ (TableState.groupId r' = TableState.groupId r
      \/ TableState.groupId r' = None
      \/ exists k, TableState.groupId r' = Some k
                   /\ In k (map TableGroups.id (table_groups d))).

(** The state rows of an instance that are in a group. *)
Definition in_group (layoutId g : Z) (r : TableState.row) : bool :=
  (TableState.layoutInstanceId r =? layoutId)
  && match TableState.groupId r with
     | Some k => k =? g
     | None => false
     end.

(** One turn of the [forEach] of [fetchLayoutPayload]. *)
Definition collect (layoutId : Z) (groups : list Payload.group) (ts : TableState.row)
  : list Payload.group :=
  match TableState.groupId ts with
  | Some g =>
      if TableState.layoutInstanceId ts =? layoutId
      then push_member g (TableState.tableId ts) groups
      else groups
  | None => groups
  end.

(** What [groups] holds when the [forEach] has gone through [rows]: one
    entry for each group that has a row among them, with the table ids
    of those rows in their order. *)
Definition collected (layoutId : Z) (rows : list TableState.row)
    (groups : list Payload.group) : Prop :=
  NoDup (map Payload.group_id groups)
  /\ (forall e, In e groups ->
        Payload.tableIds e <> []
        /\ Payload.tableIds e
           = map TableState.tableId (filter (in_group layoutId (Payload.group_id e)) rows))
  /\ (forall r g, In r rows -> in_group layoutId g r = true ->
        In g (map Payload.group_id groups)).

(** ** The client ([App.tsx])

    The client keeps the [tables], [groups] and [reservations] of the
    last snapshot it loaded, and the ids of the tables selected. *)

Module App.

(** [selectedGroupId]: the group of the selection, when the selection is
    not empty and all of it is in one group. *)
Definition selectedGroupId (selectedTableIds : list Z) (tables : list Payload.table)
  : option Z :=
  if (List.length selectedTableIds =? 0)%nat then None
  else
    let groupIds :=
      flat_map
        (fun found => match found with Some g => [g] | None => [] end)
        (map (fun id =>
                match find (fun table => Payload.tableId table =? id) tables with
                | Some table => Payload.groupId table
                | None => None
                end)
           selectedTableIds) in
    if negb (List.length groupIds =? List.length selectedTableIds)%nat then None
    else if negb (List.length (nodup Z.eq_dec groupIds) =? 1)%nat then None
    else hd_error groupIds.

(** [handleTableClick]: the selection after a click on a table. *)
Definition handleTableClick (tableId : Z) (shiftKey : bool) (prev : list Z) : list Z :=
  if shiftKey then
    if existsb (Z.eqb tableId) prev
    then filter (fun id => negb (id =? tableId)) prev
    else prev ++ [tableId]
  else [tableId].

(** A [Map] from group ids to reservations, by its entries; [set] on a
    key it holds replaces the value where the entry stands. *)
Fixpoint Map_set (k : Z) (v : Payload.reservation)
    (m : list (Z * Payload.reservation)) : list (Z * Payload.reservation) :=
  match m with
  | [] => [(k, v)]
  | (k', v') :: rest =>
      if k' =? k then (k, v) :: rest else (k', v') :: Map_set k v rest
  end.

Definition Map_get (k : Z) (m : list (Z * Payload.reservation)) : option Payload.reservation :=
  option_map snd (find (fun e => fst e =? k) m).

Definition Map_has (k : Z) (m : list (Z * Payload.reservation)) : bool :=
  existsb (fun e => fst e =? k) m.

(** [reservationByGroup]. *)
Definition reservationByGroup (reservations : list Payload.reservation)
  : list (Z * Payload.reservation) :=
  fold_left (fun m res => Map_set (Payload.reservation_groupId res) res m) reservations [].

(** What a handler of the client does next: a toast, or a request to the
    server. *)
Inductive step :=
| Nothing
| Toast (message : string)
| Send (r : request).

(** [!selectedGroupId]: no group, or the number 0. *)
Definition no_group (g : option Z) : bool :=
  match g with
  | Some k => k =? 0
  | None => true
  end.

(** [handleUngroup], up to the request it sends. *)
Definition handleUngroup (activeDate : option string) (selectedTableIds : list Z)
    (tables : list Payload.table) (reservations : list Payload.reservation) : step :=
  if negb (truthy activeDate) || no_group (selectedGroupId selectedTableIds tables)
  then Toast "Select a grouped set of tables."
  else
    match activeDate, selectedGroupId selectedTableIds tables with
    | Some date, Some g =>
        if Map_has g (reservationByGroup reservations)
        then Toast "Delete the reservation before ungrouping."
        else Send (ReqUngroup date (Some (inject_Z g)))
    | _, _ => Nothing
    end.

(** [handleGroup], up to the request it sends. *)
Definition handleGroup (activeDate : option string) (selectedTableIds : list Z) : step :=
  if negb (truthy activeDate) then Nothing
  else if (List.length selectedTableIds <? 2)%nat
  then Toast "Select at least two tables to group."
  else
    match activeDate with
    | Some date => Send (ReqGroup date (Some (map Some selectedTableIds)))
    | None => Nothing
    end.

End App.

(** * Properties *)

(** ** AUTOINCREMENT hands out an id no row of the table has *)

Lemma max_rowid_bound (ids : list Z) (k : Z) : In k ids -> k <= max_rowid ids.
Proof.
  induction ids as [|a ids IH]; simpl; [tauto|].
  intros [->|Hin]; [lia|]. specialize (IH Hin). lia.
Qed.

Lemma autoincrement_above (seq : Z) (ids : list Z) (k : Z) :
  In k ids -> k < autoincrement seq ids.
Proof.
  intros Hin. apply max_rowid_bound in Hin. unfold autoincrement. lia.
Qed.

Lemma autoincrement_fresh (seq : Z) (ids : list Z) :
  ~ In (autoincrement seq ids) ids.
Proof.
  intros Hin. apply (autoincrement_above seq) in Hin. lia.
Qed.

(** ** Instantiation *)

Lemma find_app_none {A : Type} (f : A -> bool) (l1 l2 : list A) :
  find f l1 = None -> find f (l1 ++ l2) = find f l2.
Proof.
  induction l1 as [|a l1 IH]; simpl; [reflexivity|].
  destruct (f a); [discriminate|exact IH].
Qed.

Lemma select_layout_none (date : string) (d : db) :
  select_layout date d = None ->
  find (fun r => (LayoutInstances.date r =? date)%string) (layout_instances d) = None.
Proof.
  unfold select_layout.
  destruct (find _ (layout_instances d)); simpl; [discriminate|reflexivity].
Qed.

Lemma insert_default_rows (layoutId : Z) (ts : list Tables.row) :
  forall old : list TableState.row,
    NoDup (map Tables.id ts) ->
    (forall r, In r old -> TableState.layoutInstanceId r = layoutId ->
               ~ In (TableState.tableId r) (map Tables.id ts)) ->
    insert_rows (map (default_state layoutId) ts) old
    = Some (old ++ map (default_state layoutId) ts).
Proof.
  induction ts as [|t ts IH]; intros old Hnd Hold; simpl.
  - now rewrite app_nil_r.
  - inversion Hnd as [|? ? Hnotin Hnd']; subst.
    assert (Hfree : existsb (same_key (default_state layoutId t)) old = false).
    { apply not_true_is_false. intros Hex.
      apply existsb_exists in Hex as [r [Hin Hkey]].
      unfold same_key in Hkey. simpl in Hkey.
      apply andb_true_iff in Hkey as [Hl Ht].
      apply Z.eqb_eq in Hl. apply Z.eqb_eq in Ht.
      apply (Hold r Hin (eq_sym Hl)). simpl. left. exact Ht. }
    rewrite Hfree, IH; [now rewrite <- app_assoc| exact Hnd' |].
    intros r Hin Hl Hmem. apply in_app_or in Hin as [Hin|[<-|[]]].
    + apply (Hold r Hin Hl). simpl. now right.
    + simpl in Hmem. contradiction.
Qed.

Lemma filter_none {A : Type} (f : A -> bool) (l : list A) :
  (forall a, In a l -> f a = false) -> filter f l = [].
Proof.
  induction l as [|a l IH]; intros H; simpl; [reflexivity|].
  rewrite (H a (or_introl eq_refl)). apply IH. intros b Hb. apply H. now right.
Qed.

Lemma filter_all {A : Type} (f : A -> bool) (l : list A) :
  (forall a, In a l -> f a = true) -> filter f l = l.
Proof.
  induction l as [|a l IH]; intros H; simpl; [reflexivity|].
  rewrite (H a (or_introl eq_refl)). f_equal. apply IH. intros b Hb. apply H. now right.
Qed.





(** ** The scenario of the specification, step by step *)

Example scenario_open :
  post_init day closed = (Json (mk_ensured 1 false), opened)
  /\ map TableState.groupId (table_state opened) = [None; None; None].
Proof. split; reflexivity. Qed.

Example scenario_group :
  fst (post_group day (Some [Some 1; Some 2]) opened) = Json 1
  /\ map TableState.groupId (table_state grouped) = [Some 1; Some 1; None]
  /\ select_groups 1 grouped = [Payload.mk_group 1 [1; 2]].
Proof. repeat split; reflexivity. Qed.

Example scenario_reserve_then_ungroup :
  post_ungroup day (Some 1%Q) reserved = (Conflict, reserved)
  /\ post_group day (Some [Some 1; Some 3]) reserved = (Conflict, reserved)
  /\ (let released := snd (delete_reservation day (Some 1) reserved) in
      fst (post_ungroup day (Some 1%Q) released) = Json tt
      /\ table_groups (snd (post_ungroup day (Some 1%Q) released)) = []
      /\ map TableState.groupId (table_state (snd (post_ungroup day (Some 1%Q) released)))
         = [None; None; None]).
Proof. repeat split; reflexivity. Qed.

(** ** Reservations gate regrouping *)

Lemma mem_In (k : Z) (l : list Z) : mem k l = true <-> In k l.
Proof.
  unfold mem. rewrite existsb_exists. split.
  - intros [x [Hin Heq]]. apply Z.eqb_eq in Heq. now subst.
  - intros Hin. exists k. split; [exact Hin|apply Z.eqb_refl].
Qed.

Lemma group_ids_of_In (rows : list TableState.row) (g : Z) :
  In g (group_ids_of rows) <->
  exists r, In r rows /\ TableState.groupId r = Some g.
Proof.
  induction rows as [|a rows IH]; simpl.
  - split; [tauto|intros [r [[] _]]].
  - destruct (TableState.groupId a) as [ga|] eqn:Ea; simpl; rewrite IH; split.
    + intros [->|[r [Hr Hg]]]; [exists a|exists r]; auto.
    + intros [r [[->|Hr] Hg]]; [left; congruence|right; exists r; auto].
    + intros [r [Hr Hg]]. exists r; auto.
    + intros [r [[->|Hr] Hg]]; [congruence|exists r; auto].
Qed.

Lemma select_existing_groups_In (layoutId : Z) (ids : list (option Z)) (d : db) (g : Z) :
  In g (select_existing_groups layoutId ids d) <->
  exists r, In r (table_state d)
            /\ TableState.layoutInstanceId r = layoutId
            /\ param_in ids (TableState.tableId r) = true
            /\ TableState.groupId r = Some g.
Proof.
  unfold select_existing_groups. rewrite nodup_In, group_ids_of_In. split.
  - intros [r [Hr Hg]]. apply filter_In in Hr as [Hr Hc].
    apply andb_true_iff in Hc as [Hl Hi]. apply Z.eqb_eq in Hl.
    exists r. auto.
  - intros [r [Hr [Hl [Hi Hg]]]]. exists r. split; [|exact Hg].
    apply filter_In. split; [exact Hr|].
    apply andb_true_iff. split; [now apply Z.eqb_eq|exact Hi].
Qed.

Lemma inhabited_length {A : Type} (a : A) (l : list A) :
  In a l -> (0 <? List.length l)%nat = true.
Proof. destruct l; [contradiction|reflexivity]. Qed.

Lemma num_eqb_true (q : Q) (k : Z) : num_eqb q k = true <-> (q == inject_Z k)%Q.
Proof. unfold num_eqb. apply Qeq_bool_iff. Qed.

Lemma param_in_In (ids : list (option Z)) (k : Z) :
  param_in ids k = true <-> In (Some k) ids.
Proof.
  unfold param_in. rewrite existsb_exists. split.
  - intros [[n|] [Hin Heq]]; simpl in Heq; [|discriminate].
    apply Z.eqb_eq in Heq. now subst.
  - intros Hin. exists (Some k). split; [exact Hin|]. simpl. apply Z.eqb_refl.
Qed.

(** A DELETE leaves a key a key. *)
Lemma delete_keeps_key {Row Key : Type} (rows : list Row) (key : Row -> Key)
    (kept : Row -> bool) :
  NoDup (map key rows) -> NoDup (map key (filter kept rows)).
Proof.
  induction rows as [|row rows IH]; simpl; intros Hnd; [constructor|].
  inversion Hnd as [|? ? Hnotin Hnd']; subst.
  destruct (kept row); simpl; [|now apply IH].
  constructor; [|now apply IH].
  intros Hin. apply Hnotin. apply in_map_iff in Hin as [other [Heq Hother]].
  apply filter_In in Hother as [Hother _]. rewrite <- Heq. now apply in_map.
Qed.

(** *** The limit on bound parameters *)

Lemma binds_true {A : Type} (others : Z) (l : list A) :
  binds others l = true <->
  others + Z.of_nat (List.length l) <= SQLITE_MAX_VARIABLE_NUMBER.
Proof. unfold binds. apply Z.leb_le. Qed.

Lemma binds_false {A : Type} (others : Z) (l : list A) :
  binds others l = false <->
  SQLITE_MAX_VARIABLE_NUMBER < others + Z.of_nat (List.length l).
Proof. unfold binds. apply Z.leb_gt. Qed.

Lemma group_ids_of_length (rows : list TableState.row) :
  (List.length (group_ids_of rows) <= List.length rows)%nat.
Proof.
  induction rows as [|r rows IH]; simpl; [lia|].
  destruct (TableState.groupId r); simpl; lia.
Qed.

Lemma distinct_length (l : list Z) :
  (List.length (nodup Z.eq_dec l) <= List.length l)%nat.
Proof.
  apply NoDup_incl_length; [apply NoDup_nodup|].
  intros k Hk. now apply nodup_In in Hk.
Qed.

(** Under the primary key of [table_state], the rows of one instance
    have different table ids. *)
Lemma instance_rows_differ (layoutId : Z) (rows : list TableState.row) :
  NoDup (map (fun r => (TableState.layoutInstanceId r, TableState.tableId r)) rows) ->
  (forall r, In r rows -> TableState.layoutInstanceId r = layoutId) ->
  NoDup (map (fun r => Some (TableState.tableId r)) rows).
Proof.
  induction rows as [|a rows IH]; simpl; intros Hnd Hl; [constructor|].
  inversion Hnd as [|? ? Hnotin Hnd']; subst. constructor.
  - intros Hin. apply Hnotin. apply in_map_iff in Hin as [r [Heq Hr]].
    injection Heq as Heq. apply in_map_iff. exists r. split; [|exact Hr].
    now rewrite Heq, (Hl r (or_intror Hr)), (Hl a (or_introl eq_refl)).
  - apply IH; [exact Hnd'|]. intros r Hr. apply Hl. now right.
Qed.

(** So [tableId IN (...)] matches, in one instance, no more rows than
    the list has elements, and these rows are in no more groups. *)
Lemma existing_groups_bound (layoutId : Z) (ids : list (option Z)) (d : db) :
  state_key d ->
  (List.length (select_existing_groups layoutId ids d) <= List.length ids)%nat.
Proof.
  intros Hkey. unfold select_existing_groups.
  set (rows := filter (fun r => (TableState.layoutInstanceId r =? layoutId)
                                && param_in ids (TableState.tableId r))
                 (table_state d)).
  assert (Hrows : (List.length rows <= List.length ids)%nat).
  { rewrite <- (length_map (fun r => Some (TableState.tableId r)) rows).
    apply NoDup_incl_length.
    - apply (instance_rows_differ layoutId).
      + unfold rows. now apply delete_keeps_key.
      + intros r Hr. apply filter_In in Hr as [_ Hc].
        apply andb_true_iff in Hc as [Hl _]. now apply Z.eqb_eq.
    - intros p Hp. apply in_map_iff in Hp as [r [<- Hr]].
      apply filter_In in Hr as [_ Hc]. apply andb_true_iff in Hc as [_ Hi].
      now apply param_in_In. }
  pose proof (distinct_length (group_ids_of rows)).
  pose proof (group_ids_of_length rows). lia.
Qed.

(** When a reservation of the instance of the date is bound to group
    [G], ungrouping [G] answers Conflict, and so does, under the primary
    key of [table_state], grouping any [tableIds] that the first SELECT
    can bind and that name a member of [G]; the store they return is the
    store they were given. *)
Lemma reservation_blocks_structural_change
    (date : string) (d : db) (layoutId G : Z) (res : Reservations.row) :
  select_layout date d = Some layoutId ->
  In res (reservations d) ->
  Reservations.layoutInstanceId res = layoutId ->
  Reservations.groupId res = G ->
  (forall q, (q == inject_Z G)%Q -> post_ungroup date (Some q) d = (Conflict, d))
  /\ (forall ids member,
        state_key d ->
        binds 1 ids = true ->
        In member (table_state d) ->
        TableState.layoutInstanceId member = layoutId ->
        TableState.groupId member = Some G ->
        param_in ids (TableState.tableId member) = true ->
        post_group date (Some ids) d = (Conflict, d)).
Proof.
  intros Hlayout Hres Hrl Hrg. split.
  - intros q Hq. unfold post_ungroup. rewrite Hlayout.
    replace (existsb _ (reservations d)) with true; [reflexivity|].
    symmetry. apply existsb_exists. exists res. split; [exact Hres|].
    apply andb_true_iff. split; [now apply Z.eqb_eq|].
    apply num_eqb_true. now rewrite Hrg.
  - intros ids member Hkey Hbinds Hm Hml Hmg Hin. unfold post_group.
    destruct ids as [|p ids]; [discriminate|].
    rewrite Hlayout, Hbinds. cbn [negb].
    assert (HG : In G (select_existing_groups layoutId (p :: ids) d)).
    { apply select_existing_groups_In. exists member. auto. }
    pose proof (existing_groups_bound layoutId (p :: ids) d Hkey) as Hbound.
    destruct (select_existing_groups layoutId (p :: ids) d) as [|g gs] eqn:Eg;
      [contradiction|].
    replace (binds 1 (g :: gs)) with true
      by (symmetry; apply binds_true; apply binds_true in Hbinds; lia).
    cbn [negb].
    replace (0 <? count_reserved layoutId (g :: gs) d)%nat with true; [reflexivity|].
    symmetry. apply (inhabited_length res). unfold count_reserved.
    apply filter_In. split; [exact Hres|].
    apply andb_true_iff. split; [now apply Z.eqb_eq|].
    apply mem_In. now rewrite Hrg.
Qed.

Lemma reservation_blocks_structural_change_witness :
  post_ungroup day (Some 1%Q) reserved = (Conflict, reserved)
  /\ post_group day (Some [Some 2; Some 3]) reserved = (Conflict, reserved).
Proof.
  destruct (reservation_blocks_structural_change day reserved 1 1
              (Reservations.mk 1 1 1 "18:30" "Smith" 4 None
                 "2024-01-01T09:00:00.000Z" "2024-01-01T09:00:00.000Z"))
    as [Hungroup Hgroup].
  - reflexivity.
  - simpl. left. reflexivity.
  - reflexivity.
  - reflexivity.
  - split.
    + apply Hungroup. reflexivity.
    + apply (Hgroup [Some 2; Some 3] (TableState.mk 1 2 160 40 (Some 1))).
      * repeat constructor; simpl; intuition discriminate.
      * reflexivity.
      * simpl. right. left. reflexivity.
      * reflexivity.
      * reflexivity.
      * reflexivity.
Defined.

(** A group call whose first SELECT cannot bind [tableIds] beside
    [layout.id] is answered with the internal error before anything is
    read or written, reservation or not. *)
Lemma post_group_unbindable (date : string) (d : db) (layoutId : Z)
    (ids : list (option Z)) :
  select_layout date d = Some layoutId ->
  SQLITE_MAX_VARIABLE_NUMBER < 1 + Z.of_nat (List.length ids) ->
  post_group date (Some ids) d = (ServerError, d).
Proof.
  intros Hlayout Hsize. unfold post_group.
  destruct ids as [|p ids].
  { exfalso. unfold SQLITE_MAX_VARIABLE_NUMBER in Hsize. simpl in Hsize. lia. }
  rewrite Hlayout. now rewrite (proj2 (binds_false 1 (p :: ids)) Hsize).
Qed.

(** C1, at the failing input.  A reservation bound to group 1 does not
    block when it is filed under another date.  Four requests on the
    empty store make group 1 of 2024-01-01, with tables 1 and 2, and
    file its one reservation under 2024-01-02.  Ungrouping group 1 on
    2024-01-01 then answers ok, and so does grouping tables 1 and 2
    again; with the group row goes, by ON DELETE CASCADE, the
    reservation. *)
Theorem misfiled_reservation_does_not_block :
  misfiled
  = serve [ReqInit day; ReqGroup day (Some [Some 1; Some 2]); ReqInit tomorrow;
           ReqReservation "2024-01-01T09:00:00.000Z" tomorrow smith] closed
  /\ select_layout day misfiled = Some 1
  /\ table_groups misfiled = [TableGroups.mk 1 1]
  /\ reservations misfiled
     = [Reservations.mk 1 2 1 "18:30" "Smith" (4 # 1) None
          "2024-01-01T09:00:00.000Z" "2024-01-01T09:00:00.000Z"]
  /\ fst (post_ungroup day (Some (1 # 1)) misfiled) = Json tt
  /\ reservations (snd (post_ungroup day (Some (1 # 1)) misfiled)) = []
  /\ fst (post_group day (Some [Some 1; Some 2]) misfiled) = Json 2
  /\ reservations (snd (post_group day (Some [Some 1; Some 2]) misfiled)) = [].
Proof. repeat split; reflexivity. Qed.

(** ** Regrouping *)

Lemma key_determines_row {A K : Type} (key : A -> K) (l : list A) (a b : A) :
  NoDup (map key l) -> In a l -> In b l -> key a = key b -> a = b.
Proof.
  induction l as [|c l IH]; intros Hnd Ha Hb Hk; [contradiction|].
  inversion Hnd as [|? ? Hnotin Hnd']; subst.
  destruct Ha as [->|Ha], Hb as [->|Hb].
  - reflexivity.
  - exfalso. apply Hnotin. rewrite Hk. now apply in_map.
  - exfalso. apply Hnotin. rewrite <- Hk. now apply in_map.
  - now apply IH.
Qed.

Lemma set_group_of_tables_rows (g : option Z) (layoutId : Z) (ids : list (option Z))
    (d : db) (r : TableState.row) :
  In r (table_state (set_group_of_tables g layoutId ids d)) ->
  TableState.layoutInstanceId r = layoutId ->
  param_in ids (TableState.tableId r) = true ->
  TableState.groupId r = g.
Proof.
  unfold set_group_of_tables. simpl. intros Hin Hl Hp.
  apply in_map_iff in Hin as [r0 [Heq Hr0]].
  destruct ((TableState.layoutInstanceId r0 =? layoutId)
            && param_in ids (TableState.tableId r0)) eqn:Hc; subst r.
  - reflexivity.
  - simpl in *. apply Z.eqb_eq in Hl. rewrite Hl, Hp in Hc. discriminate.
Qed.

Lemma create_group_new (layoutId : Z) (ids : list (option Z)) (d0 d : db) :
  binds 2 ids = true ->
  table_groups_seq d0 = table_groups_seq d ->
  exists g d',
    create_group layoutId ids d0 = (Json g, d')
    /\ table_groups_seq d < g
    /\ In (TableGroups.mk g layoutId) (table_groups d')
    /\ (forall r, In r (table_state d') ->
          TableState.layoutInstanceId r = layoutId ->
          param_in ids (TableState.tableId r) = true ->
          TableState.groupId r = Some g).
Proof.
  intros Hbinds Hseq. unfold create_group. rewrite Hbinds.
  destruct (insert_table_group layoutId d0) as [g d1] eqn:Hins.
  exists g, (set_group_of_tables (Some g) layoutId ids d1).
  unfold insert_table_group in Hins. inversion Hins as [[Hg Hd1]]. clear Hins.
  split; [reflexivity|]. split; [|split].
  - rewrite <- Hseq. unfold autoincrement. lia.
  - simpl. apply in_or_app. right. left. reflexivity.
  - intros r. apply set_group_of_tables_rows.
Qed.

(** C4, as amended.  A group call with at least one table id and no
    more than its last UPDATE can bind beside [groupId] and [layout.id], all of them
    members of one existing group that has no reservation in the
    instance, succeeds, and the group id it returns is none of the ids
    that [table_groups] held before the call, the id of that group
    included; the new group row belongs to the instance and every named
    table is in it. *)
Theorem regroup_returns_new_group
    (date : string) (d : db) (layoutId : Z) (grp : TableGroups.row)
    (ids : list (option Z)) :
  state_key d ->
  group_sequence d ->
  select_layout date d = Some layoutId ->
  In grp (table_groups d) ->
  TableGroups.layoutInstanceId grp = layoutId ->
  (forall res, In res (reservations d) ->
     Reservations.layoutInstanceId res = layoutId ->
     Reservations.groupId res <> TableGroups.id grp) ->
  ids <> [] ->
  2 + Z.of_nat (List.length ids) <= SQLITE_MAX_VARIABLE_NUMBER ->
  (forall p, In p ids ->
     exists r, In r (table_state d)
               /\ TableState.layoutInstanceId r = layoutId
               /\ TableState.groupId r = Some (TableGroups.id grp)
               /\ p = Some (TableState.tableId r)) ->
  exists g d',
    post_group date (Some ids) d = (Json g, d')
    /\ g <> TableGroups.id grp
    /\ (forall old, In old (table_groups d) -> TableGroups.id old <> g)
    /\ In (TableGroups.mk g layoutId) (table_groups d')
    /\ (forall r, In r (table_state d') ->
          TableState.layoutInstanceId r = layoutId ->
          param_in ids (TableState.tableId r) = true ->
          TableState.groupId r = Some g).
Proof.
  intros Hkey Hseq Hlayout Hgrp _ Hfree Hne Hsize Hsub.
  assert (Honly : forall g, In g (select_existing_groups layoutId ids d) ->
                    g = TableGroups.id grp).
  { intros g Hg. apply select_existing_groups_In in Hg as [r [Hr [Hl [Hp Hg]]]].
    apply param_in_In in Hp. destruct (Hsub _ Hp) as [r' [Hr' [Hl' [Hg' Heq]]]].
    assert (r = r').
    { apply (key_determines_row _ _ r r' Hkey Hr Hr').
      injection Heq as Heq. now rewrite Hl, Hl', Heq. }
    subst r'. congruence. }
  assert (Hcount : forall gs, (forall g, In g gs -> g = TableGroups.id grp) ->
                     count_reserved layoutId gs d = 0%nat).
  { intros gs Hgs. unfold count_reserved. rewrite filter_none; [reflexivity|].
    intros res Hres. apply not_true_is_false. intros Hc.
    apply andb_true_iff in Hc as [Hl Hm]. apply Z.eqb_eq in Hl.
    apply mem_In in Hm. apply Hgs in Hm. now apply (Hfree res Hres Hl). }
  assert (Hend : forall d0, table_groups_seq d0 = table_groups_seq d ->
            exists g d', create_group layoutId ids d0 = (Json g, d')
              /\ g <> TableGroups.id grp
              /\ (forall old, In old (table_groups d) -> TableGroups.id old <> g)
              /\ In (TableGroups.mk g layoutId) (table_groups d')
              /\ (forall r, In r (table_state d') ->
                    TableState.layoutInstanceId r = layoutId ->
                    param_in ids (TableState.tableId r) = true ->
                    TableState.groupId r = Some g)).
  { intros d0 Hd0.
    destruct (create_group_new layoutId ids d0 d (proj2 (binds_true 2 ids) Hsize) Hd0)
      as [g [d' [Hc [Hlt [Hin Hrows]]]]].
    exists g, d'. split; [exact Hc|]. split; [|split; [|split]]; auto.
    - specialize (Hseq grp Hgrp). lia.
    - intros old Hold. specialize (Hseq old Hold). lia. }
  pose proof (existing_groups_bound layoutId ids d Hkey) as Hbound.
  unfold post_group. destruct ids as [|p ids]; [congruence|].
  rewrite Hlayout.
  replace (binds 1 (p :: ids)) with true by (symmetry; apply binds_true; lia).
  cbn [negb].
  destruct (select_existing_groups layoutId (p :: ids) d) as [|g0 gs] eqn:Eg.
  - now apply Hend.
  - replace (binds 1 (g0 :: gs)) with true by (symmetry; apply binds_true; lia).
    replace (binds 2 (g0 :: gs)) with true by (symmetry; apply binds_true; lia).
    rewrite (Hcount (g0 :: gs) Honly). cbn [negb Nat.ltb Nat.leb].
    now apply Hend.
Qed.

Lemma regroup_returns_new_group_witness :
  exists g d',
    post_group day (Some [Some 1]) grouped = (Json g, d')
    /\ g <> 1
    /\ (forall old, In old (table_groups grouped) -> TableGroups.id old <> g)
    /\ In (TableGroups.mk g 1) (table_groups d')
    /\ (forall r, In r (table_state d') ->
          TableState.layoutInstanceId r = 1 ->
          param_in [Some 1] (TableState.tableId r) = true ->
          TableState.groupId r = Some g).
Proof.
  apply (regroup_returns_new_group day grouped 1 (TableGroups.mk 1 1) [Some 1]).
  - unfold state_key. simpl. repeat constructor; simpl; intuition congruence.
  - intros g Hg. simpl in Hg. destruct Hg as [<-|[]]. simpl. lia.
  - reflexivity.
  - simpl. left. reflexivity.
  - reflexivity.
  - intros res Hres. simpl in Hres. contradiction.
  - discriminate.
  - unfold SQLITE_MAX_VARIABLE_NUMBER. simpl. lia.
  - intros p Hp. simpl in Hp. destruct Hp as [<-|[]].
    exists (TableState.mk 1 1 40 40 (Some 1)). simpl. intuition.
Defined.

(** One element more and the last UPDATE cannot be prepared: the answer
    is the internal error, whatever the tables are. *)
Lemma post_group_past_the_limit (date : string) (d : db) (layoutId : Z)
    (ids : list (option Z)) :
  state_key d ->
  select_layout date d = Some layoutId ->
  (forall res, In res (reservations d) -> Reservations.layoutInstanceId res <> layoutId) ->
  Z.of_nat (List.length ids) = SQLITE_MAX_VARIABLE_NUMBER - 1 ->
  fst (post_group date (Some ids) d) = ServerError.
Proof.
  intros Hkey Hlayout Hfree Hsize.
  pose proof (existing_groups_bound layoutId ids d Hkey) as Hbound.
  assert (Hlast : forall d0, fst (create_group layoutId ids d0) = ServerError).
  { intros d0. unfold create_group.
    replace (binds 2 ids) with false by (symmetry; apply binds_false; lia).
    now destruct (insert_table_group layoutId d0). }
  unfold post_group. destruct ids as [|p ids].
  { exfalso. unfold SQLITE_MAX_VARIABLE_NUMBER in Hsize. simpl in Hsize. lia. }
  rewrite Hlayout.
  replace (binds 1 (p :: ids)) with true by (symmetry; apply binds_true; lia).
  cbn [negb].
  destruct (select_existing_groups layoutId (p :: ids) d) as [|g gs]; [apply Hlast|].
  replace (binds 1 (g :: gs)) with true by (symmetry; apply binds_true; lia).
  cbn [negb].
  replace (count_reserved layoutId (g :: gs) d) with 0%nat.
  - cbn [Nat.ltb Nat.leb]. destruct (negb (binds 2 (g :: gs))); [reflexivity|apply Hlast].
  - symmetry. unfold count_reserved. rewrite filter_none; [reflexivity|].
    intros res Hres. apply andb_false_iff. left. apply Z.eqb_neq. now apply Hfree.
Qed.

Lemma crowd_length : Z.of_nat (List.length crowd) = SQLITE_MAX_VARIABLE_NUMBER - 1.
Proof.
  unfold crowd. rewrite repeat_length. apply Z2Nat.id.
  unfold SQLITE_MAX_VARIABLE_NUMBER. lia.
Qed.

(** C4, counterexample.  Table 1 is in group 1, which has no
    reservation; a group call that names table 1, and nothing else, 32765
    times does not succeed: its last UPDATE has 32767 parameters. *)
Lemma regroup_past_the_parameter_limit :
  (forall p, In p crowd -> p = Some 1)
  /\ In (TableState.mk 1 1 40 40 (Some 1)) (table_state grouped)
  /\ reservations grouped = []
  /\ fst (post_group day (Some crowd) grouped) = ServerError.
Proof.
  split; [|split; [|split]].
  - intros p Hp. exact (repeat_spec _ _ _ Hp).
  - left. reflexivity.
  - reflexivity.
  - apply (post_group_past_the_limit day grouped 1 crowd).
    + unfold state_key. simpl. repeat constructor; simpl; intuition congruence.
    + reflexivity.
    + intros res Hres. simpl in Hres. contradiction.
    + exact crowd_length.
Qed.

(** ** Position updates *)

(** [Math_round] is rounding to the nearest integer, half way up. *)
Lemma Math_round_nearest (q : Q) :
  (inject_Z (Math_round q) - (1 # 2) <= q)%Q
  /\ (q < inject_Z (Math_round q) + (1 # 2))%Q.
Proof.
  unfold Math_round. split.
  - apply Qplus_le_l with (z := (1 # 2)%Q).
    setoid_replace (inject_Z (Qfloor (q + (1 # 2))) - (1 # 2) + (1 # 2))%Q
      with (inject_Z (Qfloor (q + (1 # 2)))) by ring.
    apply Qfloor_le.
  - apply Qplus_lt_l with (z := (1 # 2)%Q).
    setoid_replace (inject_Z (Qfloor (q + (1 # 2))) + (1 # 2) + (1 # 2))%Q
      with (inject_Z (Qfloor (q + (1 # 2)) + 1)).
    + apply Qlt_floor.
    + rewrite inject_Z_plus. ring.
Qed.

Example Math_round_ties :
  Math_round (5 # 2) = 3 /\ Math_round (-5 # 2) = -2 /\ Math_round (-26 # 10) = -3.
Proof. repeat split; reflexivity. Qed.

Lemma update_rows_total (cond : TableState.row -> bool)
    (f : TableState.row -> option TableState.row) (g : TableState.row -> TableState.row)
    (rows : list TableState.row) :
  (forall r, In r rows -> cond r = true -> f r = Some (g r)) ->
  update_rows cond f rows = Some (map (fun r => if cond r then g r else r) rows).
Proof.
  induction rows as [|r rows IH]; intros H; simpl; [reflexivity|].
  rewrite IH by (intros r0 Hr0; apply H; now right).
  destruct (cond r) eqn:Hc; [|reflexivity].
  now rewrite (H r (or_introl eq_refl) Hc).
Qed.

Lemma update_rows_untouched (cond : TableState.row -> bool)
    (f : TableState.row -> option TableState.row) (rows : list TableState.row) :
  (forall r, In r rows -> cond r = false) ->
  update_rows cond f rows = Some rows.
Proof.
  induction rows as [|r rows IH]; intros H; simpl; [reflexivity|].
  rewrite IH by (intros r0 Hr0; apply H; now right).
  now rewrite (H r (or_introl eq_refl)).
Qed.

Lemma set_table_state_same (d : db) : set_table_state (table_state d) d = d.
Proof. now destruct d. Qed.

Lemma insert_on_In {A : Type} (key : A -> Z) (a b : A) (l : list A) :
  In b (insert_on key a l) <-> b = a \/ In b l.
Proof.
  induction l as [|c l IH]; simpl; [intuition|].
  destruct (key a <=? key c); simpl; [intuition|].
  rewrite IH. intuition.
Qed.

Lemma sort_on_In {A : Type} (key : A -> Z) (b : A) (l : list A) :
  In b (sort_on key l) <-> In b l.
Proof.
  induction l as [|a l IH]; simpl; [tauto|].
  rewrite insert_on_In, IH. intuition.
Qed.

Lemma select_tables_In (layoutId : Z) (d : db) (e : Payload.table) :
  In e (select_tables layoutId d) <->
  exists ts t, In ts (table_state d)
               /\ TableState.layoutInstanceId ts = layoutId
               /\ In t (tables d)
               /\ Tables.id t = TableState.tableId ts
               /\ e = join_table ts t.
Proof.
  unfold select_tables. rewrite sort_on_In, in_flat_map. split.
  - intros [ts [Hts He]]. apply filter_In in Hts as [Hts Hl].
    apply in_map_iff in He as [t [He Ht]]. apply filter_In in Ht as [Ht Hid].
    apply Z.eqb_eq in Hl. apply Z.eqb_eq in Hid.
    exists ts, t. auto.
  - intros [ts [t [Hts [Hl [Ht [Hid He]]]]]]. exists ts. split.
    + apply filter_In. split; [exact Hts|now apply Z.eqb_eq].
    + apply in_map_iff. exists t. split; [now symmetry|].
      apply filter_In. split; [exact Ht|now apply Z.eqb_eq].
Qed.

(** C6, as amended.  For a table that has a state row in the instance of
    the date and a catalog row, and for all finite [x] and [y], the
    update answers ok and the snapshot read afterwards lists the table,
    each time at [Math.round x] and [Math.round y]: the coordinates are
    rounded and stored as they are, a negative one stays negative. *)
Theorem updatePosition_then_getSnapshot
    (date : string) (d : db) (layoutId tableId : Z) (qx qy : Q)
    (state : TableState.row) (tbl : Tables.row) :
  select_layout date d = Some layoutId ->
  In state (table_state d) ->
  TableState.layoutInstanceId state = layoutId ->
  TableState.tableId state = tableId ->
  In tbl (tables d) ->
  Tables.id tbl = tableId ->
  exists d' snapshot,
    put_table date (Some tableId) (PutTable.mk (Some qx) (Some qy) PutTable.Skipped) d
    = (Json tt, d')
    /\ get_layout date d' = Json snapshot
    /\ (exists e, In e (Payload.tables snapshot) /\ Payload.tableId e = tableId)
    /\ (forall e, In e (Payload.tables snapshot) ->
          Payload.tableId e = tableId ->
          Payload.x e = Math_round qx /\ Payload.y e = Math_round qy).
Proof.
  intros Hlayout Hstate Hsl Hst Htbl Hid.
  set (cond := fun r => (TableState.layoutInstanceId r =? layoutId)
                        && param_eqb (Some tableId) (TableState.tableId r)).
  set (rows := map (fun r => if cond r then moved (Math_round qx) (Math_round qy) r else r)
                 (table_state d)).
  exists (set_table_state rows d), (fetchLayoutPayload layoutId (set_table_state rows d)).
  split; [|split; [|split]].
  - unfold put_table. rewrite Hlayout. simpl.
    fold cond. rewrite (update_rows_total cond _ (moved (Math_round qx) (Math_round qy)));
      [reflexivity|]. intros r _ _. reflexivity.
  - unfold get_layout. unfold select_layout in *. simpl. now rewrite Hlayout.
  - exists (join_table (moved (Math_round qx) (Math_round qy) state) tbl).
    split; [|simpl; exact Hst].
    simpl. apply select_tables_In.
    exists (moved (Math_round qx) (Math_round qy) state), tbl.
    repeat split; auto.
    + simpl. unfold rows. apply in_map_iff. exists state. split; [|exact Hstate].
      unfold cond. simpl. now rewrite Hsl, Hst, !Z.eqb_refl.
    + simpl. congruence.
  - intros e He Het. simpl in He. apply select_tables_In in He
      as [ts [t [Hts [Hl [_ [_ ->]]]]]].
    simpl in Hts. unfold rows in Hts. apply in_map_iff in Hts as [r [Hr _]].
    simpl in Het. destruct (cond r) eqn:Hc; subst ts.
    + split; reflexivity.
    + exfalso. unfold cond in Hc. simpl in Hc. apply Z.eqb_eq in Hl.
      rewrite Hl in Hc. rewrite Het, Z.eqb_refl in Hc. discriminate.
Qed.

Lemma updatePosition_then_getSnapshot_witness :
  exists d' snapshot,
    put_table day (Some 2) (PutTable.mk (Some (7 # 2)) (Some (-9 # 4)) PutTable.Skipped)
      opened = (Json tt, d')
    /\ get_layout day d' = Json snapshot
    /\ (exists e, In e (Payload.tables snapshot) /\ Payload.tableId e = 2)
    /\ (forall e, In e (Payload.tables snapshot) ->
          Payload.tableId e = 2 ->
          Payload.x e = Math_round (7 # 2) /\ Payload.y e = Math_round (-9 # 4)).
Proof.
  apply (updatePosition_then_getSnapshot day opened 1 2 (7 # 2) (-9 # 4)
           (TableState.mk 1 2 160 40 None) (Tables.mk 2 "T2" 160 40 80 80 (Some 4))).
  - reflexivity.
  - simpl. right. left. reflexivity.
  - reflexivity.
  - reflexivity.
  - simpl. right. left. reflexivity.
  - reflexivity.
Defined.

(** C6, counterexample.  Table 1 moved to x = -5, y = 3: the snapshot
    shows x = -5, where the clamped coordinate would be 0. *)
Lemma updatePosition_does_not_clamp :
  fst (put_table day (Some 1) off_canvas opened) = Json tt
  /\ option_map
       (fun snapshot =>
          map (fun e => (Payload.tableId e, Payload.x e, Payload.y e))
            (Payload.tables snapshot))
       (match get_layout day (snd (put_table day (Some 1) off_canvas opened)) with
        | Json snapshot => Some snapshot
        | _ => None
        end)
     = Some [(1, -5, 3); (2, 160, 40); (3, 280, 40)]
  /\ spec_coordinate (-5 # 1) = 0
  /\ ~ (forall e,
          In e (select_tables 1 (snd (put_table day (Some 1) off_canvas opened))) ->
          Payload.tableId e = 1 ->
          Payload.x e = spec_coordinate (-5 # 1)).
Proof.
  split; [reflexivity|]. split; [reflexivity|]. split; [reflexivity|].
  intros H.
  specialize (H (Payload.mk_table 1 (-5) 3 None "T1" 80 80 (Some 4))).
  simpl in H. discriminate H; [left; reflexivity|reflexivity].
Qed.

(** C7, as amended.  NotFound is the answer for a date that has no
    layout only.  For a date that has one and a [tableId] that names no
    state row of it, the update answers ok when the body carries a field
    it accepts and ValidationError when it carries none; either way no
    row changes. *)
Theorem updatePosition_unknown_table
    (date : string) (d : db) (layoutId : Z) (tableId : option Z) (b : PutTable.body) :
  select_layout date d = Some layoutId ->
  (forall r, In r (table_state d) ->
     TableState.layoutInstanceId r = layoutId ->
     param_eqb tableId (TableState.tableId r) = false) ->
  (assignments b <> [] -> put_table date tableId b d = (Json tt, d))
  /\ (assignments b = [] -> put_table date tableId b d = (BadRequest, d))
  /\ fst (put_table date tableId b d) <> NotFound.
Proof.
  intros Hlayout Hnone.
  assert (Hrows : forall f,
            update_rows
              (fun r => (TableState.layoutInstanceId r =? layoutId)
                        && param_eqb tableId (TableState.tableId r))
              f (table_state d) = Some (table_state d)).
  { intros f. apply update_rows_untouched. intros r Hr.
    destruct (Z.eqb_spec (TableState.layoutInstanceId r) layoutId) as [Hl|_];
      [|reflexivity]. simpl. now apply Hnone. }
  unfold put_table. rewrite Hlayout, Hrows, set_table_state_same.
  destruct (assignments b) as [|a l]; simpl.
  - repeat split; [congruence|discriminate].
  - repeat split; [discriminate|discriminate].
Qed.

Lemma updatePosition_unknown_table_witness :
  put_table day (Some 99) (PutTable.mk (Some (10 # 1)) None PutTable.Skipped) opened
  = (Json tt, opened)
  /\ fst (put_table day (Some 99) (PutTable.mk (Some (10 # 1)) None PutTable.Skipped) opened)
     <> NotFound.
Proof.
  destruct (updatePosition_unknown_table day opened 1 (Some 99)
              (PutTable.mk (Some (10 # 1)) None PutTable.Skipped))
    as [Hok [_ Hfound]].
  - reflexivity.
  - intros r Hr _. simpl in Hr.
    destruct Hr as [<-|[<-|[<-|[]]]]; reflexivity.
  - split; [apply Hok; discriminate|exact Hfound].
Defined.

(** C7, counterexample.  The instance of the day has no state row for
    table 99, and moving table 99 answers ok, not NotFound. *)
Lemma updatePosition_unknown_table_is_ok :
  select_layout day opened = Some 1
  /\ existsb (fun r => TableState.tableId r =? 99) (table_state opened) = false
  /\ put_table day (Some 99) (PutTable.mk (Some (10 # 1)) None PutTable.Skipped) opened
     = (Json tt, opened)
  /\ fst (put_table day (Some 99) (PutTable.mk (Some (10 # 1)) None PutTable.Skipped) opened)
     <> NotFound.
Proof. repeat split; try reflexivity. discriminate. Qed.

(** ** The group field of a position update *)

Lemma assign_all_groupId (d : db) (b : PutTable.body) (v : option Z) (r : TableState.row) :
  group_value (PutTable.groupId b) d = Some v ->
  exists r',
    assign_all d (assignments b) r = Some r'
    /\ TableState.layoutInstanceId r' = TableState.layoutInstanceId r
    /\ TableState.tableId r' = TableState.tableId r
    /\ TableState.groupId r' = v.
Proof.
  intros Hv. unfold assignments.
  destruct (PutTable.x b) as [qx|], (PutTable.y b) as [qy|];
    destruct (PutTable.groupId b) as [| |q]; simpl in Hv; try discriminate;
    try (injection Hv as <-; simpl; eexists; split; [reflexivity|auto]);
    destruct (references_group q d) as [k|] eqn:Hk; try discriminate;
    injection Hv as <-; simpl; rewrite Hk; eexists; split; try reflexivity; auto.
Qed.

Lemma update_rows_each (cond : TableState.row -> bool)
    (f : TableState.row -> option TableState.row) (P : TableState.row -> TableState.row -> Prop)
    (rows : list TableState.row) :
  (forall r, exists r', f r = Some r' /\ P r r') ->
  exists rows',
    update_rows cond f rows = Some rows'
    /\ Forall2 (fun r r' => if cond r then P r r' else r' = r) rows rows'.
Proof.
  intros Hf. induction rows as [|r rows [rows' [Hu Hall]]]; simpl.
  - exists []. split; [reflexivity|constructor].
  - rewrite Hu. destruct (cond r) eqn:Hc.
    + destruct (Hf r) as [r' [Hr' HP]]. rewrite Hr'. exists (r' :: rows').
      split; [reflexivity|]. constructor; [now rewrite Hc|exact Hall].
    + exists (r :: rows'). split; [reflexivity|].
      constructor; [now rewrite Hc|exact Hall].
Qed.

(** A number that is the id of no group row cannot be assigned, whatever
    else the body assigns. *)
Lemma assign_all_refused (d : db) (b : PutTable.body) (q : Q) (r : TableState.row) :
  PutTable.groupId b = PutTable.Number q ->
  references_group q d = None ->
  assign_all d (assignments b) r = None.
Proof.
  intros Hb Hq. unfold assignments. rewrite Hb.
  destruct (PutTable.x b), (PutTable.y b); simpl; now rewrite Hq.
Qed.

(** An UPDATE none of whose rows can be rewritten fails when its WHERE
    clause has a row, and changes nothing when it has none. *)
Lemma update_rows_refused (cond : TableState.row -> bool)
    (f : TableState.row -> option TableState.row) (rows : list TableState.row) :
  (forall r, f r = None) ->
  update_rows cond f rows = if existsb cond rows then None else Some rows.
Proof.
  intros Hf. induction rows as [|r rows IH]; simpl; [reflexivity|].
  rewrite IH, Hf. destruct (cond r); simpl; [reflexivity|].
  now destruct (existsb cond rows).
Qed.

(** C10, as amended.  Where the date has a layout, a [groupId] field that
    is null, or a finite number that is the id of a row of
    [table_groups], is written by the position update into every state
    row the request names: the answer is ok, each such row keeps its key
    and now holds that value, every other row is as it was, and
    [table_groups] and [reservations] are not touched: no reservation is
    looked up and no emptied group is deleted.  A finite number that is
    the id of no group row is refused when the request names a state
    row: the answer is the internal error and the store is as it was;
    when the request names no state row the answer is ok and the store
    is as it was.  And there is a store in which the update clears the
    group of the only member of a group and the group row stays, with no
    state row pointing at it. *)
Theorem position_update_writes_group :
  (forall (date : string) (tableId : option Z) (b : PutTable.body) (d : db)
          (layoutId : Z) (v : option Z),
      select_layout date d = Some layoutId ->
      group_value (PutTable.groupId b) d = Some v ->
      exists d',
        put_table date tableId b d = (Json tt, d')
        /\ table_groups d' = table_groups d
        /\ reservations d' = reservations d
        /\ Forall2
             (fun r r' =>
                if (TableState.layoutInstanceId r =? layoutId)
                   && param_eqb tableId (TableState.tableId r)
                then TableState.layoutInstanceId r' = TableState.layoutInstanceId r
                     /\ TableState.tableId r' = TableState.tableId r
                     /\ TableState.groupId r' = v
                else r' = r)
             (table_state d) (table_state d'))
  /\ (forall (date : string) (tableId : option Z) (b : PutTable.body) (d : db)
             (layoutId : Z) (q : Q),
        select_layout date d = Some layoutId ->
        PutTable.groupId b = PutTable.Number q ->
        references_group q d = None ->
        put_table date tableId b d
        = if existsb
               (fun r => (TableState.layoutInstanceId r =? layoutId)
                         && param_eqb tableId (TableState.tableId r))
               (table_state d)
          then (ServerError, d)
          else (Json tt, d))
  /\ (exists (d d' : db) (g : TableGroups.row) (member : TableState.row),
        In g (table_groups d)
        /\ members g d = [member]
        /\ put_table day (Some (TableState.tableId member))
             (PutTable.mk None None PutTable.Null) d = (Json tt, d')
        /\ In g (table_groups d')
        /\ members g d' = []).
Proof.
  split; [|split].
  - intros date tableId b d layoutId v Hlayout Hv.
    destruct (update_rows_each
                (fun r => (TableState.layoutInstanceId r =? layoutId)
                          && param_eqb tableId (TableState.tableId r))
                (assign_all d (assignments b))
                (fun r r' => TableState.layoutInstanceId r' = TableState.layoutInstanceId r
                             /\ TableState.tableId r' = TableState.tableId r
                             /\ TableState.groupId r' = v)
                (table_state d)) as [rows' [Hu Hall]].
    { intros r. now apply assign_all_groupId. }
    exists (set_table_state rows' d).
    unfold put_table. rewrite Hlayout, Hu.
    assert (Hsome : assignments b <> []).
    { unfold assignments. destruct (PutTable.groupId b); simpl in Hv;
        [discriminate| |];
        destruct (PutTable.x b), (PutTable.y b); simpl; discriminate. }
    destruct (assignments b); [congruence|]. simpl. auto.
  - intros date tableId b d layoutId q Hlayout Hb Hq.
    unfold put_table. rewrite Hlayout.
    rewrite (update_rows_refused _ _ _ (fun r => assign_all_refused d b q r Hb Hq)).
    assert (Hsome : assignments b <> []).
    { unfold assignments. rewrite Hb.
      destruct (PutTable.x b), (PutTable.y b); simpl; discriminate. }
    destruct (assignments b); [congruence|]. cbn [List.length Nat.eqb].
    destruct (existsb _ (table_state d)); [reflexivity|].
    now rewrite set_table_state_same.
  - exists (snd (post_group day (Some [Some 3]) opened)).
    eexists. exists (TableGroups.mk 1 1), (TableState.mk 1 3 280 40 (Some 1)).
    split; [simpl; left; reflexivity|].
    split; [reflexivity|].
    split; [reflexivity|].
    split; [simpl; left; reflexivity|reflexivity].
Qed.

Lemma position_update_writes_group_witness :
  exists d',
    put_table day (Some 3) (PutTable.mk None None (PutTable.Number (1 # 1))) grouped
    = (Json tt, d')
    /\ table_groups d' = table_groups grouped
    /\ reservations d' = reservations grouped
    /\ Forall2
         (fun r r' =>
            if (TableState.layoutInstanceId r =? 1)
               && param_eqb (Some 3) (TableState.tableId r)
            then TableState.layoutInstanceId r' = TableState.layoutInstanceId r
                 /\ TableState.tableId r' = TableState.tableId r
                 /\ TableState.groupId r' = Some 1
            else r' = r)
         (table_state grouped) (table_state d').
Proof.
  apply (proj1 position_update_writes_group day (Some 3)
           (PutTable.mk None None (PutTable.Number (1 # 1))) grouped 1 (Some 1)).
  - reflexivity.
  - reflexivity.
Defined.

(** C10, counterexample.  Table 3 has a state row in the instance and
    999 is a finite number, but no group row has that id: the update is
    refused by the foreign key, the answer is the internal error and the
    row keeps the group it had (none); for table 99, which has no state
    row, the same body is answered ok and nothing is written. *)
Lemma position_update_refuses_unknown_group :
  existsb (fun r => (TableState.layoutInstanceId r =? 1) && (TableState.tableId r =? 3))
    (table_state grouped) = true
  /\ put_table day (Some 3) (PutTable.mk None None (PutTable.Number (999 # 1))) grouped
     = (ServerError, grouped)
  /\ map TableState.groupId
       (filter (fun r => TableState.tableId r =? 3) (table_state grouped)) = [None]
  /\ put_table day (Some 99) (PutTable.mk None None (PutTable.Number (999 # 1))) grouped
     = (Json tt, grouped).
Proof. repeat split; reflexivity. Qed.

(** ** Reservations *)

Lemma integer_of_integer (q : Q) (k : Z) : (q == inject_Z k)%Q -> integer_of q = Some k.
Proof.
  intros Hq. unfold integer_of.
  assert (Hfloor : Qfloor q = k) by (rewrite Hq; apply Qfloor_Z).
  rewrite Hfloor. now rewrite (proj2 (num_eqb_true q k) Hq).
Qed.

Lemma references_group_row (q : Q) (d : db) (g : TableGroups.row) :
  In g (table_groups d) -> (q == inject_Z (TableGroups.id g))%Q ->
  references_group q d = Some (TableGroups.id g).
Proof.
  intros Hin Hq. unfold references_group. rewrite (integer_of_integer _ _ Hq).
  replace (existsb _ (table_groups d)) with true; [reflexivity|].
  symmetry. apply existsb_exists. exists g. split; [exact Hin|apply Z.eqb_refl].
Qed.

Lemma post_reservation_rejected (now date : string) (b : ReservationForm.body) (d : db) :
  accepted b = false -> post_reservation now date b d = (BadRequest, d).
Proof.
  unfold accepted, post_reservation. intros H.
  destruct (is_finite (ReservationForm.groupId b)),
    (truthy (ReservationForm.time b)), (truthy (ReservationForm.name b)),
    (is_finite (ReservationForm.partySize b)); simpl in *; try reflexivity; discriminate.
Qed.

Lemma post_reservation_accepted (now date : string) (b : ReservationForm.body) (d : db) :
  accepted b = true ->
  post_reservation now date b d =
  match select_layout date d with
  | None => (NotFound, d)
  | Some layoutId =>
      match ReservationForm.reservationId b with
      | Some reservationId =>
          if existsb
               (fun r => num_eqb reservationId (Reservations.id r)
                         && (Reservations.layoutInstanceId r =? layoutId))
               (reservations d)
          then
            (Json (mk_saved reservationId (number (ReservationForm.groupId b))
                     (text (ReservationForm.time b)) (text (ReservationForm.name b))
                     (number (ReservationForm.partySize b))
                     (or_null (ReservationForm.notes b))),
             update_reservation (text (ReservationForm.time b))
               (text (ReservationForm.name b)) (number (ReservationForm.partySize b))
               (or_null (ReservationForm.notes b)) now reservationId d)
          else (NotFound, d)
      | None =>
          match insert_reservation layoutId (number (ReservationForm.groupId b))
                  (text (ReservationForm.time b)) (text (ReservationForm.name b))
                  (number (ReservationForm.partySize b))
                  (or_null (ReservationForm.notes b)) now d with
          | Some (lastID, d') =>
              (Json (mk_saved (inject_Z lastID) (number (ReservationForm.groupId b))
                       (text (ReservationForm.time b)) (text (ReservationForm.name b))
                       (number (ReservationForm.partySize b))
                       (or_null (ReservationForm.notes b))), d')
          | None => (ServerError, d)
          end
      end
  end.
Proof.
  unfold accepted, post_reservation. intros H.
  apply andb_true_iff in H as [H H4]. apply andb_true_iff in H as [H H3].
  apply andb_true_iff in H as [H1 H2]. now rewrite H1, H2, H3, H4.
Qed.




Example spec_well_formed_time_samples :
  spec_well_formed_time "18:30" = true
  /\ spec_well_formed_time "banana" = false
  /\ spec_well_formed_time "24:00" = false
  /\ spec_well_formed_time "7:05" = false.
Proof. repeat split; reflexivity. Qed.

(** C8.  A group row that already has a reservation takes a second one:
    a request with no reservation id, the group's id, a non-empty time
    and name and a finite party size is answered with the new
    reservation, whose id no stored reservation has; the row is appended
    to [reservations] under the same group, next to the first one, and
    the answer is not Conflict. *)
Theorem second_reservation_is_accepted
    (now date : string) (b : ReservationForm.body) (d : db) (layoutId : Z)
    (grp : TableGroups.row) (first : Reservations.row) (q p : Q) :
  select_layout date d = Some layoutId ->
  In grp (table_groups d) ->
  In first (reservations d) ->
  Reservations.groupId first = TableGroups.id grp ->
  ReservationForm.groupId b = Some q ->
  (q == inject_Z (TableGroups.id grp))%Q ->
  ReservationForm.reservationId b = None ->
  truthy (ReservationForm.time b) = true ->
  truthy (ReservationForm.name b) = true ->
  ReservationForm.partySize b = Some p ->
  exists newId d',
    post_reservation now date b d
    = (Json (mk_saved (inject_Z newId) q (text (ReservationForm.time b))
               (text (ReservationForm.name b)) p (or_null (ReservationForm.notes b))), d')
    /\ reservations d'
       = reservations d
         ++ [Reservations.mk newId layoutId (TableGroups.id grp)
               (text (ReservationForm.time b)) (text (ReservationForm.name b)) p
               (or_null (ReservationForm.notes b)) now now]
    /\ (forall r, In r (reservations d) -> Reservations.id r <> newId)
    /\ In first (reservations d')
    /\ fst (post_reservation now date b d) <> Conflict.
Proof.
  intros Hlayout Hgrp Hfirst _ Hg Hq Hid Htime Hname Hp.
  assert (Hacc : accepted b = true).
  { unfold accepted. now rewrite Hg, Hp, Htime, Hname. }
  rewrite (post_reservation_accepted _ _ _ _ Hacc), Hlayout, Hid.
  unfold insert_reservation. rewrite Hg, Hp. simpl number.
  rewrite (references_group_row q d grp Hgrp Hq).
  eexists. eexists. split; [reflexivity|]. simpl.
  split; [reflexivity|]. split; [|split].
  - intros r Hr Heq.
    apply (autoincrement_fresh (reservations_seq d) (map Reservations.id (reservations d))).
    rewrite <- Heq. now apply in_map.
  - apply in_or_app. now left.
  - discriminate.
Qed.

Lemma second_reservation_is_accepted_witness :
  exists newId d',
    post_reservation "2024-01-01T10:00:00.000Z" day
      (ReservationForm.mk (Some (1 # 1)) None (Some "20:00"%string) (Some "Jones"%string)
         (Some (2 # 1)) (Some "window"%string)) reserved
    = (Json (mk_saved (inject_Z newId) (1 # 1) "20:00" "Jones" (2 # 1) (Some "window"%string)), d')
    /\ reservations d'
       = reservations reserved
         ++ [Reservations.mk newId 1 1 "20:00" "Jones" (2 # 1) (Some "window"%string)
               "2024-01-01T10:00:00.000Z" "2024-01-01T10:00:00.000Z"]
    /\ (forall r, In r (reservations reserved) -> Reservations.id r <> newId)
    /\ In (Reservations.mk 1 1 1 "18:30" "Smith" 4 None
             "2024-01-01T09:00:00.000Z" "2024-01-01T09:00:00.000Z") (reservations d')
    /\ fst (post_reservation "2024-01-01T10:00:00.000Z" day
              (ReservationForm.mk (Some (1 # 1)) None (Some "20:00"%string)
                 (Some "Jones"%string) (Some (2 # 1)) (Some "window"%string)) reserved)
       <> Conflict.
Proof.
  apply (second_reservation_is_accepted "2024-01-01T10:00:00.000Z" day
           (ReservationForm.mk (Some (1 # 1)) None (Some "20:00"%string)
              (Some "Jones"%string) (Some (2 # 1)) (Some "window"%string))
           reserved 1 (TableGroups.mk 1 1)
           (Reservations.mk 1 1 1 "18:30" "Smith" 4 None
              "2024-01-01T09:00:00.000Z" "2024-01-01T09:00:00.000Z")
           (1 # 1) (2 # 1)).
  - reflexivity.
  - simpl. left. reflexivity.
  - simpl. left. reflexivity.
  - reflexivity.
  - reflexivity.
  - reflexivity.
  - reflexivity.
  - reflexivity.
  - reflexivity.
  - reflexivity.
Defined.

(** C9.  A request that carries the id of a reservation of the instance
    leaves, whatever [groupId] it carries, the id, the instance, the
    group and [createdAt] of every stored reservation as they were, adds
    and removes no reservation, leaves every other reservation and every
    other table untouched, and, when it passes validation, gives the
    reservation the [time], [name], [partySize] and [notes] of the
    request and the clock reading as [updatedAt]. *)
Theorem update_keeps_group_binding
    (now date : string) (b : ReservationForm.body) (d : db) (layoutId : Z)
    (q : Q) (target : Reservations.row) :
  select_layout date d = Some layoutId ->
  ReservationForm.reservationId b = Some q ->
  In target (reservations d) ->
  (q == inject_Z (Reservations.id target))%Q ->
  Reservations.layoutInstanceId target = layoutId ->
  let d' := snd (post_reservation now date b d) in
  map binding (reservations d') = map binding (reservations d)
  /\ (forall r, In r (reservations d) -> num_eqb q (Reservations.id r) = false ->
        In r (reservations d'))
  /\ table_state d' = table_state d
  /\ table_groups d' = table_groups d
  /\ layout_instances d' = layout_instances d
  /\ (accepted b = true ->
      In (Reservations.mk (Reservations.id target) layoutId (Reservations.groupId target)
            (text (ReservationForm.time b)) (text (ReservationForm.name b))
            (number (ReservationForm.partySize b)) (or_null (ReservationForm.notes b))
            (Reservations.createdAt target) now)
         (reservations d')).
Proof.
  intros Hlayout Hid Htarget Hq Htl d'. subst d'.
  destruct (accepted b) eqn:Hacc.
  - rewrite (post_reservation_accepted _ _ _ _ Hacc), Hlayout, Hid.
    replace (existsb _ (reservations d)) with true.
    + simpl. split; [|split].
      * rewrite map_map. apply map_ext. intros r.
        destruct (num_eqb q (Reservations.id r)); reflexivity.
      * intros r Hr Hne. apply in_map_iff. exists r. now rewrite Hne.
      * repeat split. intros _. apply in_map_iff. exists target.
        rewrite (proj2 (num_eqb_true _ _) Hq), Htl. auto.
    + symmetry. apply existsb_exists. exists target. split; [exact Htarget|].
      apply andb_true_iff. split; [now apply num_eqb_true|now apply Z.eqb_eq].
  - rewrite (post_reservation_rejected _ _ _ _ Hacc). simpl.
    repeat split; auto. discriminate.
Qed.

Lemma update_keeps_group_binding_witness :
  map binding
    (reservations
       (snd (post_reservation "2024-01-01T11:00:00.000Z" day
               (ReservationForm.mk (Some (9 # 1)) (Some (1 # 1)) (Some "19:15"%string)
                  (Some "Smith"%string) (Some (5 # 1)) None) reserved)))
  = map binding (reservations reserved)
  /\ reservations
       (snd (post_reservation "2024-01-01T11:00:00.000Z" day
               (ReservationForm.mk (Some (9 # 1)) (Some (1 # 1)) (Some "19:15"%string)
                  (Some "Smith"%string) (Some (5 # 1)) None) reserved))
     = [Reservations.mk 1 1 1 "19:15" "Smith" (5 # 1) None
          "2024-01-01T09:00:00.000Z" "2024-01-01T11:00:00.000Z"].
Proof.
  split.
  - apply (update_keeps_group_binding "2024-01-01T11:00:00.000Z" day
             (ReservationForm.mk (Some (9 # 1)) (Some (1 # 1)) (Some "19:15"%string)
                (Some "Smith"%string) (Some (5 # 1)) None)
             reserved 1 (1 # 1)
             (Reservations.mk 1 1 1 "18:30" "Smith" 4 None
                "2024-01-01T09:00:00.000Z" "2024-01-01T09:00:00.000Z")).
    + reflexivity.
    + reflexivity.
    + simpl. left. reflexivity.
    + reflexivity.
    + reflexivity.
  - reflexivity.
Defined.

(** ** Groups and their members *)

(** C2, at the failing input.  In the instance that [ensureLayoutInstance]
    has just created, a group call whose only table id, 999, is no table
    of the catalog answers with group id 1: the group row is inserted,
    the UPDATE that should fill it matches no state row, and the empty
    group stays in [table_groups]. *)
Theorem group_of_unknown_table_stays_empty :
  post_init day closed = (Json (mk_ensured 1 false), opened)
  /\ no_empty_group opened = true
  /\ fst (post_group day (Some [Some 999]) opened) = Json 1
  /\ table_groups (snd (post_group day (Some [Some 999]) opened)) = [TableGroups.mk 1 1]
  /\ members (TableGroups.mk 1 1) (snd (post_group day (Some [Some 999]) opened)) = []
  /\ no_empty_group (snd (post_group day (Some [Some 999]) opened)) = false.
Proof. repeat split; reflexivity. Qed.

(** ** What grouping keeps true

    The calls of the grouping handlers keep three properties of the
    store together: group ids are a key, a state row in a group points at
    a group row of its own instance, and every group row has a member in
    its instance. *)

Lemma groups_have_members_no_empty_group (d : db) :
  groups_have_members d -> no_empty_group d = true.
Proof.
  intros H. unfold no_empty_group. apply forallb_forall. intros g Hg.
  destruct (H g Hg) as [r [Hr [Hgr _]]].
  assert (Hin : In r (members g d)).
  { unfold members. apply filter_In. split; [exact Hr|]. rewrite Hgr. apply Z.eqb_refl. }
  destruct (members g d); [contradiction|reflexivity].
Qed.

Lemma group_row_eta (g : TableGroups.row) :
  TableGroups.mk (TableGroups.id g) (TableGroups.layoutInstanceId g) = g.
Proof. now destruct g. Qed.

Lemma group_key_unique (d : db) (g1 g2 : TableGroups.row) :
  group_key d -> In g1 (table_groups d) -> In g2 (table_groups d) ->
  TableGroups.id g1 = TableGroups.id g2 -> g1 = g2.
Proof. intros Hk. now apply key_determines_row. Qed.

(** *** Deleting groups *)

Lemma mem_gone (doomed : TableGroups.row -> bool) (groups : list TableGroups.row) (g : Z) :
  mem g (map TableGroups.id (filter doomed groups)) = true <->
  exists g0, In g0 groups /\ doomed g0 = true /\ TableGroups.id g0 = g.
Proof.
  rewrite mem_In, in_map_iff. split.
  - intros [g0 [Hid Hg0]]. apply filter_In in Hg0 as [Hin Hd]. exists g0. auto.
  - intros [g0 [Hin [Hd Hid]]]. exists g0. split; [exact Hid|].
    apply filter_In. auto.
Qed.

Lemma delete_groups_keeps_row (doomed : TableGroups.row -> bool) (d : db) (r : TableState.row) :
  In r (table_state d) ->
  (forall g0, In g0 (table_groups d) -> doomed g0 = true ->
     TableState.groupId r <> Some (TableGroups.id g0)) ->
  In r (table_state (delete_groups doomed d)).
Proof.
  intros Hr Hfree. unfold delete_groups. simpl. apply in_map_iff. exists r.
  split; [|exact Hr]. destruct (TableState.groupId r) as [g|] eqn:Hg; [|reflexivity].
  destruct (mem g (map TableGroups.id (filter doomed (table_groups d)))) eqn:Hm;
    [|reflexivity].
  apply mem_gone in Hm as [g0 [Hin [Hd Hid]]]. elim (Hfree g0 Hin Hd). now rewrite Hid.
Qed.

Lemma delete_groups_row_origin (doomed : TableGroups.row -> bool) (d : db) (r' : TableState.row) :
  In r' (table_state (delete_groups doomed d)) ->
  exists r, In r (table_state d)
            /\ TableState.layoutInstanceId r' = TableState.layoutInstanceId r
            /\ TableState.tableId r' = TableState.tableId r
            /\ (forall g, TableState.groupId r' = Some g ->
                  TableState.groupId r = Some g
                  /\ forall g0, In g0 (table_groups d) -> doomed g0 = true ->
                       TableGroups.id g0 <> g).
Proof.
  unfold delete_groups. simpl. intros Hin. apply in_map_iff in Hin as [r [Heq Hr]].
  exists r. split; [exact Hr|].
  destruct (TableState.groupId r) as [g|] eqn:Hg.
  - destruct (mem g (map TableGroups.id (filter doomed (table_groups d)))) eqn:Hm;
      subst r'; simpl.
    + split; [reflexivity|]. split; [reflexivity|]. intros g1 Hg1. discriminate.
    + split; [reflexivity|]. split; [reflexivity|]. intros g1 Hg1.
      assert (Hgg : g1 = g) by congruence. subst g1.
      split; [reflexivity|]. intros g0 Hin Hd Hid.
      assert (Hyes : mem g (map TableGroups.id (filter doomed (table_groups d))) = true).
      { apply mem_gone. exists g0. auto. }
      congruence.
  - subst r'. split; [reflexivity|]. split; [reflexivity|]. intros g1 Hg1. congruence.
Qed.

Lemma delete_groups_ok (doomed : TableGroups.row -> bool) (d : db) :
  group_key d -> states_in_groups d ->
  group_key (delete_groups doomed d) /\ states_in_groups (delete_groups doomed d).
Proof.
  intros Hk Hs. split.
  - unfold group_key, delete_groups. simpl.
    unfold group_key in Hk. revert Hk. generalize (table_groups d).
    induction l as [|g l IH]; simpl; intros Hnd; [constructor|].
    inversion Hnd as [|? ? Hnotin Hnd']; subst.
    destruct (doomed g); simpl; [now apply IH|].
    constructor; [|now apply IH].
    intros Hin. apply Hnotin. apply in_map_iff in Hin as [g0 [Hid Hg0]].
    apply filter_In in Hg0 as [Hg0 _]. rewrite <- Hid. now apply in_map.
  - intros r' g Hr' Hg.
    destruct (delete_groups_row_origin doomed d r' Hr') as [r [Hr [Hl [_ Hgr]]]].
    destruct (Hgr g Hg) as [Hrg Hsurv]. rewrite Hl.
    change (table_groups (delete_groups doomed d))
      with (filter (fun g => negb (doomed g)) (table_groups d)).
    apply filter_In. split; [now apply Hs|].
    destruct (doomed _) eqn:Hd; [|reflexivity].
    elim (Hsurv _ (Hs r g Hr Hrg) Hd). reflexivity.
Qed.

(** *** Rewriting the group of the named tables *)

Lemma set_group_row_origin (v : option Z) (layoutId : Z) (ids : list (option Z)) (d : db)
    (r' : TableState.row) :
  In r' (table_state (set_group_of_tables v layoutId ids d)) ->
  exists r, In r (table_state d)
            /\ (((TableState.layoutInstanceId r =? layoutId)
                 && param_in ids (TableState.tableId r) = true
                 /\ r' = with_groupId v r)
                \/ ((TableState.layoutInstanceId r =? layoutId)
                    && param_in ids (TableState.tableId r) = false
                    /\ r' = r)).
Proof.
  unfold set_group_of_tables. simpl. intros Hin.
  apply in_map_iff in Hin as [r [Heq Hr]]. exists r. split; [exact Hr|].
  destruct ((TableState.layoutInstanceId r =? layoutId)
            && param_in ids (TableState.tableId r)); [left|right]; auto.
Qed.

Lemma set_group_named (v : option Z) (layoutId : Z) (ids : list (option Z)) (d : db)
    (r : TableState.row) :
  In r (table_state d) ->
  (TableState.layoutInstanceId r =? layoutId) && param_in ids (TableState.tableId r) = true ->
  In (with_groupId v r) (table_state (set_group_of_tables v layoutId ids d)).
Proof.
  intros Hr Hc. unfold set_group_of_tables. simpl. apply in_map_iff.
  exists r. now rewrite Hc.
Qed.

Lemma set_group_other (v : option Z) (layoutId : Z) (ids : list (option Z)) (d : db)
    (r : TableState.row) :
  In r (table_state d) ->
  (TableState.layoutInstanceId r =? layoutId) && param_in ids (TableState.tableId r) = false ->
  In r (table_state (set_group_of_tables v layoutId ids d)).
Proof.
  intros Hr Hc. unfold set_group_of_tables. simpl. apply in_map_iff.
  exists r. now rewrite Hc.
Qed.

Lemma groups_in_use_In (layoutId : Z) (d : db) (g : Z) :
  In g (groups_in_use layoutId d) <->
  exists r, In r (table_state d)
            /\ TableState.layoutInstanceId r = layoutId
            /\ TableState.groupId r = Some g.
Proof.
  unfold groups_in_use. rewrite nodup_In, group_ids_of_In. split.
  - intros [r [Hr Hg]]. apply filter_In in Hr as [Hr Hl]. apply Z.eqb_eq in Hl.
    exists r. auto.
  - intros [r [Hr [Hl Hg]]]. exists r. split; [|exact Hg].
    apply filter_In. split; [exact Hr|now apply Z.eqb_eq].
Qed.

Lemma create_group_ok (layoutId : Z) (ids : list (option Z)) (d : db) :
  binds 2 ids = true ->
  ready layoutId ids d -> grouping_ok (snd (create_group layoutId ids d)).
Proof.
  intros Hbinds [Hk [Hs [Hm [r0 [Hr0 Hc0]]]]].
  unfold create_group, insert_table_group. rewrite Hbinds.
  set (g := autoincrement (table_groups_seq d) (map TableGroups.id (table_groups d))).
  set (d1 := mkdb _ _ _ _ _ _ _ _). simpl snd.
  assert (Hgroups : table_groups (set_group_of_tables (Some g) layoutId ids d1)
                    = table_groups d ++ [TableGroups.mk g layoutId]) by reflexivity.
  assert (Hrows : table_state d1 = table_state d) by reflexivity.
  split; [|split].
  - unfold group_key. rewrite Hgroups, map_app. apply NoDup_app.
    + exact Hk.
    + simpl. constructor; [tauto|constructor].
    + intros a Ha [<-|[]]. now apply (autoincrement_fresh (table_groups_seq d)) in Ha.
  - intros r' x Hr' Hx. rewrite Hgroups. apply in_or_app.
    apply set_group_row_origin in Hr' as [r [Hr [[Hc ->]|[Hc ->]]]]; rewrite Hrows in Hr.
    + right. left. simpl in *. apply andb_true_iff in Hc as [Hl _].
      apply Z.eqb_eq in Hl. congruence.
    + left. now apply Hs.
  - intros grp Hgrp. rewrite Hgroups in Hgrp. apply in_app_or in Hgrp as [Hold|[<-|[]]].
    + destruct (Hm grp Hold) as [r [Hr [Hg [Hl Hc]]]]. exists r.
      split; [|auto]. apply set_group_other; [now rewrite Hrows|exact Hc].
    + exists (with_groupId (Some g) r0). split; [|split].
      * apply set_group_named; [now rewrite Hrows|exact Hc0].
      * reflexivity.
      * simpl. apply andb_true_iff in Hc0 as [Hl _]. now apply Z.eqb_eq.
Qed.

Lemma ready_ungrouped (layoutId : Z) (ids : list (option Z)) (d : db) :
  grouping_ok d ->
  select_existing_groups layoutId ids d = [] ->
  (exists r, In r (table_state d)
             /\ TableState.layoutInstanceId r = layoutId
             /\ param_in ids (TableState.tableId r) = true) ->
  ready layoutId ids d.
Proof.
  intros [Hk [Hs Hm]] Hnone [r0 [Hr0 [Hl0 Hp0]]].
  split; [exact Hk|]. split; [exact Hs|]. split.
  - intros grp Hgrp. destruct (Hm grp Hgrp) as [r [Hr [Hg Hl]]]. exists r.
    repeat split; auto.
    destruct ((TableState.layoutInstanceId r =? layoutId)
              && param_in ids (TableState.tableId r)) eqn:Hc; [|reflexivity].
    apply andb_true_iff in Hc as [Hrl Hrp]. apply Z.eqb_eq in Hrl.
    assert (Hin : In (TableGroups.id grp) (select_existing_groups layoutId ids d)).
    { apply select_existing_groups_In. exists r. auto. }
    rewrite Hnone in Hin. contradiction.
  - exists r0. split; [exact Hr0|]. apply andb_true_iff. split; [now apply Z.eqb_eq|exact Hp0].
Qed.

Lemma ready_regrouped (layoutId : Z) (ids : list (option Z)) (groupIds : list Z) (d : db) :
  grouping_ok d ->
  (forall g, In g (select_existing_groups layoutId ids d) -> In g groupIds) ->
  (exists r, In r (table_state d)
             /\ TableState.layoutInstanceId r = layoutId
             /\ param_in ids (TableState.tableId r) = true) ->
  ready layoutId ids
    (delete_emptied_groups layoutId groupIds (set_group_of_tables None layoutId ids d)).
Proof.
  intros [Hk [Hs Hm]] Hexisting [r0 [Hr0 [Hl0 Hp0]]].
  set (d1 := set_group_of_tables None layoutId ids d).
  assert (Hk1 : group_key d1) by exact Hk.
  assert (Hs1 : states_in_groups d1).
  { intros r' g Hr' Hg.
    apply set_group_row_origin in Hr' as [r [Hr [[_ ->]|[_ ->]]]];
      [discriminate|now apply Hs]. }
  unfold delete_emptied_groups.
  set (doomed := fun g : TableGroups.row =>
                   (TableGroups.layoutInstanceId g =? layoutId)
                   && mem (TableGroups.id g) groupIds
                   && negb (mem (TableGroups.id g) (groups_in_use layoutId d1))).
  destruct (delete_groups_ok doomed d1 Hk1 Hs1) as [Hk2 Hs2].
  split; [exact Hk2|]. split; [exact Hs2|].
  assert (Hstays : forall grp r,
            In grp (table_groups d) -> doomed grp = false ->
            In r (table_state d1) ->
            TableState.groupId r = Some (TableGroups.id grp) ->
            In r (table_state (delete_groups doomed d1))).
  { intros grp r Hgrp Hsurv Hr Hg. apply delete_groups_keeps_row; [exact Hr|].
    intros g0 Hg0 Hd0 Heq. rewrite Hg in Heq. injection Heq as Heq.
    assert (g0 = grp) by (symmetry; now apply (group_key_unique d)).
    subst g0. congruence. }
  split.
  - intros grp Hgrp.
    change (table_groups (delete_groups doomed d1))
      with (filter (fun g => negb (doomed g)) (table_groups d)) in Hgrp.
    apply filter_In in Hgrp as [Hgrp Hsurv]. apply negb_true_iff in Hsurv.
    destruct (Hm grp Hgrp) as [r [Hr [Hg Hl]]].
    destruct ((TableState.layoutInstanceId r =? layoutId)
              && param_in ids (TableState.tableId r)) eqn:Hc.
    + apply andb_true_iff in Hc as [Hrl Hrp]. apply Z.eqb_eq in Hrl.
      assert (Hin : mem (TableGroups.id grp) groupIds = true).
      { apply mem_In, Hexisting, select_existing_groups_In. exists r. auto. }
      pose proof Hsurv as Huse.
      unfold doomed in Huse. rewrite Hin, <- Hl, Hrl, Z.eqb_refl in Huse.
      simpl in Huse. apply negb_false_iff in Huse.
      apply mem_In, groups_in_use_In in Huse as [r2 [Hr2 [Hl2 Hg2]]].
      exists r2. split; [now apply (Hstays grp)|]. split; [exact Hg2|].
      split; [congruence|].
      apply set_group_row_origin in Hr2 as [r3 [_ [[_ ->]|[Hc3 ->]]]];
        [discriminate|exact Hc3].
    + exists r. split; [|auto]. apply (Hstays grp); auto.
      now apply set_group_other.
  - exists (with_groupId None r0). split.
    + apply delete_groups_keeps_row; [|discriminate].
      apply set_group_named; [exact Hr0|].
      apply andb_true_iff. split; [now apply Z.eqb_eq|exact Hp0].
    + simpl. apply andb_true_iff. split; [now apply Z.eqb_eq|exact Hp0].
Qed.

Lemma post_group_ok (date : string) (tableIds : option (list (option Z))) (d : db) :
  grouping_ok d -> state_key d -> aimed (Group date tableIds) d ->
  grouping_ok (snd (post_group date tableIds d)).
Proof.
  intros Hok Hkey Haim. unfold post_group.
  destruct tableIds as [[|p ids]|]; try exact Hok.
  destruct (select_layout date d) as [layoutId|] eqn:Hlayout; [|exact Hok].
  destruct Haim as [Hsize Haim]. specialize (Haim layoutId Hlayout).
  pose proof (existing_groups_bound layoutId (p :: ids) d Hkey) as Hbound.
  assert (Hlast : binds 2 (p :: ids) = true) by (apply binds_true; lia).
  replace (binds 1 (p :: ids)) with true by (symmetry; apply binds_true; lia).
  cbn [negb].
  destruct (select_existing_groups layoutId (p :: ids) d) as [|g gs] eqn:Hex.
  - apply create_group_ok; [exact Hlast|]. now apply ready_ungrouped.
  - replace (binds 1 (g :: gs)) with true by (symmetry; apply binds_true; lia).
    replace (binds 2 (g :: gs)) with true by (symmetry; apply binds_true; lia).
    cbn [negb].
    destruct (0 <? count_reserved layoutId (g :: gs) d)%nat; [exact Hok|].
    apply create_group_ok; [exact Hlast|]. apply ready_regrouped; auto.
    intros x Hx. now rewrite <- Hex.
Qed.

Lemma post_ungroup_ok (date : string) (groupId : finite) (d : db) :
  grouping_ok d -> grouping_ok (snd (post_ungroup date groupId d)).
Proof.
  intros Hok. unfold post_ungroup.
  destruct groupId as [q|]; [|exact Hok].
  destruct (select_layout date d) as [layoutId|]; [|exact Hok].
  destruct (existsb _ (reservations d)); [exact Hok|]. simpl snd.
  destruct Hok as [Hk [Hs Hm]].
  set (d1 := clear_group layoutId q d).
  set (doomed := fun g : TableGroups.row =>
                   num_eqb q (TableGroups.id g)
                   && (TableGroups.layoutInstanceId g =? layoutId)).
  assert (Horigin : forall r', In r' (table_state d1) ->
            exists r, In r (table_state d)
                      /\ (r' = r \/ TableState.groupId r' = None)).
  { intros r' Hr'. unfold d1, clear_group in Hr'. simpl in Hr'.
    apply in_map_iff in Hr' as [r [Heq Hr]]. exists r. split; [exact Hr|].
    destruct (TableState.groupId r) as [g|]; [|now left].
    destruct ((TableState.layoutInstanceId r =? layoutId) && num_eqb q g);
      [right; now subst r'|now left]. }
  assert (Hk1 : group_key d1) by exact Hk.
  assert (Hs1 : states_in_groups d1).
  { intros r' g Hr' Hg. destruct (Horigin r' Hr') as [r [Hr [->|Hnone]]];
      [now apply Hs|congruence]. }
  destruct (delete_groups_ok doomed d1 Hk1 Hs1) as [Hk2 Hs2].
  split; [exact Hk2|]. split; [exact Hs2|].
  intros grp Hgrp.
  change (table_groups (delete_groups doomed d1))
    with (filter (fun g => negb (doomed g)) (table_groups d)) in Hgrp.
  apply filter_In in Hgrp as [Hgrp Hsurv]. apply negb_true_iff in Hsurv.
  destruct (Hm grp Hgrp) as [r [Hr [Hg Hl]]]. exists r. split; [|auto].
  apply delete_groups_keeps_row.
  - unfold d1, clear_group. simpl. apply in_map_iff. exists r. split; [|exact Hr].
    rewrite Hg.
    destruct ((TableState.layoutInstanceId r =? layoutId)
              && num_eqb q (TableGroups.id grp)) eqn:Hc; [|reflexivity].
    apply andb_true_iff in Hc as [Hrl Hq]. unfold doomed in Hsurv.
    rewrite Hq, <- Hl, Hrl in Hsurv. discriminate.
  - intros g0 Hg0 Hd0 Heq. rewrite Hg in Heq. injection Heq as Heq.
    assert (g0 = grp) by (symmetry; now apply (group_key_unique d)).
    subst g0. congruence.
Qed.

(** *** The constraints the regrouping theorem assumes are kept *)

Lemma with_groupId_key (v : option Z) (r : TableState.row) :
  (TableState.layoutInstanceId (with_groupId v r), TableState.tableId (with_groupId v r))
  = (TableState.layoutInstanceId r, TableState.tableId r).
Proof. reflexivity. Qed.

Lemma set_group_of_tables_keys (v : option Z) (layoutId : Z) (ids : list (option Z)) (d : db) :
  map (fun r => (TableState.layoutInstanceId r, TableState.tableId r))
    (table_state (set_group_of_tables v layoutId ids d))
  = map (fun r => (TableState.layoutInstanceId r, TableState.tableId r)) (table_state d).
Proof.
  unfold set_group_of_tables. simpl. rewrite map_map. apply map_ext. intros r.
  destruct ((TableState.layoutInstanceId r =? layoutId)
            && param_in ids (TableState.tableId r)); reflexivity.
Qed.

Lemma delete_groups_keys (doomed : TableGroups.row -> bool) (d : db) :
  map (fun r => (TableState.layoutInstanceId r, TableState.tableId r))
    (table_state (delete_groups doomed d))
  = map (fun r => (TableState.layoutInstanceId r, TableState.tableId r)) (table_state d).
Proof.
  unfold delete_groups. simpl. rewrite map_map. apply map_ext. intros r.
  destruct (TableState.groupId r) as [g|]; [|reflexivity].
  destruct (mem g _); reflexivity.
Qed.

Lemma clear_group_keys (layoutId : Z) (q : Q) (d : db) :
  map (fun r => (TableState.layoutInstanceId r, TableState.tableId r))
    (table_state (clear_group layoutId q d))
  = map (fun r => (TableState.layoutInstanceId r, TableState.tableId r)) (table_state d).
Proof.
  unfold clear_group. simpl. rewrite map_map. apply map_ext. intros r.
  destruct (TableState.groupId r) as [g|]; [|reflexivity].
  destruct ((TableState.layoutInstanceId r =? layoutId) && num_eqb q g); reflexivity.
Qed.

Lemma delete_groups_sequence (doomed : TableGroups.row -> bool) (d : db) :
  group_sequence d -> group_sequence (delete_groups doomed d).
Proof.
  intros H g Hg. unfold delete_groups in Hg. simpl in Hg.
  apply filter_In in Hg as [Hg _]. simpl. now apply H.
Qed.

Lemma create_group_keeps_schema (layoutId : Z) (ids : list (option Z)) (d : db) :
  state_key d -> group_sequence d ->
  state_key (snd (create_group layoutId ids d))
  /\ group_sequence (snd (create_group layoutId ids d)).
Proof.
  intros Hk Hs. unfold create_group, insert_table_group.
  destruct (binds 2 ids); simpl snd; split.
  - unfold state_key. now rewrite set_group_of_tables_keys.
  - intros g Hg. simpl in Hg. simpl table_groups_seq.
    apply in_app_or in Hg as [Hg|[<-|[]]].
    + specialize (Hs g Hg). unfold autoincrement. lia.
    + simpl. lia.
  - exact Hk.
  - intros g Hg. simpl in Hg. simpl table_groups_seq.
    apply in_app_or in Hg as [Hg|[<-|[]]].
    + specialize (Hs g Hg). unfold autoincrement. lia.
    + simpl. lia.
Qed.

Lemma perform_keeps_schema (c : call) (d : db) :
  state_key d -> group_sequence d ->
  state_key (perform c d) /\ group_sequence (perform c d).
Proof.
  intros Hk Hs. destruct c as [date tableIds|date groupId]; simpl.
  - unfold post_group. destruct tableIds as [[|p ids]|]; auto.
    destruct (select_layout date d) as [layoutId|]; auto.
    destruct (negb (binds 1 (p :: ids))); auto.
    destruct (select_existing_groups layoutId (p :: ids) d) as [|g gs].
    + now apply create_group_keeps_schema.
    + destruct (negb (binds 1 (g :: gs))); auto.
      destruct (0 <? count_reserved layoutId (g :: gs) d)%nat; auto.
      destruct (negb (binds 2 (g :: gs))).
      * simpl snd. split; [|exact Hs].
        unfold state_key. now rewrite set_group_of_tables_keys.
      * apply create_group_keeps_schema.
        -- unfold state_key, delete_emptied_groups.
           now rewrite delete_groups_keys, set_group_of_tables_keys.
        -- unfold delete_emptied_groups. now apply delete_groups_sequence.
  - unfold post_ungroup. destruct groupId as [q|]; auto.
    destruct (select_layout date d) as [layoutId|]; auto.
    destruct (existsb _ (reservations d)); auto. simpl snd. split.
    + unfold state_key. now rewrite delete_groups_keys, clear_group_keys.
    + now apply delete_groups_sequence.
Qed.

Lemma perform_keeps_state_key (c : call) (d : db) :
  state_key d -> state_key (perform c d).
Proof.
  intros Hk. unfold state_key. destruct c as [date tableIds|date groupId]; simpl.
  - assert (Hlast : forall layoutId ids d0,
              map (fun r => (TableState.layoutInstanceId r, TableState.tableId r))
                (table_state (snd (create_group layoutId ids d0)))
              = map (fun r => (TableState.layoutInstanceId r, TableState.tableId r))
                  (table_state d0)).
    { intros layoutId ids d0. unfold create_group, insert_table_group.
      destruct (binds 2 ids); simpl snd; [|reflexivity].
      now rewrite set_group_of_tables_keys. }
    unfold post_group. destruct tableIds as [[|p ids]|]; auto.
    destruct (select_layout date d) as [layoutId|]; auto.
    destruct (negb (binds 1 (p :: ids))); auto.
    destruct (select_existing_groups layoutId (p :: ids) d) as [|g gs].
    + now rewrite Hlast.
    + destruct (negb (binds 1 (g :: gs))); auto.
      destruct (0 <? count_reserved layoutId (g :: gs) d)%nat; auto.
      destruct (negb (binds 2 (g :: gs))).
      * simpl snd. now rewrite set_group_of_tables_keys.
      * rewrite Hlast. unfold delete_emptied_groups.
        now rewrite delete_groups_keys, set_group_of_tables_keys.
  - unfold post_ungroup. destruct groupId as [q|]; auto.
    destruct (select_layout date d) as [layoutId|]; auto.
    destruct (existsb _ (reservations d)); auto. simpl snd.
    now rewrite delete_groups_keys, clear_group_keys.
Qed.

(** From a store that has the three properties (an instance that
    [ensureLayoutInstance] has just created has them: it has no group)
    and the primary key of [table_state],
    every store that a sequence of aimed group calls and of ungroup
    calls goes through has them too, and so has no empty group. *)
Lemma aimed_calls_keep_groups_inhabited (calls : list call) :
  forall d, grouping_ok d -> state_key d -> all_aimed calls d ->
    Forall (fun d' => grouping_ok d' /\ no_empty_group d' = true) (trace calls d).
Proof.
  induction calls as [|c calls IH]; intros d Hok Hkey Haim; simpl; [constructor|].
  destruct Haim as [Hc Hrest].
  assert (Hnext : grouping_ok (perform c d)).
  { destruct c as [date ids|date g]; simpl.
    - now apply post_group_ok.
    - now apply post_ungroup_ok. }
  pose proof (perform_keeps_state_key c d Hkey) as Hkey'.
  constructor; [|now apply IH].
  split; [exact Hnext|]. apply groups_have_members_no_empty_group. apply Hnext.
Qed.

Lemma fresh_instance_grouping_ok (d : db) :
  table_groups d = [] ->
  (forall r, In r (table_state d) -> TableState.groupId r = None) ->
  grouping_ok d.
Proof.
  intros Hg Hr. split; [|split].
  - unfold group_key. rewrite Hg. constructor.
  - intros r g Hin Hsome. rewrite (Hr r Hin) in Hsome. discriminate.
  - intros grp Hin. rewrite Hg in Hin. contradiction.
Qed.

Example aimed_calls_on_the_floor :
  Forall (fun d' => grouping_ok d' /\ no_empty_group d' = true)
    (trace [Group day (Some [Some 1; Some 2]); Group day (Some [Some 2; Some 3]);
            Ungroup day (Some (1 # 1)); Group day (Some [Some 1])] opened).
Proof.
  apply aimed_calls_keep_groups_inhabited.
  - apply fresh_instance_grouping_ok; [reflexivity|].
    intros r Hr. simpl in Hr. destruct Hr as [<-|[<-|[<-|[]]]]; reflexivity.
  - unfold state_key. simpl. repeat constructor; simpl; intuition congruence.
  - simpl. repeat split; try (unfold SQLITE_MAX_VARIABLE_NUMBER; lia);
      intros layoutId Hl; injection Hl as <-.
    + exists (TableState.mk 1 1 40 40 None). simpl. auto.
    + exists (TableState.mk 1 2 160 40 (Some 1)). simpl. auto.
    + exists (TableState.mk 1 1 40 40 None). simpl. auto.
Qed.

(** * The handlers together *)

(** ** What each handler can leave behind *)

Lemma update_rows_ext (cond : TableState.row -> bool)
    (f g : TableState.row -> option TableState.row) (rows : list TableState.row) :
  (forall r, f r = g r) -> update_rows cond f rows = update_rows cond g rows.
Proof.
  intros Hfg. induction rows as [|r rows IH]; simpl; [reflexivity|].
  now rewrite IH, Hfg.
Qed.

Lemma update_rows_Forall2 (cond : TableState.row -> bool)
    (f : TableState.row -> option TableState.row)
    (R : TableState.row -> TableState.row -> Prop) :
  (forall r r', cond r = true -> f r = Some r' -> R r r') ->
  (forall r, cond r = false -> R r r) ->
  forall rows rows', update_rows cond f rows = Some rows' -> Forall2 R rows rows'.
Proof.
  intros Hf Hid. induction rows as [|r rows IH]; simpl; intros rows' H.
  - injection H as <-. constructor.
  - destruct (cond r) eqn:Hc.
    + destruct (f r) as [r1|] eqn:Hr; [|discriminate].
      destruct (update_rows cond f rows) as [rest|]; [|discriminate].
      injection H as <-. constructor; [now apply Hf|now apply IH].
    + destruct (update_rows cond f rows) as [rest|]; [|discriminate].
      injection H as <-. constructor; [now apply Hid|now apply IH].
Qed.

Lemma Forall2_map_same {A : Type} (R : A -> A -> Prop) (f : A -> A) (l : list A) :
  (forall a, R a (f a)) -> Forall2 R l (map f l).
Proof. intros H. induction l; simpl; constructor; auto. Qed.

Lemma Forall2_In_r {A : Type} (R : A -> A -> Prop) (l l' : list A) (b : A) :
  Forall2 R l l' -> In b l' -> exists a, In a l /\ R a b.
Proof.
  induction 1 as [|a b' l l' Hab _ IH]; simpl; [tauto|].
  intros [<-|Hin]; [exists a; auto|].
  destruct (IH Hin) as [a' [Ha' HR]]. exists a'. auto.
Qed.

Lemma Forall2_In_l {A : Type} (R : A -> A -> Prop) (l l' : list A) (a : A) :
  Forall2 R l l' -> In a l -> exists b, In b l' /\ R a b.
Proof.
  induction 1 as [|a' b l l' Hab _ IH]; simpl; [tauto|].
  intros [<-|Hin]; [exists b; auto|].
  destruct (IH Hin) as [b' [Hb' HR]]. exists b'. auto.
Qed.

Lemma Forall2_map_eq {A B : Type} (R : A -> A -> Prop) (f : A -> B) (l l' : list A) :
  (forall a b, R a b -> f b = f a) -> Forall2 R l l' -> map f l' = map f l.
Proof.
  intros H. induction 1 as [|a b l l' Hab _ IH]; simpl; [reflexivity|].
  now rewrite IH, (H a b Hab).
Qed.

Lemma assign_all_updated (d : db) (b : PutTable.body) (r : TableState.row) :
  assign_all d (assignments b) r = updated b d r.
Proof.
  unfold assignments, updated.
  destruct (PutTable.x b) as [qx|], (PutTable.y b) as [qy|],
    (PutTable.groupId b) as [| |q]; simpl;
    try destruct (references_group q d) as [k|]; simpl;
    try reflexivity; now destruct r.
Qed.

(** A position update leaves the store as it was, or answers ok and
    leaves the rows that [updated] makes of the rows it names. *)
Lemma put_table_outcome (date : string) (tableId : option Z) (b : PutTable.body) (d : db) :
  (snd (put_table date tableId b d) = d /\ fst (put_table date tableId b d) <> Json tt
   \/ exists layoutId rows,
        select_layout date d = Some layoutId
        /\ assignments b <> []
        /\ update_rows (named_by layoutId tableId) (updated b d) (table_state d) = Some rows
        /\ put_table date tableId b d = (Json tt, set_table_state rows d)).
Proof.
  unfold put_table. destruct (select_layout date d) as [layoutId|];
    [|left; split; [reflexivity|discriminate]].
  destruct (assignments b) as [|a l] eqn:Ha;
    [left; split; [reflexivity|discriminate]|].
  cbn [List.length Nat.eqb]. rewrite <- Ha.
  rewrite (update_rows_ext _ _ (updated b d)) by (intros; apply assign_all_updated).
  change (fun r => (TableState.layoutInstanceId r =? layoutId)
                   && param_eqb tableId (TableState.tableId r))
    with (named_by layoutId tableId).
  destruct (update_rows (named_by layoutId tableId) (updated b d) (table_state d))
    as [rows|] eqn:Hu.
  - right. exists layoutId, rows. repeat split; auto. congruence.
  - left. split; [reflexivity|discriminate].
Qed.

(** A group call leaves the store as it was, or fails on its DELETE
    with the named tables freed, or goes on to create its group, in the
    store itself (no named table was grouped) or in the store with the
    named tables freed and the emptied groups deleted. *)
Lemma post_group_outcome (date : string) (tableIds : option (list (option Z))) (d : db) :
  (snd (post_group date tableIds d) = d
   /\ forall g, fst (post_group date tableIds d) <> Json g)
  \/ (exists layoutId ids,
        tableIds = Some ids
        /\ select_layout date d = Some layoutId
        /\ post_group date tableIds d
           = (ServerError, set_group_of_tables None layoutId ids d))
  \/ exists layoutId ids d0,
       tableIds = Some ids /\ ids <> []
       /\ select_layout date d = Some layoutId
       /\ post_group date tableIds d = create_group layoutId ids d0
       /\ ((select_existing_groups layoutId ids d = [] /\ d0 = d)
           \/ (select_existing_groups layoutId ids d <> []
               /\ count_reserved layoutId (select_existing_groups layoutId ids d) d = 0%nat
               /\ d0 = delete_emptied_groups layoutId
                         (select_existing_groups layoutId ids d)
                         (set_group_of_tables None layoutId ids d))).
Proof.
  unfold post_group.
  destruct tableIds as [[|p ids]|]; try (left; split; [reflexivity|discriminate]).
  destruct (select_layout date d) as [layoutId|];
    [|left; split; [reflexivity|discriminate]].
  destruct (negb (binds 1 (p :: ids))); [left; split; [reflexivity|discriminate]|].
  destruct (select_existing_groups layoutId (p :: ids) d) as [|g gs] eqn:Hex.
  - right. right. exists layoutId, (p :: ids), d.
    split; [reflexivity|]. split; [discriminate|]. split; [reflexivity|].
    split; [reflexivity|]. left. split; [exact Hex|reflexivity].
  - destruct (negb (binds 1 (g :: gs))); [left; split; [reflexivity|discriminate]|].
    destruct (count_reserved layoutId (g :: gs) d) as [|n] eqn:Hc.
    + cbn [Nat.ltb Nat.leb]. destruct (negb (binds 2 (g :: gs))).
      * right. left. exists layoutId, (p :: ids). auto.
      * right. right. exists layoutId, (p :: ids),
          (delete_emptied_groups layoutId (g :: gs)
             (set_group_of_tables None layoutId (p :: ids) d)).
        split; [reflexivity|]. split; [discriminate|]. split; [reflexivity|].
        split; [reflexivity|]. right. rewrite Hex.
        split; [discriminate|]. split; [exact Hc|reflexivity].
    + left. split; [reflexivity|discriminate].
Qed.

(** The creation of the group answers its id, or fails on its UPDATE
    with the group row inserted. *)
Lemma create_group_outcome (layoutId : Z) (ids : list (option Z)) (d : db) :
  create_group layoutId ids d
  = (if binds 2 ids
     then (Json (fst (insert_table_group layoutId d)),
           set_group_of_tables (Some (fst (insert_table_group layoutId d))) layoutId ids
             (snd (insert_table_group layoutId d)))
     else (ServerError, snd (insert_table_group layoutId d))).
Proof. unfold create_group. now destruct (insert_table_group layoutId d). Qed.

Lemma post_ungroup_outcome (date : string) (groupId : finite) (d : db) :
  (snd (post_ungroup date groupId d) = d /\ fst (post_ungroup date groupId d) <> Json tt)
  \/ exists layoutId q,
       groupId = Some q
       /\ select_layout date d = Some layoutId
       /\ existsb (fun r => (Reservations.layoutInstanceId r =? layoutId)
                            && num_eqb q (Reservations.groupId r)) (reservations d) = false
       /\ post_ungroup date groupId d
          = (Json tt,
             delete_groups
               (fun g => num_eqb q (TableGroups.id g)
                         && (TableGroups.layoutInstanceId g =? layoutId))
               (clear_group layoutId q d)).
Proof.
  unfold post_ungroup. destruct groupId as [q|];
    [|left; split; [reflexivity|discriminate]].
  destruct (select_layout date d) as [layoutId|];
    [|left; split; [reflexivity|discriminate]].
  destruct (existsb _ (reservations d)) eqn:Hr.
  - left. split; [reflexivity|discriminate].
  - right. exists layoutId, q. auto.
Qed.

(** ** The statements keep the schema *)

Lemma select_layout_In (date : string) (d : db) (layoutId : Z) :
  select_layout date d = Some layoutId ->
  In layoutId (map LayoutInstances.id (layout_instances d)).
Proof.
  unfold select_layout. destruct (find _ (layout_instances d)) as [i|] eqn:Hf;
    [|discriminate].
  simpl. intros H. injection H as <-. apply find_some in Hf as [Hin _].
  now apply in_map.
Qed.

Lemma references_group_In (q : Q) (d : db) (g : Z) :
  references_group q d = Some g -> In g (map TableGroups.id (table_groups d)).
Proof.
  unfold references_group. destruct (integer_of q) as [k|]; [|discriminate].
  destruct (existsb _ (table_groups d)) eqn:He; [|discriminate].
  intros H. injection H as <-. apply existsb_exists in He as [grp [Hin Heq]].
  apply Z.eqb_eq in Heq. subst k. now apply in_map.
Qed.

Lemma schema_set_table_state (d : db) (rows : list TableState.row) :
  schema_ok d -> Forall2 (rewritten d) (table_state d) rows ->
  schema_ok (set_table_state rows d).
Proof.
  intros H Hrows. destruct H. constructor; simpl; auto.
  - unfold state_key. simpl.
    rewrite (Forall2_map_eq (rewritten d) _ (table_state d) rows); [assumption| |exact Hrows].
    intros a b [Hl [Ht _]]. now rewrite Hl, Ht.
  - intros r' Hr'. destruct (Forall2_In_r _ _ _ _ Hrows Hr') as [r [Hr [Hl _]]].
    simpl. rewrite Hl. now apply ok_state_instance0.
  - intros r' Hr'. destruct (Forall2_In_r _ _ _ _ Hrows Hr') as [r [Hr [_ [Ht _]]]].
    rewrite Ht. now apply ok_state_table0.
  - intros r' g Hr' Hg.
    destruct (Forall2_In_r _ _ _ _ Hrows Hr') as [r [Hr [_ [_ [Hsame|[Hnone|[k [Hk Hin]]]]]]]].
    + apply (ok_state_group0 r g Hr). congruence.
    + congruence.
    + congruence.
Qed.

Lemma schema_delete_groups (doomed : TableGroups.row -> bool) (d : db) :
  schema_ok d -> schema_ok (delete_groups doomed d).
Proof.
  intros H.
  assert (Hsurvivor : forall g, In g (map TableGroups.id (table_groups d)) ->
            (forall g0, In g0 (table_groups d) -> doomed g0 = true -> TableGroups.id g0 <> g) ->
            In g (map TableGroups.id (filter (fun g => negb (doomed g)) (table_groups d)))).
  { intros g Hg Hfree. apply in_map_iff in Hg as [grp [Hid Hgrp]].
    apply in_map_iff. exists grp. split; [exact Hid|]. apply filter_In.
    split; [exact Hgrp|]. destruct (doomed grp) eqn:Hd; [|reflexivity].
    elim (Hfree grp Hgrp Hd Hid). }
  destruct H. constructor; auto.
  - unfold group_key, delete_groups. simpl. now apply delete_keeps_key.
  - now apply delete_groups_sequence.
  - intros g Hg. unfold delete_groups in Hg. simpl in Hg.
    apply filter_In in Hg as [Hg _]. now apply ok_group_instance0.
  - unfold state_key. now rewrite delete_groups_keys.
  - intros r' Hr'. destruct (delete_groups_row_origin doomed d r' Hr') as [r [Hr [Hl _]]].
    change (layout_instances (delete_groups doomed d)) with (layout_instances d).
    rewrite Hl. now apply ok_state_instance0.
  - intros r' Hr'. destruct (delete_groups_row_origin doomed d r' Hr') as [r [Hr [_ [Ht _]]]].
    change (tables (delete_groups doomed d)) with (tables d).
    rewrite Ht. now apply ok_state_table0.
  - intros r' g Hr' Hg.
    destruct (delete_groups_row_origin doomed d r' Hr') as [r [Hr [_ [_ Hgr]]]].
    destruct (Hgr g Hg) as [Hrg Hfree].
    apply Hsurvivor; [now apply (ok_state_group0 r)|exact Hfree].
  - unfold delete_groups. simpl. now apply delete_keeps_key.
  - intros r Hr. unfold delete_groups in Hr. simpl in Hr.
    apply filter_In in Hr as [Hr _]. now apply ok_reservation_seq0.
  - intros r Hr. unfold delete_groups in Hr. simpl in Hr.
    apply filter_In in Hr as [Hr _]. now apply ok_reservation_instance0.
  - intros r Hr. unfold delete_groups in Hr. simpl in Hr.
    apply filter_In in Hr as [Hr Hkept]. apply negb_true_iff in Hkept.
    apply Hsurvivor; [now apply ok_reservation_group0|].
    intros g0 Hg0 Hd0 Hid.
    assert (Hgone : mem (Reservations.groupId r)
                      (map TableGroups.id (filter doomed (table_groups d))) = true).
    { apply mem_gone. exists g0. auto. }
    congruence.
Qed.

Lemma schema_insert_table_group (layoutId : Z) (d : db) :
  schema_ok d -> In layoutId (map LayoutInstances.id (layout_instances d)) ->
  schema_ok (snd (insert_table_group layoutId d)).
Proof.
  intros H HL. destruct H. unfold insert_table_group. simpl snd.
  constructor; simpl; auto.
  - unfold group_key. simpl. rewrite map_app. apply NoDup_app; [assumption| |].
    + simpl. constructor; [tauto|constructor].
    + intros a Ha [<-|[]]. now apply (autoincrement_fresh (table_groups_seq d)) in Ha.
  - intros g Hg. simpl in Hg. simpl. apply in_app_or in Hg as [Hg|[<-|[]]].
    + specialize (ok_group_seq0 g Hg). unfold autoincrement. lia.
    + simpl. lia.
  - intros g Hg. apply in_app_or in Hg as [Hg|[<-|[]]]; [now apply ok_group_instance0|exact HL].
  - intros r g Hr Hg. rewrite map_app. apply in_or_app. left. now apply (ok_state_group0 r).
  - intros r Hr. rewrite map_app. apply in_or_app. left. now apply ok_reservation_group0.
Qed.

Lemma schema_set_reservations_filter (p : Reservations.row -> bool) (d : db) :
  schema_ok d -> schema_ok (set_reservations (filter p (reservations d)) d).
Proof.
  intros H. destruct H. constructor; simpl; auto.
  - now apply delete_keeps_key.
  - intros r Hr. apply filter_In in Hr as [Hr _]. now apply ok_reservation_seq0.
  - intros r Hr. apply filter_In in Hr as [Hr _]. now apply ok_reservation_instance0.
  - intros r Hr. apply filter_In in Hr as [Hr _]. now apply ok_reservation_group0.
Qed.

Lemma update_reservation_binding (time name : string) (partySize : Q)
    (notes : option string) (now : string) (q : Q) (d : db) :
  map binding (reservations (update_reservation time name partySize notes now q d))
  = map binding (reservations d).
Proof.
  unfold update_reservation. simpl. rewrite map_map. apply map_ext. intros r.
  destruct (num_eqb q (Reservations.id r)); reflexivity.
Qed.

Lemma schema_update_reservation (time name : string) (partySize : Q)
    (notes : option string) (now : string) (q : Q) (d : db) :
  schema_ok d -> schema_ok (update_reservation time name partySize notes now q d).
Proof.
  intros H.
  assert (Horigin : forall r', In r' (reservations
                       (update_reservation time name partySize notes now q d)) ->
            exists r, In r (reservations d) /\ binding r' = binding r).
  { unfold update_reservation. simpl. intros r' Hr'.
    apply in_map_iff in Hr' as [r [<- Hr]]. exists r. split; [exact Hr|].
    destruct (num_eqb q (Reservations.id r)); reflexivity. }
  destruct H. constructor; auto.
  - change (NoDup (map Reservations.id
              (reservations (update_reservation time name partySize notes now q d)))).
    replace (map Reservations.id
               (reservations (update_reservation time name partySize notes now q d)))
      with (map Reservations.id (reservations d)); [assumption|].
    unfold update_reservation. simpl. rewrite map_map. apply map_ext. intros r.
    destruct (num_eqb q (Reservations.id r)); reflexivity.
  - intros r' Hr'. destruct (Horigin r' Hr') as [r [Hr Hb]].
    unfold binding in Hb. injection Hb as Hid _ _ _.
    change (reservations_seq (update_reservation time name partySize notes now q d))
      with (reservations_seq d). rewrite Hid. now apply ok_reservation_seq0.
  - intros r' Hr'. destruct (Horigin r' Hr') as [r [Hr Hb]].
    unfold binding in Hb. injection Hb as _ Hl _ _.
    change (layout_instances (update_reservation time name partySize notes now q d))
      with (layout_instances d). rewrite Hl. now apply ok_reservation_instance0.
  - intros r' Hr'. destruct (Horigin r' Hr') as [r [Hr Hb]].
    unfold binding in Hb. injection Hb as _ _ Hg _.
    change (table_groups (update_reservation time name partySize notes now q d))
      with (table_groups d). rewrite Hg. now apply ok_reservation_group0.
Qed.

Lemma schema_insert_reservation (layoutId : Z) (groupId : Q) (time name : string)
    (partySize : Q) (notes : option string) (now : string) (d d' : db) (lastID : Z) :
  schema_ok d -> In layoutId (map LayoutInstances.id (layout_instances d)) ->
  insert_reservation layoutId groupId time name partySize notes now d = Some (lastID, d') ->
  schema_ok d'.
Proof.
  intros H HL. unfold insert_reservation.
  destruct (references_group groupId d) as [g|] eqn:Hg; [|discriminate].
  intros Heq. injection Heq as _ <-. apply references_group_In in Hg.
  destruct H. constructor; simpl; auto.
  - rewrite map_app. apply NoDup_app; [assumption| |].
    + simpl. constructor; [tauto|constructor].
    + intros a Ha [<-|[]]. now apply (autoincrement_fresh (reservations_seq d)) in Ha.
  - intros r Hr. apply in_app_or in Hr as [Hr|[<-|[]]].
    + specialize (ok_reservation_seq0 r Hr). unfold autoincrement. lia.
    + simpl. lia.
  - intros r Hr. apply in_app_or in Hr as [Hr|[<-|[]]];
      [now apply ok_reservation_instance0|exact HL].
  - intros r Hr. apply in_app_or in Hr as [Hr|[<-|[]]];
      [now apply ok_reservation_group0|exact Hg].
Qed.

Lemma ensureLayoutInstance_new_store (date : string) (d : db) :
  select_layout date d = None ->
  catalog_key d ->
  states_reference_instances d ->
  let layoutId := autoincrement (layout_instances_seq d)
                    (map LayoutInstances.id (layout_instances d)) in
  ensureLayoutInstance date d
  = (Some (mk_ensured layoutId false),
     set_table_state (table_state d ++ map (default_state layoutId) (tables d))
       (snd (insert_layout_instance date d))).
Proof.
  intros Hnew Hkey Hfk layoutId.
  unfold ensureLayoutInstance. rewrite Hnew.
  change (insert_layout_instance date d)
    with (layoutId, snd (insert_layout_instance date d)).
  cbv iota beta. unfold insert_default_states. simpl.
  rewrite insert_default_rows; [reflexivity|exact Hkey|].
  intros r Hr Heq. exfalso.
  apply (autoincrement_fresh (layout_instances_seq d)
           (map LayoutInstances.id (layout_instances d))).
  fold layoutId. rewrite <- Heq. now apply Hfk.
Qed.

Lemma select_layout_none_date (date : string) (d : db) :
  select_layout date d = None ->
  ~ In date (map LayoutInstances.date (layout_instances d)).
Proof.
  intros Hnone Hin. apply select_layout_none in Hnone.
  apply in_map_iff in Hin as [i [Hd Hi]].
  apply (find_none _ _ Hnone) in Hi. rewrite Hd, String.eqb_refl in Hi. discriminate.
Qed.

Lemma default_state_keys (layoutId : Z) (ts : list Tables.row) :
  NoDup (map Tables.id ts) ->
  NoDup (map (fun r => (TableState.layoutInstanceId r, TableState.tableId r))
           (map (default_state layoutId) ts)).
Proof.
  induction ts as [|t ts IH]; simpl; intros Hnd; [constructor|].
  inversion Hnd as [|? ? Hnotin Hnd']; subst. constructor; [|now apply IH].
  intros Hin. apply Hnotin. apply in_map_iff in Hin as [r [Hk Hr]].
  apply in_map_iff in Hr as [u [<- Hu]]. simpl in Hk. injection Hk as Hk.
  rewrite <- Hk. now apply in_map.
Qed.

Lemma schema_post_init (date : string) (d : db) :
  schema_ok d -> schema_ok (snd (post_init date d)).
Proof.
  intros H. unfold post_init.
  destruct (select_layout date d) as [rowId|] eqn:Hsel.
  - unfold ensureLayoutInstance. rewrite Hsel. exact H.
  - rewrite (ensureLayoutInstance_new_store date d Hsel (ok_catalog d H)
               (ok_state_instance d H)).
    simpl snd.
    set (layoutId := autoincrement (layout_instances_seq d)
                       (map LayoutInstances.id (layout_instances d))).
    assert (Hfresh : ~ In layoutId (map LayoutInstances.id (layout_instances d)))
      by apply autoincrement_fresh.
    destruct H. constructor; simpl; auto.
    + rewrite map_app. apply NoDup_app; [assumption| |].
      * simpl. constructor; [tauto|constructor].
      * intros a Ha [<-|[]]. contradiction.
    + rewrite map_app. apply NoDup_app; [assumption| |].
      * simpl. constructor; [tauto|constructor].
      * intros a Ha [<-|[]]. now apply (select_layout_none_date date d).
    + intros i Hi. apply in_app_or in Hi as [Hi|[<-|[]]].
      * specialize (ok_instance_seq0 i Hi). fold layoutId. unfold layoutId, autoincrement. lia.
      * simpl. lia.
    + intros g Hg. rewrite map_app. apply in_or_app. left. now apply ok_group_instance0.
    + unfold state_key. simpl. rewrite map_app. apply NoDup_app.
      * exact ok_states0.
      * now apply default_state_keys.
      * intros k Hk Hk'. apply in_map_iff in Hk as [r [<- Hr]].
        apply in_map_iff in Hk' as [r' [Heq Hr']].
        apply in_map_iff in Hr' as [t [<- _]]. simpl in Heq. injection Heq as Hl _.
        apply Hfresh. rewrite Hl. now apply ok_state_instance0.
    + intros r Hr. simpl. rewrite map_app. apply in_or_app.
      apply in_app_or in Hr as [Hr|Hr].
      * left. now apply ok_state_instance0.
      * right. apply in_map_iff in Hr as [t [<- _]]. simpl. now left.
    + intros r Hr. apply in_app_or in Hr as [Hr|Hr]; [now apply ok_state_table0|].
      apply in_map_iff in Hr as [t [<- Ht]]. simpl. now apply in_map.
    + intros r g Hr Hg. apply in_app_or in Hr as [Hr|Hr]; [now apply (ok_state_group0 r)|].
      apply in_map_iff in Hr as [t [<- _]]. discriminate.
    + intros r Hr. rewrite map_app. apply in_or_app. left.
      now apply ok_reservation_instance0.
Qed.

Lemma rewritten_refl (d : db) (r : TableState.row) : rewritten d r r.
Proof. unfold rewritten. auto. Qed.

Lemma updated_rewritten (b : PutTable.body) (d : db) (r r' : TableState.row) :
  updated b d r = Some r' -> rewritten d r r'.
Proof.
  unfold updated, rewritten.
  destruct (PutTable.groupId b) as [| |q]; simpl.
  - intros H. injection H as <-. simpl. auto.
  - intros H. injection H as <-. simpl. auto.
  - destruct (references_group q d) as [k|] eqn:Hk; simpl; [|discriminate].
    intros H. injection H as <-. simpl. repeat split. right. right.
    exists k. split; [reflexivity|]. now apply references_group_In in Hk.
Qed.

Lemma schema_set_group_of_tables (v : option Z) (layoutId : Z) (ids : list (option Z)) (d : db) :
  schema_ok d ->
  (forall g, v = Some g -> In g (map TableGroups.id (table_groups d))) ->
  schema_ok (set_group_of_tables v layoutId ids d).
Proof.
  intros H Hv. unfold set_group_of_tables. apply schema_set_table_state; [exact H|].
  apply Forall2_map_same. intros r.
  destruct ((TableState.layoutInstanceId r =? layoutId)
            && param_in ids (TableState.tableId r)); [|apply rewritten_refl].
  unfold rewritten. simpl. repeat split.
  destruct v as [g|]; [|auto]. right. right. exists g. auto.
Qed.

Lemma schema_create_group (layoutId : Z) (ids : list (option Z)) (d : db) :
  schema_ok d -> In layoutId (map LayoutInstances.id (layout_instances d)) ->
  schema_ok (snd (create_group layoutId ids d)).
Proof.
  intros H HL. unfold create_group.
  pose proof (schema_insert_table_group layoutId d H HL) as H1.
  destruct (insert_table_group layoutId d) as [g d1] eqn:Hins. simpl in H1.
  destruct (binds 2 ids); simpl snd; [|exact H1].
  apply schema_set_group_of_tables; [exact H1|].
  intros g' Hg'. injection Hg' as <-.
  unfold insert_table_group in Hins. injection Hins as <- <-. simpl.
  rewrite map_app. apply in_or_app. right. simpl. now left.
Qed.

Lemma schema_clear_group (layoutId : Z) (q : Q) (d : db) :
  schema_ok d -> schema_ok (clear_group layoutId q d).
Proof.
  intros H. unfold clear_group. apply schema_set_table_state; [exact H|].
  apply Forall2_map_same. intros r.
  destruct (TableState.groupId r) as [g|] eqn:Hg; [|apply rewritten_refl].
  destruct ((TableState.layoutInstanceId r =? layoutId) && num_eqb q g);
    [|apply rewritten_refl].
  unfold rewritten. simpl. auto.
Qed.

Lemma handle_keeps_schema (r : request) (d : db) :
  schema_ok d -> schema_ok (handle r d).
Proof.
  intros H. destruct r as [date|date tableId b|date tableIds|date groupId|now date b
                           |date reservationId]; simpl.
  - now apply schema_post_init.
  - destruct (put_table_outcome date tableId b d)
      as [[-> _]|[layoutId [rows [_ [_ [Hu ->]]]]]]; [exact H|].
    simpl. apply schema_set_table_state; [exact H|].
    apply (update_rows_Forall2 _ _ _ (fun r r' _ => updated_rewritten b d r r')
             (fun r _ => rewritten_refl d r) _ _ Hu).
  - destruct (post_group_outcome date tableIds d)
      as [[-> _]|[[layoutId [ids [_ [_ ->]]]]
                 |[layoutId [ids [d0 [_ [_ [Hl [-> Hd0]]]]]]]]]; [exact H| |].
    { simpl snd. apply schema_set_group_of_tables; [exact H|discriminate]. }
    apply select_layout_In in Hl.
    destruct Hd0 as [[_ ->]|[_ [_ ->]]].
    + now apply schema_create_group.
    + apply schema_create_group; [|exact Hl].
      unfold delete_emptied_groups. apply schema_delete_groups.
      apply schema_set_group_of_tables; [exact H|discriminate].
  - destruct (post_ungroup_outcome date groupId d)
      as [[-> _]|[layoutId [q [_ [_ [_ ->]]]]]]; [exact H|].
    simpl. apply schema_delete_groups. now apply schema_clear_group.
  - unfold post_reservation.
    destruct (negb (is_finite (ReservationForm.groupId b)) || _ || _ || _); [exact H|].
    destruct (select_layout date d) as [layoutId|] eqn:Hl; [|exact H].
    apply select_layout_In in Hl.
    destruct (ReservationForm.reservationId b) as [q|].
    + destruct (existsb _ (reservations d)); [|exact H].
      simpl. now apply schema_update_reservation.
    + destruct (insert_reservation _ _ _ _ _ _ _ d) as [[lastID d']|] eqn:Hins; [|exact H].
      simpl. now apply (schema_insert_reservation _ _ _ _ _ _ _ _ _ _ H Hl Hins).
  - unfold delete_reservation. destruct (select_layout date d); [|exact H].
    simpl. now apply schema_set_reservations_filter.
Qed.

(** X1.  Whatever requests are served, in whatever order, a store that
    satisfies the schema is left satisfying it: primary keys, the unique
    date, every foreign key and the AUTOINCREMENT counters. *)
Theorem serve_keeps_schema (requests : list request) (d : db) :
  schema_ok d -> schema_ok (serve requests d).
Proof.
  revert d. induction requests as [|r requests IH]; intros d H; simpl; [exact H|].
  apply IH. now apply handle_keeps_schema.
Qed.

Lemma serve_keeps_schema_witness :
  schema_ok
    (serve [ReqInit day; ReqGroup day (Some [Some 1; Some 2]);
            ReqReservation "2024-01-01T09:00:00.000Z" day smith;
            ReqPutTable day (Some 3) off_canvas;
            ReqDeleteReservation day (Some 1); ReqUngroup day (Some (1 # 1))] closed).
Proof.
  apply serve_keeps_schema. constructor.
  - unfold catalog_key. simpl. repeat constructor; simpl; intuition lia.
  - constructor.
  - constructor.
  - intros i [].
  - unfold group_key. constructor.
  - intros g [].
  - intros g [].
  - unfold state_key. constructor.
  - intros r [].
  - intros r [].
  - intros r g [].
  - constructor.
  - intros r [].
  - intros r [].
  - intros r [].
Defined.

(** ** Rows are never lost *)

Lemma set_group_of_tables_positions (v : option Z) (layoutId : Z) (ids : list (option Z))
    (d : db) :
  map position (table_state (set_group_of_tables v layoutId ids d))
  = map position (table_state d).
Proof.
  unfold set_group_of_tables. simpl. rewrite map_map. apply map_ext. intros r.
  destruct ((TableState.layoutInstanceId r =? layoutId)
            && param_in ids (TableState.tableId r)); reflexivity.
Qed.

Lemma delete_groups_positions (doomed : TableGroups.row -> bool) (d : db) :
  map position (table_state (delete_groups doomed d)) = map position (table_state d).
Proof.
  unfold delete_groups. simpl. rewrite map_map. apply map_ext. intros r.
  destruct (TableState.groupId r) as [g|]; [|reflexivity].
  destruct (mem g _); reflexivity.
Qed.

Lemma clear_group_positions (layoutId : Z) (q : Q) (d : db) :
  map position (table_state (clear_group layoutId q d)) = map position (table_state d).
Proof.
  unfold clear_group. simpl. rewrite map_map. apply map_ext. intros r.
  destruct (TableState.groupId r) as [g|]; [|reflexivity].
  destruct ((TableState.layoutInstanceId r =? layoutId) && num_eqb q g); reflexivity.
Qed.

Lemma create_group_positions (layoutId : Z) (ids : list (option Z)) (d : db) :
  map position (table_state (snd (create_group layoutId ids d)))
  = map position (table_state d).
Proof.
  unfold create_group, insert_table_group.
  destruct (binds 2 ids); simpl snd; [|reflexivity].
  now rewrite set_group_of_tables_positions.
Qed.

Lemma post_group_positions (date : string) (tableIds : option (list (option Z))) (d : db) :
  map position (table_state (snd (post_group date tableIds d)))
  = map position (table_state d)
  /\ tables (snd (post_group date tableIds d)) = tables d
  /\ layout_instances (snd (post_group date tableIds d)) = layout_instances d.
Proof.
  assert (Hlast : forall layoutId ids d0,
            tables (snd (create_group layoutId ids d0)) = tables d0
            /\ layout_instances (snd (create_group layoutId ids d0)) = layout_instances d0).
  { intros layoutId ids d0. unfold create_group, insert_table_group.
    destruct (binds 2 ids); auto. }
  destruct (post_group_outcome date tableIds d)
    as [[-> _]|[[layoutId [ids [_ [_ ->]]]]
               |[layoutId [ids [d0 [_ [_ [_ [-> Hd0]]]]]]]]]; [auto| |].
  { simpl snd. now rewrite set_group_of_tables_positions. }
  rewrite create_group_positions.
  destruct (Hlast layoutId ids d0) as [-> ->].
  destruct Hd0 as [[_ ->]|[_ [_ ->]]]; [auto|].
  unfold delete_emptied_groups.
  now rewrite delete_groups_positions, set_group_of_tables_positions.
Qed.

Lemma post_ungroup_positions (date : string) (groupId : finite) (d : db) :
  map position (table_state (snd (post_ungroup date groupId d)))
  = map position (table_state d)
  /\ tables (snd (post_ungroup date groupId d)) = tables d
  /\ layout_instances (snd (post_ungroup date groupId d)) = layout_instances d.
Proof.
  destruct (post_ungroup_outcome date groupId d)
    as [[-> _]|[layoutId [q [_ [_ [_ ->]]]]]]; [auto|].
  simpl snd. now rewrite delete_groups_positions, clear_group_positions.
Qed.

Lemma post_reservation_states (now date : string) (b : ReservationForm.body) (d : db) :
  table_state (snd (post_reservation now date b d)) = table_state d
  /\ tables (snd (post_reservation now date b d)) = tables d
  /\ layout_instances (snd (post_reservation now date b d)) = layout_instances d
  /\ table_groups (snd (post_reservation now date b d)) = table_groups d.
Proof.
  unfold post_reservation.
  destruct (negb (is_finite (ReservationForm.groupId b)) || _ || _ || _); [auto|].
  destruct (select_layout date d) as [layoutId|]; [|auto].
  destruct (ReservationForm.reservationId b) as [q|].
  - destruct (existsb _ (reservations d)); auto.
  - unfold insert_reservation.
    destruct (references_group _ d); simpl; auto.
Qed.

Lemma delete_reservation_states (date : string) (reservationId : option Z) (d : db) :
  table_state (snd (delete_reservation date reservationId d)) = table_state d
  /\ tables (snd (delete_reservation date reservationId d)) = tables d
  /\ layout_instances (snd (delete_reservation date reservationId d)) = layout_instances d
  /\ table_groups (snd (delete_reservation date reservationId d)) = table_groups d.
Proof.
  unfold delete_reservation. destruct (select_layout date d); simpl; auto.
Qed.

Lemma put_table_keys (date : string) (tableId : option Z) (b : PutTable.body) (d : db) :
  map (fun r => (TableState.layoutInstanceId r, TableState.tableId r))
    (table_state (snd (put_table date tableId b d)))
  = map (fun r => (TableState.layoutInstanceId r, TableState.tableId r)) (table_state d)
  /\ tables (snd (put_table date tableId b d)) = tables d
  /\ layout_instances (snd (put_table date tableId b d)) = layout_instances d
  /\ table_groups (snd (put_table date tableId b d)) = table_groups d
  /\ reservations (snd (put_table date tableId b d)) = reservations d.
Proof.
  destruct (put_table_outcome date tableId b d)
    as [[-> _]|[layoutId [rows [_ [_ [Hu ->]]]]]]; [auto|].
  simpl. repeat split.
  apply (Forall2_map_eq (rewritten d)).
  - intros a c [Hl [Ht _]]. now rewrite Hl, Ht.
  - apply (update_rows_Forall2 _ _ _ (fun r r' _ => updated_rewritten b d r r')
             (fun r _ => rewritten_refl d r) _ _ Hu).
Qed.

Lemma post_init_appends (date : string) (d : db) :
  tables (snd (post_init date d)) = tables d
  /\ exists instances rows,
       layout_instances (snd (post_init date d)) = layout_instances d ++ instances
       /\ table_state (snd (post_init date d)) = table_state d ++ rows.
Proof.
  unfold post_init, ensureLayoutInstance.
  destruct (select_layout date d).
  - simpl. split; [reflexivity|]. exists [], []. now rewrite !app_nil_r.
  - unfold insert_layout_instance, insert_default_states. simpl.
    destruct (insert_rows _ (table_state d)) as [rows|] eqn:Hins; simpl.
    + split; [reflexivity|].
      assert (Happ : forall new old rows0,
                insert_rows new old = Some rows0 -> rows0 = old ++ new).
      { induction new as [|r new IH]; simpl; intros old rows0 H0.
        - injection H0 as <-. now rewrite app_nil_r.
        - destruct (existsb (same_key r) old); [discriminate|].
          apply IH in H0. now rewrite <- app_assoc in H0. }
      apply Happ in Hins. subst rows.
      eexists. eexists. split; reflexivity.
    + split; [reflexivity|].
      eexists. exists []. split; [reflexivity|now rewrite app_nil_r].
Qed.

Lemma handle_rows (r : request) (d : db) :
  tables (handle r d) = tables d
  /\ match r with
     | ReqInit _ =>
         exists instances rows,
           layout_instances (handle r d) = layout_instances d ++ instances
           /\ table_state (handle r d) = table_state d ++ rows
     | ReqPutTable _ _ _ =>
         layout_instances (handle r d) = layout_instances d
         /\ map (fun s => (TableState.layoutInstanceId s, TableState.tableId s))
              (table_state (handle r d))
            = map (fun s => (TableState.layoutInstanceId s, TableState.tableId s))
                (table_state d)
     | _ =>
         layout_instances (handle r d) = layout_instances d
         /\ map position (table_state (handle r d)) = map position (table_state d)
     end.
Proof.
  destruct r as [date|date tableId b|date tableIds|date groupId|now date b
                 |date reservationId]; simpl.
  - apply post_init_appends.
  - destruct (put_table_keys date tableId b d) as [Hk [Ht [Hi _]]]. auto.
  - destruct (post_group_positions date tableIds d) as [Hp [Ht Hi]]. auto.
  - destruct (post_ungroup_positions date groupId d) as [Hp [Ht Hi]]. auto.
  - destruct (post_reservation_states now date b d) as [Hs [Ht [Hi _]]].
    rewrite Hs. auto.
  - destruct (delete_reservation_states date reservationId d) as [Hs [Ht [Hi _]]].
    rewrite Hs. auto.
Qed.

(** X2.  No request touches the catalog.  Only the init request adds to
    [layout_instances] and to [table_state], and it only appends; a
    position update keeps the list of keys of [table_state] as it is;
    every other request keeps, row by row, the key and the coordinates
    of every table. *)
Theorem requests_keep_rows (r : request) (d : db) :
  tables (handle r d) = tables d
  /\ match r with
     | ReqInit _ =>
         exists instances rows,
           layout_instances (handle r d) = layout_instances d ++ instances
           /\ table_state (handle r d) = table_state d ++ rows
     | ReqPutTable _ _ _ =>
         layout_instances (handle r d) = layout_instances d
         /\ map (fun s => (TableState.layoutInstanceId s, TableState.tableId s))
              (table_state (handle r d))
            = map (fun s => (TableState.layoutInstanceId s, TableState.tableId s))
                (table_state d)
     | _ =>
         layout_instances (handle r d) = layout_instances d
         /\ map position (table_state (handle r d)) = map position (table_state d)
     end.
Proof. exact (handle_rows r d). Qed.

Lemma positions_keys (l l' : list TableState.row) :
  map position l' = map position l ->
  map (fun r => (TableState.layoutInstanceId r, TableState.tableId r)) l'
  = map (fun r => (TableState.layoutInstanceId r, TableState.tableId r)) l.
Proof.
  intros H.
  assert (Hk : forall rows,
            map (fun r => (TableState.layoutInstanceId r, TableState.tableId r)) rows
            = map (fun p : Z * Z * Z * Z => fst (fst p)) (map position rows)).
  { intros rows. rewrite map_map. apply map_ext. reflexivity. }
  now rewrite (Hk l'), (Hk l), H.
Qed.

Lemma handle_keys (r : request) (d : db) :
  (forall date, r <> ReqInit date) ->
  layout_instances (handle r d) = layout_instances d
  /\ map (fun s => (TableState.layoutInstanceId s, TableState.tableId s))
       (table_state (handle r d))
     = map (fun s => (TableState.layoutInstanceId s, TableState.tableId s)) (table_state d).
Proof.
  intros Hr. destruct (handle_rows r d) as [_ H].
  destruct r; try (destruct H as [Hi Hp]; split; [exact Hi|now apply positions_keys]).
  - elim (Hr date). reflexivity.
  - exact H.
Qed.

Lemma handle_keeps_seeded (r : request) (d : db) :
  schema_ok d -> seeded d -> seeded (handle r d).
Proof.
  intros Hok Hs.
  assert (Hframe : forall d',
            tables d' = tables d -> layout_instances d' = layout_instances d ->
            map (fun s => (TableState.layoutInstanceId s, TableState.tableId s))
              (table_state d')
            = map (fun s => (TableState.layoutInstanceId s, TableState.tableId s))
                (table_state d) ->
            seeded d').
  { intros d' Ht Hi Hk i t Hin Htin. rewrite Hi in Hin. rewrite Ht in Htin.
    destruct (Hs i t Hin Htin) as [s [Hsin [Hl Htid]]].
    assert (Hkey : In (TableState.layoutInstanceId s, TableState.tableId s)
                     (map (fun s => (TableState.layoutInstanceId s, TableState.tableId s))
                        (table_state d'))).
    { rewrite Hk. now apply (in_map (fun s => (TableState.layoutInstanceId s,
                                                 TableState.tableId s))). }
    apply in_map_iff in Hkey as [s' [Heq Hs']]. injection Heq as Hl' Ht'.
    exists s'. split; [exact Hs'|]. split; congruence. }
  destruct r as [date|date tableId b|date tableIds|date groupId|now date b
                 |date reservationId];
    try (destruct (handle_rows
                     ltac:(first [exact (ReqPutTable date tableId b)
                                 |exact (ReqGroup date tableIds)
                                 |exact (ReqUngroup date groupId)
                                 |exact (ReqReservation now date b)
                                 |exact (ReqDeleteReservation date reservationId)]) d)
           as [Ht _];
         match goal with
         | |- seeded (handle ?r d) =>
             destruct (handle_keys r d ltac:(discriminate)) as [Hi Hk]
         end;
         now apply Hframe).
  simpl. unfold post_init.
  destruct (select_layout date d) as [rowId|] eqn:Hsel.
  - unfold ensureLayoutInstance. rewrite Hsel. exact Hs.
  - rewrite (ensureLayoutInstance_new_store date d Hsel (ok_catalog d Hok)
               (ok_state_instance d Hok)).
    simpl snd. intros i t Hi Ht. simpl in Hi, Ht. simpl table_state.
    apply in_app_or in Hi as [Hi|[<-|[]]].
    + destruct (Hs i t Hi Ht) as [s [Hsin Hrest]]. exists s.
      split; [apply in_or_app; now left|exact Hrest].
    + eexists. split; [apply in_or_app; right; apply in_map; exact Ht|].
      split; reflexivity.
Qed.

Lemma only_row_of_its_key (rows : list TableState.row) (r : TableState.row) :
  NoDup (map (fun s => (TableState.layoutInstanceId s, TableState.tableId s)) rows) ->
  In r rows ->
  filter (fun s => same_key s r) rows = [r].
Proof.
  induction rows as [|a rows IH]; intros Hnd Hin; [contradiction|].
  inversion Hnd as [|? ? Hnotin Hnd']; subst. simpl.
  assert (Hrest : forall s, In s rows -> same_key s a = false).
  { intros s Hs. apply not_true_is_false. intros Hk. unfold same_key in Hk.
    apply andb_true_iff in Hk as [Hl Ht]. apply Z.eqb_eq in Hl. apply Z.eqb_eq in Ht.
    apply Hnotin. rewrite <- Hl, <- Ht.
    now apply (in_map (fun s => (TableState.layoutInstanceId s, TableState.tableId s))). }
  destruct Hin as [->|Hin].
  - unfold same_key at 1. rewrite !Z.eqb_refl. simpl. f_equal.
    now apply filter_none.
  - replace (same_key a r) with false; [now apply IH|].
    symmetry. specialize (Hrest r Hin). unfold same_key in *.
    now rewrite (Z.eqb_sym (TableState.layoutInstanceId a)),
      (Z.eqb_sym (TableState.tableId a)).
Qed.

(** X3.  From a store that satisfies the schema and in which every
    instance has a state row for every catalog table, whatever requests
    are served, every instance of the store that results has exactly one
    state row for each catalog table (invariant I6 of the specification,
    and the primary key of [table_state]). *)
Theorem serve_keeps_one_state_per_table (requests : list request) (d : db) :
  schema_ok d -> seeded d ->
  forall i t,
    In i (layout_instances (serve requests d)) ->
    In t (tables (serve requests d)) ->
    exists r,
      TableState.layoutInstanceId r = LayoutInstances.id i
      /\ TableState.tableId r = Tables.id t
      /\ filter (fun s => (TableState.layoutInstanceId s =? LayoutInstances.id i)
                          && (TableState.tableId s =? Tables.id t))
           (table_state (serve requests d)) = [r].
Proof.
  intros Hok Hs.
  assert (Hboth : schema_ok (serve requests d) /\ seeded (serve requests d)).
  { revert d Hok Hs. induction requests as [|r requests IH]; intros d Hok Hs; simpl;
      [auto|].
    apply IH; [now apply handle_keeps_schema|now apply handle_keeps_seeded]. }
  destruct Hboth as [Hok' Hs']. intros i t Hi Ht.
  destruct (Hs' i t Hi Ht) as [r [Hr [Hl Htid]]]. exists r.
  split; [exact Hl|]. split; [exact Htid|].
  rewrite <- (only_row_of_its_key _ r (ok_states _ Hok') Hr).
  apply filter_ext. intros s. unfold same_key. now rewrite Hl, Htid.
Qed.

Lemma serve_keeps_one_state_per_table_witness :
  exists r,
    TableState.layoutInstanceId r = 1
    /\ TableState.tableId r = 3
    /\ filter (fun s => (TableState.layoutInstanceId s =? 1) && (TableState.tableId s =? 3))
         (table_state
            (serve [ReqInit day; ReqGroup day (Some [Some 2; Some 3]);
                    ReqPutTable day (Some 3) off_canvas] closed)) = [r].
Proof.
  apply (serve_keeps_one_state_per_table
           [ReqInit day; ReqGroup day (Some [Some 2; Some 3]);
            ReqPutTable day (Some 3) off_canvas] closed
           ltac:(constructor;
                 [unfold catalog_key; simpl; repeat constructor; simpl; intuition lia
                 |constructor|constructor|intros ? []
                 |unfold group_key; constructor|intros ? []|intros ? []
                 |unfold state_key; constructor|intros ? []|intros ? []|intros ? ? []
                 |constructor|intros ? []|intros ? []|intros ? []])
           ltac:(intros ? ? [])
           (LayoutInstances.mk 1 day) (Tables.mk 3 "T3" 280 40 120 80 None)).
  - simpl. left. reflexivity.
  - simpl. right. right. left. reflexivity.
Defined.

(** ** When the grouping handlers refuse *)

Lemma reservation_blocks_ungroup_aux (date : string) (d : db) (layoutId : Z) (q : Q)
    (res : Reservations.row) :
  select_layout date d = Some layoutId ->
  In res (reservations d) ->
  Reservations.layoutInstanceId res = layoutId ->
  (q == inject_Z (Reservations.groupId res))%Q ->
  fst (post_ungroup date (Some q) d) = Conflict.
Proof.
  intros Hlayout Hres Hrl Hq. unfold post_ungroup. rewrite Hlayout.
  replace (existsb _ (reservations d)) with true; [reflexivity|].
  symmetry. apply existsb_exists. exists res. split; [exact Hres|].
  apply andb_true_iff. split; [now apply Z.eqb_eq|now apply num_eqb_true].
Qed.

Lemma reservation_blocks_group_aux (date : string) (d : db) (layoutId : Z)
    (ids : list (option Z)) (member : TableState.row) (res : Reservations.row) :
  state_key d ->
  1 + Z.of_nat (List.length ids) <= SQLITE_MAX_VARIABLE_NUMBER ->
  select_layout date d = Some layoutId ->
  In res (reservations d) ->
  Reservations.layoutInstanceId res = layoutId ->
  In member (table_state d) ->
  TableState.layoutInstanceId member = layoutId ->
  TableState.groupId member = Some (Reservations.groupId res) ->
  param_in ids (TableState.tableId member) = true ->
  fst (post_group date (Some ids) d) = Conflict.
Proof.
  intros Hkey Hsize Hlayout Hres Hrl Hm Hml Hmg Hin.
  pose proof (existing_groups_bound layoutId ids d Hkey) as Hbound.
  unfold post_group.
  destruct ids as [|p ids]; [discriminate|]. rewrite Hlayout.
  replace (binds 1 (p :: ids)) with true by (symmetry; now apply binds_true).
  cbn [negb].
  assert (HG : In (Reservations.groupId res)
                 (select_existing_groups layoutId (p :: ids) d)).
  { apply select_existing_groups_In. exists member. auto. }
  destruct (select_existing_groups layoutId (p :: ids) d) as [|g gs] eqn:Eg;
    [contradiction|].
  replace (binds 1 (g :: gs)) with true by (symmetry; apply binds_true; lia).
  cbn [negb].
  replace (0 <? count_reserved layoutId (g :: gs) d)%nat with true; [reflexivity|].
  symmetry. apply (inhabited_length res). unfold count_reserved.
  apply filter_In. split; [exact Hres|].
  apply andb_true_iff. split; [now apply Z.eqb_eq|now apply mem_In].
Qed.

(** X4.  Under the primary key of [table_state], the grouping handlers
    answer Conflict in one case only: an ungroup call when a reservation
    of the instance is bound to the group; a group call when its first
    SELECT can bind [tableIds] beside [layout.id] and a reservation of
    the instance is bound to the group of a state row that the call
    names. *)
Theorem conflict_only_when_reserved (date : string) (d : db) :
  state_key d ->
  (forall groupId,
      fst (post_ungroup date groupId d) = Conflict <->
      exists q layoutId res,
        groupId = Some q
        /\ select_layout date d = Some layoutId
        /\ In res (reservations d)
        /\ Reservations.layoutInstanceId res = layoutId
        /\ (q == inject_Z (Reservations.groupId res))%Q)
  /\ (forall tableIds,
        fst (post_group date tableIds d) = Conflict <->
        exists ids layoutId member res,
          tableIds = Some ids
          /\ 1 + Z.of_nat (List.length ids) <= SQLITE_MAX_VARIABLE_NUMBER
          /\ select_layout date d = Some layoutId
          /\ In member (table_state d)
          /\ TableState.layoutInstanceId member = layoutId
          /\ param_in ids (TableState.tableId member) = true
          /\ TableState.groupId member = Some (Reservations.groupId res)
          /\ In res (reservations d)
          /\ Reservations.layoutInstanceId res = layoutId).
Proof.
  intros Hkey. split.
  - intros groupId. split.
    + unfold post_ungroup. destruct groupId as [q|]; [|discriminate].
      destruct (select_layout date d) as [layoutId|]; [|discriminate].
      destruct (existsb _ (reservations d)) eqn:He; [|discriminate].
      intros _. apply existsb_exists in He as [res [Hres Hc]].
      apply andb_true_iff in Hc as [Hl Hq]. apply Z.eqb_eq in Hl.
      apply num_eqb_true in Hq. exists q, layoutId, res. auto.
    + intros [q [layoutId [res [-> [Hl [Hres [Hrl Hq]]]]]]].
      now apply (reservation_blocks_ungroup_aux date d layoutId q res).
  - intros tableIds. split.
    + assert (Hlast : forall layoutId ids d0,
                fst (create_group layoutId ids d0) <> Conflict).
      { intros layoutId ids d0. rewrite create_group_outcome.
        destruct (binds 2 ids); discriminate. }
      unfold post_group. destruct tableIds as [[|p ids]|]; try discriminate.
      destruct (select_layout date d) as [layoutId|]; [|discriminate].
      destruct (binds 1 (p :: ids)) eqn:Hsize; [|discriminate]. cbn [negb].
      apply binds_true in Hsize.
      destruct (select_existing_groups layoutId (p :: ids) d) as [|g gs] eqn:Hex;
        [intros Hc; now apply Hlast in Hc|].
      destruct (negb (binds 1 (g :: gs))); [discriminate|].
      destruct (0 <? count_reserved layoutId (g :: gs) d)%nat eqn:Hc.
      2:{ destruct (negb (binds 2 (g :: gs))); [discriminate|].
          intros Hc'. now apply Hlast in Hc'. }
      intros _. unfold count_reserved in Hc.
      destruct (filter _ (reservations d)) as [|res rest] eqn:Hf; [discriminate|].
      assert (Hres : In res (filter
                (fun r => (Reservations.layoutInstanceId r =? layoutId)
                          && mem (Reservations.groupId r) (g :: gs)) (reservations d)))
        by (rewrite Hf; now left).
      apply filter_In in Hres as [Hres Hcond].
      apply andb_true_iff in Hcond as [Hrl Hm]. apply Z.eqb_eq in Hrl.
      apply mem_In in Hm. rewrite <- Hex in Hm.
      apply select_existing_groups_In in Hm as [member [Hmem [Hml [Hp Hg]]]].
      exists (p :: ids), layoutId, member, res. auto 10.
    + intros [ids [layoutId [member [res
               [-> [Hsize [Hl [Hmem [Hml [Hp [Hg [Hres Hrl]]]]]]]]]]]].
      now apply (reservation_blocks_group_aux date d layoutId ids member res).
Qed.

Lemma conflict_only_when_reserved_witness :
  fst (post_ungroup day (Some (1 # 1)) reserved) = Conflict
  /\ fst (post_group day (Some [Some 2; Some 3]) reserved) = Conflict
  /\ fst (post_group day (Some [Some 3]) reserved) <> Conflict.
Proof.
  destruct (conflict_only_when_reserved day reserved) as [Hungroup Hgroup].
  - unfold state_key. simpl. repeat constructor; simpl; intuition congruence.
  - split; [|split].
    + apply Hungroup.
      exists (1 # 1)%Q, 1,
        (Reservations.mk 1 1 1 "18:30" "Smith" (4 # 1) None
           "2024-01-01T09:00:00.000Z" "2024-01-01T09:00:00.000Z").
      repeat split; try reflexivity. simpl. now left.
    + apply Hgroup.
      exists [Some 2; Some 3], 1, (TableState.mk 1 2 160 40 (Some 1)),
        (Reservations.mk 1 1 1 "18:30" "Smith" (4 # 1) None
           "2024-01-01T09:00:00.000Z" "2024-01-01T09:00:00.000Z").
      split; [reflexivity|]. split; [unfold SQLITE_MAX_VARIABLE_NUMBER; simpl; lia|].
      split; [reflexivity|]. split; [simpl; auto|].
      split; [reflexivity|]. split; [reflexivity|]. split; [reflexivity|].
      split; [simpl; now left|reflexivity].
    + discriminate.
Defined.

(** ** What a successful ungroup and a successful group leave *)

Lemma Forall2_map_in {A : Type} (R : A -> A -> Prop) (f : A -> A) (l : list A) :
  (forall a, In a l -> R a (f a)) -> Forall2 R l (map f l).
Proof.
  induction l as [|a l IH]; intros H; simpl; constructor.
  - apply H. now left.
  - apply IH. intros b Hb. apply H. now right.
Qed.

Lemma num_eqb_integer (q : Q) (g k : Z) :
  (q == inject_Z g)%Q -> num_eqb q k = (k =? g).
Proof.
  intros Hq. destruct (Z.eqb_spec k g) as [->|Hne].
  - now apply num_eqb_true.
  - apply not_true_is_false. intros H. apply num_eqb_true in H.
    rewrite Hq in H. unfold Qeq in H. simpl in H. lia.
Qed.

(** X5.  An ungroup call for group [g] of an instance in which no
    reservation is bound to [g] answers ok.  The group rows that stay
    are all but those with id [g] in the instance; every state row keeps
    its key and coordinates, and keeps its group unless that group was
    [g]; no state row of the instance is in [g] any more; reservations
    of other groups stay. *)
Theorem ungroup_dissolves_group (date : string) (d : db) (layoutId : Z) (q : Q) (g : Z) :
  select_layout date d = Some layoutId ->
  (q == inject_Z g)%Q ->
  (forall res, In res (reservations d) ->
     Reservations.layoutInstanceId res = layoutId -> Reservations.groupId res <> g) ->
  exists d',
    post_ungroup date (Some q) d = (Json tt, d')
    /\ (forall grp, In grp (table_groups d') <->
          In grp (table_groups d)
          /\ ~ (TableGroups.id grp = g /\ TableGroups.layoutInstanceId grp = layoutId))
    /\ Forall2
         (fun r r' =>
            position r' = position r
            /\ (TableState.groupId r' = TableState.groupId r
                \/ (TableState.groupId r = Some g /\ TableState.groupId r' = None)))
         (table_state d) (table_state d')
    /\ (forall r', In r' (table_state d') ->
          TableState.layoutInstanceId r' = layoutId -> TableState.groupId r' <> Some g)
    /\ (forall res, In res (reservations d) -> Reservations.groupId res <> g ->
          In res (reservations d')).
Proof.
  intros Hlayout Hq Hfree.
  set (doomed := fun grp : TableGroups.row =>
                   num_eqb q (TableGroups.id grp)
                   && (TableGroups.layoutInstanceId grp =? layoutId)).
  exists (delete_groups doomed (clear_group layoutId q d)).
  assert (Hdoomed : forall grp, doomed grp = true <->
            TableGroups.id grp = g /\ TableGroups.layoutInstanceId grp = layoutId).
  { intros grp. unfold doomed. rewrite andb_true_iff, (num_eqb_integer q g _ Hq),
      !Z.eqb_eq. tauto. }
  assert (Hgone : forall k, mem k (map TableGroups.id (filter doomed (table_groups d))) = true ->
            k = g).
  { intros k Hk. apply mem_gone in Hk as [g0 [_ [Hd <-]]]. now apply Hdoomed in Hd. }
  split; [|split; [|split; [|split]]].
  - unfold post_ungroup. rewrite Hlayout.
    replace (existsb _ (reservations d)) with false; [reflexivity|].
    symmetry. apply not_true_is_false. intros He.
    apply existsb_exists in He as [res [Hres Hc]].
    apply andb_true_iff in Hc as [Hl Hn]. apply Z.eqb_eq in Hl.
    rewrite (num_eqb_integer q g _ Hq) in Hn. apply Z.eqb_eq in Hn.
    now apply (Hfree res Hres Hl).
  - intros grp. unfold delete_groups. simpl. rewrite filter_In, negb_true_iff.
    split; intros [Hin Hd]; (split; [exact Hin|]).
    + intros Hyes. apply Hdoomed in Hyes. congruence.
    + apply not_true_is_false. intros Hyes. now apply Hdoomed in Hyes.
  - unfold delete_groups, clear_group. simpl. rewrite map_map.
    apply Forall2_map_same. intros r.
    destruct (TableState.groupId r) as [k|] eqn:Hk; [|rewrite Hk; auto].
    destruct ((TableState.layoutInstanceId r =? layoutId) && num_eqb q k) eqn:Hc.
    + simpl. apply andb_true_iff in Hc as [_ Hn].
      rewrite (num_eqb_integer q g _ Hq) in Hn. apply Z.eqb_eq in Hn. subst k.
      split; [reflexivity|]. now right.
    + rewrite Hk.
      destruct (mem k (map TableGroups.id (filter doomed (table_groups d)))) eqn:Hm.
      * apply Hgone in Hm. subst k. split; [reflexivity|]. now right.
      * split; [reflexivity|]. now left.
  - intros r' Hr' Hl Hg. unfold delete_groups, clear_group in Hr'. simpl in Hr'.
    rewrite map_map in Hr'. apply in_map_iff in Hr' as [r [Heq Hr]].
    destruct (TableState.groupId r) as [k|] eqn:Hk.
    + destruct ((TableState.layoutInstanceId r =? layoutId) && num_eqb q k) eqn:Hc.
      * simpl in Heq. subst r'. discriminate.
      * rewrite Hk in Heq.
        destruct (mem k (map TableGroups.id (filter doomed (table_groups d))));
          subst r'; [discriminate|].
        rewrite Hk in Hg. injection Hg as ->.
        rewrite Hl, Z.eqb_refl, (num_eqb_integer q g _ Hq), Z.eqb_refl in Hc.
        discriminate.
    + rewrite Hk in Heq. subst r'. congruence.
  - intros res Hres Hne. unfold delete_groups. simpl. apply filter_In.
    split; [exact Hres|]. apply negb_true_iff. apply not_true_is_false.
    intros Hm. now apply Hgone in Hm.
Qed.

Lemma ungroup_dissolves_group_witness :
  exists d',
    post_ungroup day (Some (1 # 1)) grouped = (Json tt, d')
    /\ table_groups d' = []
    /\ map TableState.groupId (table_state d') = [None; None; None].
Proof.
  destruct (ungroup_dissolves_group day grouped 1 (1 # 1) 1) as [d' [Hd' _]].
  - reflexivity.
  - reflexivity.
  - intros res [].
  - exists d'. split; [exact Hd'|].
    injection Hd' as <-. split; reflexivity.
Defined.

Lemma create_group_result (layoutId : Z) (ids : list (option Z)) (d0 : db) :
  binds 2 ids = true ->
  create_group layoutId ids d0
  = (Json (autoincrement (table_groups_seq d0) (map TableGroups.id (table_groups d0))),
     set_group_of_tables
       (Some (autoincrement (table_groups_seq d0) (map TableGroups.id (table_groups d0))))
       layoutId ids (snd (insert_table_group layoutId d0))).
Proof. intros Hbinds. unfold create_group, insert_table_group. now rewrite Hbinds. Qed.

Lemma create_group_answered (layoutId : Z) (ids : list (option Z)) (d0 : db) (g : Z) :
  fst (create_group layoutId ids d0) = Json g -> binds 2 ids = true.
Proof.
  rewrite create_group_outcome. destruct (binds 2 ids); [reflexivity|discriminate].
Qed.

Lemma with_groupId_twice (v w : option Z) (r : TableState.row) :
  with_groupId v (with_groupId w r) = with_groupId v r.
Proof. reflexivity. Qed.

Lemma with_groupId_same (r : TableState.row) :
  with_groupId (TableState.groupId r) r = r.
Proof. now destruct r. Qed.

(** X6.  A group call that answers a group id has put every state row
    it names into the new group, whose row belongs to the instance, and
    has left every other state row of the instance as it was, the other
    members of the groups it took tables from included; state rows of
    other instances keep their key and coordinates.  It creates no other
    group row. *)
Theorem group_assigns_named_tables
    (date : string) (tableIds : option (list (option Z))) (d : db) (g : Z) :
  fst (post_group date tableIds d) = Json g ->
  exists ids layoutId,
    tableIds = Some ids
    /\ select_layout date d = Some layoutId
    /\ In (TableGroups.mk g layoutId) (table_groups (snd (post_group date tableIds d)))
    /\ (forall grp, In grp (table_groups (snd (post_group date tableIds d))) ->
          In grp (table_groups d) \/ grp = TableGroups.mk g layoutId)
    /\ Forall2
         (fun r r' =>
            if named_in layoutId ids r then r' = with_groupId (Some g) r
            else if TableState.layoutInstanceId r =? layoutId then r' = r
                 else position r' = position r)
         (table_state d) (table_state (snd (post_group date tableIds d))).
Proof.
  intros Hg.
  destruct (post_group_outcome date tableIds d)
    as [[_ Hno]|[[layoutId [ids [_ [_ Hfail]]]]
                |[layoutId [ids [d0 [-> [_ [Hl [Hpost Hd0]]]]]]]]];
    [elim (Hno g Hg)|rewrite Hfail in Hg; discriminate|].
  exists ids, layoutId. split; [reflexivity|]. split; [exact Hl|].
  rewrite Hpost in *.
  pose proof (create_group_answered _ _ _ _ Hg) as Hbinds.
  rewrite (create_group_result _ _ _ Hbinds) in *. simpl in Hg.
  injection Hg as Hg. rewrite Hg. simpl snd.
  assert (Hgroups : forall grp, In grp (table_groups d0) -> In grp (table_groups d)).
  { destruct Hd0 as [[_ ->]|[_ [_ ->]]]; [auto|].
    intros grp Hin. unfold delete_emptied_groups, delete_groups in Hin. simpl in Hin.
    now apply filter_In in Hin as [Hin _]. }
  split; [|split].
  - simpl. apply in_or_app. right. left. now rewrite Hg.
  - simpl. intros grp Hin. apply in_app_or in Hin as [Hin|[<-|[]]]; [left; auto|].
    right. now rewrite Hg.
  - unfold set_group_of_tables at 1. simpl table_state.
    destruct Hd0 as [[_ ->]|[_ [_ ->]]].
    + apply Forall2_map_same. intros r. unfold named_in.
      destruct ((TableState.layoutInstanceId r =? layoutId)
                && param_in ids (TableState.tableId r)); [reflexivity|].
      destruct (TableState.layoutInstanceId r =? layoutId); reflexivity.
    + unfold delete_emptied_groups.
      set (d1 := set_group_of_tables None layoutId ids d).
      set (doomed := fun g0 : TableGroups.row =>
                       (TableGroups.layoutInstanceId g0 =? layoutId)
                       && mem (TableGroups.id g0) (select_existing_groups layoutId ids d)
                       && negb (mem (TableGroups.id g0) (groups_in_use layoutId d1))).
      unfold delete_groups. simpl table_state.
      change (table_state d1)
        with (map (fun r => if (TableState.layoutInstanceId r =? layoutId)
                               && param_in ids (TableState.tableId r)
                            then with_groupId None r else r) (table_state d)).
      rewrite !map_map.
      apply Forall2_map_in. intros r Hr. unfold named_in.
      destruct ((TableState.layoutInstanceId r =? layoutId)
                && param_in ids (TableState.tableId r)) eqn:Hc.
      * cbn [with_groupId TableState.groupId TableState.layoutInstanceId
             TableState.tableId]. rewrite Hc. reflexivity.
      * destruct (TableState.groupId r) as [k|] eqn:Hk.
        -- destruct (mem k (map TableGroups.id (filter doomed (table_groups d)))) eqn:Hm.
           ++ cbn [with_groupId TableState.groupId TableState.layoutInstanceId
                   TableState.tableId]. rewrite Hc.
              destruct (TableState.layoutInstanceId r =? layoutId) eqn:Hrl;
                [|reflexivity].
              exfalso. apply mem_gone in Hm as [g0 [_ [Hd Hid]]].
              unfold doomed in Hd. apply andb_true_iff in Hd as [_ Hfree].
              apply negb_true_iff in Hfree.
              assert (Huse : mem (TableGroups.id g0) (groups_in_use layoutId d1) = true).
              { apply mem_In, groups_in_use_In. exists r. split; [|split].
                - apply set_group_other; [exact Hr|now rewrite Hrl].
                - now apply Z.eqb_eq.
                - now rewrite Hid. }
              congruence.
           ++ rewrite Hc. destruct (TableState.layoutInstanceId r =? layoutId); reflexivity.
        -- rewrite Hc. destruct (TableState.layoutInstanceId r =? layoutId); reflexivity.
Qed.

Lemma group_assigns_named_tables_witness :
  exists ids layoutId,
    Some [Some 2; Some 3] = Some ids
    /\ select_layout day grouped = Some layoutId
    /\ In (TableGroups.mk 2 layoutId)
         (table_groups (snd (post_group day (Some [Some 2; Some 3]) grouped)))
    /\ (forall grp,
          In grp (table_groups (snd (post_group day (Some [Some 2; Some 3]) grouped))) ->
          In grp (table_groups grouped) \/ grp = TableGroups.mk 2 layoutId)
    /\ Forall2
         (fun r r' =>
            if named_in layoutId ids r then r' = with_groupId (Some 2) r
            else if TableState.layoutInstanceId r =? layoutId then r' = r
                 else position r' = position r)
         (table_state grouped)
         (table_state (snd (post_group day (Some [Some 2; Some 3]) grouped))).
Proof.
  apply (group_assigns_named_tables day (Some [Some 2; Some 3]) grouped 2).
  reflexivity.
Defined.

(** ** Grouping and ungrouping undo each other *)

Lemma map_same_in {A : Type} (f : A -> A) (l : list A) :
  (forall a, In a l -> f a = a) -> map f l = l.
Proof.
  intros H. rewrite <- (map_id l) at 2. now apply map_ext_in.
Qed.

Lemma table_state_delete_groups (doomed : TableGroups.row -> bool) (d : db) :
  table_state (delete_groups doomed d)
  = map (fun r =>
           match TableState.groupId r with
           | Some g =>
               if mem g (map TableGroups.id (filter doomed (table_groups d)))
               then with_groupId None r else r
           | None => r
           end)
      (table_state d).
Proof. reflexivity. Qed.

Lemma table_state_clear_group (layoutId : Z) (q : Q) (d : db) :
  table_state (clear_group layoutId q d)
  = map (fun r =>
           match TableState.groupId r with
           | Some g =>
               if (TableState.layoutInstanceId r =? layoutId) && num_eqb q g
               then with_groupId None r else r
           | None => r
           end)
      (table_state d).
Proof. reflexivity. Qed.

Lemma table_state_set_group_of_tables (v : option Z) (layoutId : Z)
    (ids : list (option Z)) (d : db) :
  table_state (set_group_of_tables v layoutId ids d)
  = map (fun r =>
           if (TableState.layoutInstanceId r =? layoutId)
              && param_in ids (TableState.tableId r)
           then with_groupId v r else r)
      (table_state d).
Proof. reflexivity. Qed.

(** X7.  In a store that satisfies the schema, grouping tables none of
    which is in a group, no more of them than the last UPDATE can bind
    beside its two other parameters, and then ungrouping the group that
    the call answered leaves [table_state], [table_groups] and
    [reservations] exactly as they were before the two calls: both calls
    answer ok, and only the AUTOINCREMENT counter of [table_groups]
    remembers them. *)
Theorem group_then_ungroup_restores
    (date : string) (ids : list (option Z)) (d : db) (layoutId : Z) :
  schema_ok d ->
  select_layout date d = Some layoutId ->
  ids <> [] ->
  2 + Z.of_nat (List.length ids) <= SQLITE_MAX_VARIABLE_NUMBER ->
  select_existing_groups layoutId ids d = [] ->
  exists g d1 d2,
    post_group date (Some ids) d = (Json g, d1)
    /\ post_ungroup date (Some (inject_Z g)) d1 = (Json tt, d2)
    /\ table_state d2 = table_state d
    /\ table_groups d2 = table_groups d
    /\ reservations d2 = reservations d
    /\ layout_instances d2 = layout_instances d
    /\ tables d2 = tables d
    /\ table_groups_seq d2 = g.
Proof.
  intros Hok Hlayout Hne Hsize Hfree.
  set (g := autoincrement (table_groups_seq d) (map TableGroups.id (table_groups d))).
  set (d1 := set_group_of_tables (Some g) layoutId ids (snd (insert_table_group layoutId d))).
  set (doomed := fun grp : TableGroups.row =>
                   num_eqb (inject_Z g) (TableGroups.id grp)
                   && (TableGroups.layoutInstanceId grp =? layoutId)).
  assert (Hnew : ~ In g (map TableGroups.id (table_groups d)))
    by apply autoincrement_fresh.
  assert (Heqb : forall k, num_eqb (inject_Z g) k = (k =? g)).
  { intros k. apply num_eqb_integer. reflexivity. }
  assert (Hgone : forall k,
            mem k (map TableGroups.id (filter doomed (table_groups d1))) = true -> k = g).
  { intros k Hk. apply mem_gone in Hk as [g0 [_ [Hd <-]]]. unfold doomed in Hd.
    apply andb_true_iff in Hd as [Hd _]. rewrite Heqb in Hd. now apply Z.eqb_eq. }
  assert (Hres : forall res, In res (reservations d) -> Reservations.groupId res <> g).
  { intros res Hin Heq. apply Hnew. rewrite <- Heq.
    now apply (ok_reservation_group d Hok). }
  assert (Hrow : forall r k, In r (table_state d) -> TableState.groupId r = Some k -> k <> g).
  { intros r k Hr Hk Heq. apply Hnew. rewrite <- Heq.
    now apply (ok_state_group d Hok r). }
  assert (Hnamed : forall r, In r (table_state d) ->
            (TableState.layoutInstanceId r =? layoutId)
            && param_in ids (TableState.tableId r) = true ->
            TableState.groupId r = None).
  { intros r Hr Hc. destruct (TableState.groupId r) as [k|] eqn:Hk; [|reflexivity].
    apply andb_true_iff in Hc as [Hl Hp]. apply Z.eqb_eq in Hl.
    assert (Hin : In k (select_existing_groups layoutId ids d)).
    { apply select_existing_groups_In. exists r. auto. }
    rewrite Hfree in Hin. contradiction. }
  exists g, d1, (delete_groups doomed (clear_group layoutId (inject_Z g) d1)).
  split; [|split; [|split; [|split; [|split; [|split; [|split]]]]]].
  - unfold post_group. destruct ids as [|p ids]; [congruence|].
    rewrite Hlayout, Hfree.
    replace (binds 1 (p :: ids)) with true by (symmetry; apply binds_true; lia).
    cbn [negb]. apply create_group_result. now apply binds_true.
  - unfold post_ungroup.
    change (select_layout date d1) with (select_layout date d). rewrite Hlayout.
    change (reservations d1) with (reservations d).
    replace (existsb _ (reservations d)) with false; [reflexivity|].
    symmetry. apply not_true_is_false. intros He.
    apply existsb_exists in He as [res [Hin Hc]].
    apply andb_true_iff in Hc as [_ Hq]. rewrite Heqb in Hq. apply Z.eqb_eq in Hq.
    now apply (Hres res Hin).
  - rewrite table_state_delete_groups, table_state_clear_group.
    change (table_groups (clear_group layoutId (inject_Z g) d1)) with (table_groups d1).
    unfold d1 at 2. rewrite table_state_set_group_of_tables.
    change (table_state (snd (insert_table_group layoutId d))) with (table_state d).
    rewrite !map_map. apply map_same_in. intros r Hr.
    destruct ((TableState.layoutInstanceId r =? layoutId)
              && param_in ids (TableState.tableId r)) eqn:Hc.
    + cbn [with_groupId TableState.groupId TableState.layoutInstanceId].
      apply andb_true_iff in Hc as [Hl Hp]. rewrite Hl, Heqb, Z.eqb_refl.
      cbn [andb with_groupId TableState.groupId].
      rewrite <- (Hnamed r Hr) at 1 by (now rewrite Hl, Hp).
      rewrite with_groupId_twice. apply with_groupId_same.
    + destruct (TableState.groupId r) as [k|] eqn:Hk; [|now rewrite Hk].
      rewrite Heqb. replace (k =? g) with false
        by (symmetry; apply Z.eqb_neq; now apply (Hrow r)).
      rewrite andb_false_r, Hk.
      destruct (mem k (map TableGroups.id (filter doomed (table_groups d1)))) eqn:Hm;
        [|reflexivity].
      apply Hgone in Hm. elim (Hrow r k Hr Hk Hm).
  - change (table_groups (delete_groups doomed (clear_group layoutId (inject_Z g) d1)))
      with (filter (fun grp => negb (doomed grp))
              (table_groups d ++ [TableGroups.mk g layoutId])).
    rewrite filter_app.
    replace (filter (fun grp => negb (doomed grp)) [TableGroups.mk g layoutId]) with
      (@nil TableGroups.row).
    + rewrite app_nil_r. apply filter_all. intros grp Hgrp. apply negb_true_iff.
      unfold doomed. rewrite Heqb.
      replace (TableGroups.id grp =? g) with false; [reflexivity|].
      symmetry. apply Z.eqb_neq. intros Heq. apply Hnew. rewrite <- Heq. now apply in_map.
    + simpl. unfold doomed. cbn [TableGroups.id TableGroups.layoutInstanceId].
      now rewrite Heqb, !Z.eqb_refl.
  - change (reservations (delete_groups doomed (clear_group layoutId (inject_Z g) d1)))
      with (filter (fun r => negb (mem (Reservations.groupId r)
                                     (map TableGroups.id (filter doomed (table_groups d1)))))
              (reservations d)).
    apply filter_all. intros res Hin.
    apply negb_true_iff. apply not_true_is_false. intros Hm.
    apply Hgone in Hm. now apply (Hres res Hin).
  - reflexivity.
  - reflexivity.
  - reflexivity.
Qed.

Lemma closed_schema_ok : schema_ok closed.
Proof.
  constructor.
  - unfold catalog_key. simpl. repeat constructor; simpl; intuition lia.
  - constructor.
  - constructor.
  - intros i [].
  - unfold group_key. constructor.
  - intros g [].
  - intros g [].
  - unfold state_key. constructor.
  - intros r [].
  - intros r [].
  - intros r g [].
  - constructor.
  - intros r [].
  - intros r [].
  - intros r [].
Qed.

Lemma opened_schema_ok : schema_ok opened.
Proof. exact (handle_keeps_schema (ReqInit day) closed closed_schema_ok). Qed.

Lemma grouped_schema_ok : schema_ok grouped.
Proof.
  exact (handle_keeps_schema (ReqGroup day (Some [Some 1; Some 2])) opened opened_schema_ok).
Qed.

Lemma reserved_schema_ok : schema_ok reserved.
Proof.
  exact (handle_keeps_schema (ReqReservation "2024-01-01T09:00:00.000Z" day smith)
           grouped grouped_schema_ok).
Qed.

Lemma group_then_ungroup_restores_witness :
  exists g d1 d2,
    post_group day (Some [Some 2; Some 3]) opened = (Json g, d1)
    /\ post_ungroup day (Some (inject_Z g)) d1 = (Json tt, d2)
    /\ table_state d2 = table_state opened
    /\ table_groups d2 = table_groups opened
    /\ reservations d2 = reservations opened
    /\ layout_instances d2 = layout_instances opened
    /\ tables d2 = tables opened
    /\ table_groups_seq d2 = g.
Proof.
  apply (group_then_ungroup_restores day [Some 2; Some 3] opened 1).
  - exact opened_schema_ok.
  - reflexivity.
  - discriminate.
  - unfold SQLITE_MAX_VARIABLE_NUMBER. simpl. lia.
  - reflexivity.
Defined.

(** ** Reservations: deleting, creating and reading back *)

Lemma filter_twice {A : Type} (f : A -> bool) (l : list A) :
  filter f (filter f l) = filter f l.
Proof.
  apply filter_all. intros a Ha. now apply filter_In in Ha as [_ Ha].
Qed.

(** X8.  Deleting a reservation is idempotent: the same request served
    again gives the same answer and changes nothing more.  A reservation
    leaves the store only if the request carries its id and the date is
    the date of its instance; when no reservation is such, the answer is
    ok all the same and the store is as it was. *)
Theorem delete_reservation_idempotent (date : string) (reservationId : option Z) (d : db) :
  delete_reservation date reservationId (snd (delete_reservation date reservationId d))
  = delete_reservation date reservationId d
  /\ (forall res, In res (reservations d) ->
        In res (reservations (snd (delete_reservation date reservationId d)))
        \/ (param_eqb reservationId (Reservations.id res) = true
            /\ select_layout date d = Some (Reservations.layoutInstanceId res)))
  /\ (forall layoutId,
        select_layout date d = Some layoutId ->
        (forall res, In res (reservations d) ->
           Reservations.layoutInstanceId res = layoutId ->
           param_eqb reservationId (Reservations.id res) = false) ->
        delete_reservation date reservationId d = (Json tt, d)).
Proof.
  unfold delete_reservation.
  destruct (select_layout date d) as [layoutId|] eqn:Hl.
  - split; [|split].
    + simpl snd.
      change (select_layout date (set_reservations _ d)) with (select_layout date d).
      rewrite Hl. f_equal. unfold set_reservations. simpl. now rewrite filter_twice.
    + intros res Hres. simpl.
      destruct (param_eqb reservationId (Reservations.id res)
                && (Reservations.layoutInstanceId res =? layoutId)) eqn:Hc.
      * right. apply andb_true_iff in Hc as [Hp Hrl]. apply Z.eqb_eq in Hrl.
        split; [exact Hp|now rewrite Hrl].
      * left. apply filter_In. split; [exact Hres|now rewrite Hc].
    + intros L HL Hnone. injection HL as <-. f_equal.
      rewrite filter_all; [now destruct d|].
      intros res Hres. apply negb_true_iff.
      destruct (Z.eqb_spec (Reservations.layoutInstanceId res) layoutId) as [Heq|_].
      * now rewrite (Hnone res Hres Heq).
      * apply andb_false_r.
  - split; [|split].
    + simpl. now rewrite Hl.
    + intros res Hres. now left.
    + discriminate.
Qed.

Lemma post_reservation_created (now date : string) (b : ReservationForm.body) (d : db)
    (layoutId g : Z) :
  accepted b = true ->
  select_layout date d = Some layoutId ->
  ReservationForm.reservationId b = None ->
  references_group (number (ReservationForm.groupId b)) d = Some g ->
  post_reservation now date b d
  = (Json (mk_saved
             (inject_Z (autoincrement (reservations_seq d)
                          (map Reservations.id (reservations d))))
             (number (ReservationForm.groupId b))
             (text (ReservationForm.time b)) (text (ReservationForm.name b))
             (number (ReservationForm.partySize b)) (or_null (ReservationForm.notes b))),
     mkdb (tables d) (layout_instances d) (layout_instances_seq d)
       (table_groups d) (table_groups_seq d) (table_state d)
       (reservations d
        ++ [Reservations.mk
              (autoincrement (reservations_seq d) (map Reservations.id (reservations d)))
              layoutId g (text (ReservationForm.time b)) (text (ReservationForm.name b))
              (number (ReservationForm.partySize b)) (or_null (ReservationForm.notes b))
              now now])
       (autoincrement (reservations_seq d) (map Reservations.id (reservations d)))).
Proof.
  intros Hacc Hl Hid Hg.
  rewrite (post_reservation_accepted _ _ _ _ Hacc), Hl, Hid.
  unfold insert_reservation. now rewrite Hg.
Qed.

(** X9.  A reservation that is created and then deleted under the id
    the creation answered leaves every table of the store as it was:
    [reservations] holds again exactly the rows it held, and only the
    AUTOINCREMENT counter has moved. *)
Theorem create_then_delete_restores
    (now date : string) (b : ReservationForm.body) (d : db) (layoutId g : Z) :
  accepted b = true ->
  select_layout date d = Some layoutId ->
  ReservationForm.reservationId b = None ->
  references_group (number (ReservationForm.groupId b)) d = Some g ->
  exists newId d1 d2,
    fst (post_reservation now date b d)
    = Json (mk_saved (inject_Z newId) (number (ReservationForm.groupId b))
              (text (ReservationForm.time b)) (text (ReservationForm.name b))
              (number (ReservationForm.partySize b)) (or_null (ReservationForm.notes b)))
    /\ snd (post_reservation now date b d) = d1
    /\ delete_reservation date (Some newId) d1 = (Json tt, d2)
    /\ reservations d2 = reservations d
    /\ table_state d2 = table_state d
    /\ table_groups d2 = table_groups d
    /\ layout_instances d2 = layout_instances d
    /\ reservations_seq d2 = newId.
Proof.
  intros Hacc Hl Hid Hg.
  rewrite (post_reservation_created now date b d layoutId g Hacc Hl Hid Hg).
  set (newId := autoincrement (reservations_seq d) (map Reservations.id (reservations d))).
  eexists newId, _, _. split; [reflexivity|]. split; [reflexivity|].
  unfold delete_reservation.
  match goal with
  | |- context [select_layout date ?d1] =>
      change (select_layout date d1) with (select_layout date d)
  end.
  rewrite Hl. split; [reflexivity|]. simpl.
  split; [|auto]. rewrite filter_app. simpl. rewrite !Z.eqb_refl. simpl.
  rewrite app_nil_r. apply filter_all. intros res Hres. apply negb_true_iff.
  replace (newId =? Reservations.id res) with false; [reflexivity|].
  symmetry. apply Z.eqb_neq. intros Heq.
  apply (autoincrement_fresh (reservations_seq d) (map Reservations.id (reservations d))).
  fold newId. rewrite Heq. now apply in_map.
Qed.

Lemma create_then_delete_restores_witness :
  exists newId d1 d2,
    fst (post_reservation "2024-01-01T09:00:00.000Z" day smith grouped)
    = Json (mk_saved (inject_Z newId) (1 # 1) "18:30" "Smith" (4 # 1) None)
    /\ snd (post_reservation "2024-01-01T09:00:00.000Z" day smith grouped) = d1
    /\ delete_reservation day (Some newId) d1 = (Json tt, d2)
    /\ reservations d2 = reservations grouped
    /\ table_state d2 = table_state grouped
    /\ table_groups d2 = table_groups grouped
    /\ layout_instances d2 = layout_instances grouped
    /\ reservations_seq d2 = newId.
Proof.
  apply (create_then_delete_restores "2024-01-01T09:00:00.000Z" day smith grouped 1 1).
  - reflexivity.
  - reflexivity.
  - reflexivity.
  - reflexivity.
Defined.

(** X10.  A reservation that has been created is in the next snapshot of
    its date: the snapshot lists the reservations it listed before, and
    after them the new one, under the id the creation answered, with the
    group, time, name, party size and notes of the request and the clock
    reading in [createdAt] and [updatedAt]. *)
Theorem created_reservation_is_listed
    (now date : string) (b : ReservationForm.body) (d : db) (layoutId g : Z) :
  accepted b = true ->
  select_layout date d = Some layoutId ->
  ReservationForm.reservationId b = None ->
  references_group (number (ReservationForm.groupId b)) d = Some g ->
  exists newId before after,
    fst (post_reservation now date b d)
    = Json (mk_saved (inject_Z newId) (number (ReservationForm.groupId b))
              (text (ReservationForm.time b)) (text (ReservationForm.name b))
              (number (ReservationForm.partySize b)) (or_null (ReservationForm.notes b)))
    /\ get_layout date d = Json before
    /\ get_layout date (snd (post_reservation now date b d)) = Json after
    /\ Payload.reservations after
       = Payload.reservations before
         ++ [Payload.mk_reservation newId g
               (text (ReservationForm.time b)) (text (ReservationForm.name b))
               (number (ReservationForm.partySize b)) (or_null (ReservationForm.notes b))
               now now]
    /\ Payload.tables after = Payload.tables before
    /\ Payload.groups after = Payload.groups before.
Proof.
  intros Hacc Hl Hid Hg.
  rewrite (post_reservation_created now date b d layoutId g Hacc Hl Hid Hg).
  eexists _, _, _. split; [reflexivity|]. unfold get_layout.
  match goal with
  | |- context [select_layout date (snd (_, ?d1))] =>
      change (select_layout date (snd (_, d1))) with (select_layout date d)
  end.
  rewrite Hl. split; [reflexivity|]. split; [reflexivity|].
  simpl. unfold select_reservations. simpl.
  rewrite filter_app, map_app. simpl. rewrite Z.eqb_refl. simpl. auto.
Qed.

Lemma created_reservation_is_listed_witness :
  exists newId before after,
    fst (post_reservation "2024-01-01T09:00:00.000Z" day smith grouped)
    = Json (mk_saved (inject_Z newId) (1 # 1) "18:30" "Smith" (4 # 1) None)
    /\ get_layout day grouped = Json before
    /\ get_layout day (snd (post_reservation "2024-01-01T09:00:00.000Z" day smith grouped))
       = Json after
    /\ Payload.reservations after
       = Payload.reservations before
         ++ [Payload.mk_reservation newId 1 "18:30" "Smith" (4 # 1) None
               "2024-01-01T09:00:00.000Z" "2024-01-01T09:00:00.000Z"]
    /\ Payload.tables after = Payload.tables before
    /\ Payload.groups after = Payload.groups before.
Proof.
  apply (created_reservation_is_listed "2024-01-01T09:00:00.000Z" day smith grouped 1 1).
  - reflexivity.
  - reflexivity.
  - reflexivity.
  - reflexivity.
Defined.

(** X11.  Where reservation ids are a key, a reservation request on one
    date leaves every reservation of the other dates' instances as it
    was, whatever reservation id it carries; a request carrying the id
    of a reservation of another date is answered NotFound. *)
Theorem reservation_request_stays_in_its_date
    (now date : string) (b : ReservationForm.body) (d : db) (layoutId : Z) :
  NoDup (map Reservations.id (reservations d)) ->
  select_layout date d = Some layoutId ->
  (forall res, In res (reservations d) ->
     Reservations.layoutInstanceId res <> layoutId ->
     In res (reservations (snd (post_reservation now date b d))))
  /\ (forall q res,
        accepted b = true ->
        ReservationForm.reservationId b = Some q ->
        In res (reservations d) ->
        (q == inject_Z (Reservations.id res))%Q ->
        Reservations.layoutInstanceId res <> layoutId ->
        post_reservation now date b d = (NotFound, d)).
Proof.
  intros Hkey Hl.
  assert (Hnone : forall q res,
            In res (reservations d) -> (q == inject_Z (Reservations.id res))%Q ->
            Reservations.layoutInstanceId res <> layoutId ->
            existsb (fun r => num_eqb q (Reservations.id r)
                              && (Reservations.layoutInstanceId r =? layoutId))
              (reservations d) = false).
  { intros q res Hres Hq Hother. apply not_true_is_false. intros He.
    apply existsb_exists in He as [r [Hr Hc]]. apply andb_true_iff in Hc as [Hn Hrl].
    apply Z.eqb_eq in Hrl. rewrite (num_eqb_integer q _ _ Hq) in Hn. apply Z.eqb_eq in Hn.
    assert (r = res) by now apply (key_determines_row Reservations.id (reservations d)).
    subst r. contradiction. }
  split.
  - intros res Hres Hother. destruct (accepted b) eqn:Hacc;
      [|now rewrite (post_reservation_rejected _ _ _ _ Hacc)].
    rewrite (post_reservation_accepted _ _ _ _ Hacc), Hl.
    destruct (ReservationForm.reservationId b) as [q|].
    + destruct (existsb _ (reservations d)) eqn:He; [|exact Hres].
      simpl. apply in_map_iff. exists res. split; [|exact Hres].
      destruct (num_eqb q (Reservations.id res)) eqn:Hn; [|reflexivity].
      apply num_eqb_true in Hn. rewrite (Hnone q res Hres Hn Hother) in He. discriminate.
    + unfold insert_reservation.
      destruct (references_group _ d); [|exact Hres].
      simpl. apply in_or_app. now left.
  - intros q res Hacc Hid Hres Hq Hother.
    rewrite (post_reservation_accepted _ _ _ _ Hacc), Hl, Hid.
    now rewrite (Hnone q res Hres Hq Hother).
Qed.

Lemma reservation_request_stays_in_its_date_witness :
  post_reservation "t" tomorrow
    (ReservationForm.mk (Some (1 # 1)) (Some (1 # 1)) (Some "19:00"%string)
       (Some "Jones"%string) (Some (2 # 1)) None)
    (snd (post_init tomorrow reserved))
  = (NotFound, snd (post_init tomorrow reserved)).
Proof.
  apply (proj2 (reservation_request_stays_in_its_date "t" tomorrow
                  (ReservationForm.mk (Some (1 # 1)) (Some (1 # 1)) (Some "19:00"%string)
                     (Some "Jones"%string) (Some (2 # 1)) None)
                  (snd (post_init tomorrow reserved)) 2
                  ltac:(simpl; repeat constructor; simpl; tauto) eq_refl)
           (1 # 1)
           (Reservations.mk 1 1 1 "18:30" "Smith" 4 None
              "2024-01-01T09:00:00.000Z" "2024-01-01T09:00:00.000Z")).
  - reflexivity.
  - reflexivity.
  - simpl. left. reflexivity.
  - reflexivity.
  - simpl. discriminate.
Defined.

(** ** The snapshot *)

Lemma insert_on_Sorted {A : Type} (key : A -> Z) (a : A) (l : list A) :
  Sorted (fun x y => key x <= key y) l ->
  Sorted (fun x y => key x <= key y) (insert_on key a l).
Proof.
  induction l as [|b l IH]; simpl; intros H.
  - repeat constructor.
  - destruct (Z.leb_spec (key a) (key b)) as [Hle|Hgt].
    + constructor; [exact H|]. constructor. exact Hle.
    + inversion H as [|? ? Hs Hhd]; subst. constructor; [now apply IH|].
      destruct l as [|c l]; simpl.
      * constructor. lia.
      * destruct (key a <=? key c); constructor; [lia|].
        inversion Hhd; subst. assumption.
Qed.

Lemma sort_on_Sorted {A : Type} (key : A -> Z) (l : list A) :
  Sorted (fun x y => key x <= key y) (sort_on key l).
Proof.
  induction l as [|a l IH]; simpl; [constructor|]. now apply insert_on_Sorted.
Qed.

Lemma insert_on_Permutation {A : Type} (key : A -> Z) (a : A) (l : list A) :
  Permutation (insert_on key a l) (a :: l).
Proof.
  induction l as [|b l IH]; simpl; [reflexivity|].
  destruct (key a <=? key b); [reflexivity|].
  rewrite IH. apply perm_swap.
Qed.

Lemma sort_on_Permutation {A : Type} (key : A -> Z) (l : list A) :
  Permutation (sort_on key l) l.
Proof.
  induction l as [|a l IH]; simpl; [reflexivity|].
  rewrite insert_on_Permutation. now constructor.
Qed.

Lemma group_eta (e : Payload.group) :
  Payload.mk_group (Payload.group_id e) (Payload.tableIds e) = e.
Proof. now destruct e. Qed.

Lemma push_member_keys (g t : Z) (groups : list Payload.group) :
  forall k, In k (map Payload.group_id (push_member g t groups)) <->
            In k (map Payload.group_id groups) \/ k = g.
Proof.
  induction groups as [|e groups IH]; simpl; intros k.
  - intuition.
  - destruct (Z.eqb_spec (Payload.group_id e) g) as [Heq|Hne]; simpl.
    + rewrite Heq. intuition.
    + rewrite IH. intuition.
Qed.

Lemma push_member_NoDup (g t : Z) (groups : list Payload.group) :
  NoDup (map Payload.group_id groups) ->
  NoDup (map Payload.group_id (push_member g t groups)).
Proof.
  induction groups as [|e groups IH]; simpl; intros Hnd.
  - constructor; [tauto|constructor].
  - inversion Hnd as [|? ? Hnotin Hnd']; subst.
    destruct (Z.eqb_spec (Payload.group_id e) g) as [Heq|Hne]; simpl.
    + constructor; [now rewrite <- Heq|exact Hnd'].
    + constructor; [|now apply IH].
      rewrite push_member_keys. intros [Hin|Hk]; [contradiction|congruence].
Qed.

Lemma push_member_In (g t : Z) (groups : list Payload.group) (e : Payload.group) :
  NoDup (map Payload.group_id groups) ->
  In e (push_member g t groups) ->
  (In e groups /\ Payload.group_id e <> g)
  \/ (exists e0, In e0 groups /\ Payload.group_id e0 = g
                 /\ e = Payload.mk_group g (Payload.tableIds e0 ++ [t]))
  \/ (~ In g (map Payload.group_id groups) /\ e = Payload.mk_group g [t]).
Proof.
  induction groups as [|e1 groups IH]; simpl; intros Hnd Hin.
  - destruct Hin as [<-|[]]. right. right. auto.
  - inversion Hnd as [|? ? Hnotin Hnd']; subst.
    destruct (Z.eqb_spec (Payload.group_id e1) g) as [Heq|Hne].
    + destruct Hin as [<-|Hin].
      * right. left. exists e1. auto.
      * left. split; [now right|]. intros Hg. apply Hnotin. rewrite Heq, <- Hg.
        now apply in_map.
    + destruct Hin as [<-|Hin]; [left; auto|].
      destruct (IH Hnd' Hin) as [[Hi Hg]|[[e0 [Hi [Hg He]]]|[Hno He]]].
      * left. auto.
      * right. left. exists e0. auto.
      * right. right. split; [|exact He]. intros [Hk|Hk]; [congruence|contradiction].
Qed.

Lemma in_group_groupId (layoutId g : Z) (r : TableState.row) :
  in_group layoutId g r = true <->
  TableState.layoutInstanceId r = layoutId /\ TableState.groupId r = Some g.
Proof.
  unfold in_group. rewrite andb_true_iff, Z.eqb_eq.
  destruct (TableState.groupId r) as [k|].
  - rewrite Z.eqb_eq. split; intros [Hl Hk]; split; congruence.
  - split; intros [_ H]; discriminate.
Qed.

Lemma collect_step (layoutId : Z) (rows : list TableState.row) (groups : list Payload.group)
    (r : TableState.row) :
  collected layoutId rows groups ->
  collected layoutId (rows ++ [r]) (collect layoutId groups r).
Proof.
  intros [Hnd [Hentries Hall]].
  assert (Hother : forall g,
            in_group layoutId g r = false ->
            filter (in_group layoutId g) (rows ++ [r]) = filter (in_group layoutId g) rows).
  { intros g Hg. rewrite filter_app. simpl. rewrite Hg. apply app_nil_r. }
  assert (Hidle : (forall g, in_group layoutId g r = false) ->
                  collected layoutId (rows ++ [r]) groups).
  { intros Hno. split; [exact Hnd|]. split.
    - intros e He. rewrite (Hother _ (Hno _)). now apply Hentries.
    - intros r0 g Hr0 Hg. apply in_app_or in Hr0 as [Hr0|[<-|[]]];
        [now apply (Hall r0)|]. rewrite Hno in Hg. discriminate. }
  unfold collect.
  destruct (TableState.groupId r) as [g|] eqn:Hk;
    [|apply Hidle; intros g0; unfold in_group; rewrite Hk; apply andb_false_r].
  destruct (Z.eqb_spec (TableState.layoutInstanceId r) layoutId) as [Hl|Hl];
    [|apply Hidle; intros g0; unfold in_group;
      replace (TableState.layoutInstanceId r =? layoutId) with false;
      [reflexivity|symmetry; now apply Z.eqb_neq]].
  assert (Hmine : in_group layoutId g r = true) by (now apply in_group_groupId).
  assert (Hnot : forall g0, g0 <> g -> in_group layoutId g0 r = false).
  { intros g0 Hne. apply not_true_is_false. intros H0.
    apply in_group_groupId in H0 as [_ H0]. congruence. }
  split; [now apply push_member_NoDup|]. split.
  - intros e He.
    destruct (push_member_In g _ groups e Hnd He)
      as [[Hi Hg]|[[e0 [Hi [Hg ->]]]|[Hno ->]]].
    + rewrite (Hother _ (Hnot _ Hg)). now apply Hentries.
    + simpl. split; [now destruct (Payload.tableIds e0)|].
      rewrite filter_app, map_app. simpl. rewrite Hmine. simpl.
      f_equal. destruct (Hentries e0 Hi) as [_ Heq]. now rewrite Heq, Hg.
    + simpl. split; [discriminate|].
      rewrite filter_app, map_app. simpl. rewrite Hmine. simpl.
      rewrite filter_none; [reflexivity|].
      intros r0 Hr0. apply not_true_is_false. intros H0. apply Hno.
      now apply (Hall r0).
  - intros r0 g0 Hr0 Hg0. apply push_member_keys.
    apply in_app_or in Hr0 as [Hr0|[<-|[]]].
    + left. now apply (Hall r0).
    + right. apply in_group_groupId in Hg0 as [_ Hg0]. congruence.
Qed.

Lemma collect_all (layoutId : Z) (rows : list TableState.row) :
  forall done groups,
    collected layoutId done groups ->
    collected layoutId (done ++ rows) (fold_left (collect layoutId) rows groups).
Proof.
  induction rows as [|r rows IH]; simpl; intros done groups H.
  - now rewrite app_nil_r.
  - replace (done ++ r :: rows) with ((done ++ [r]) ++ rows)
      by (now rewrite <- app_assoc).
    apply IH. now apply collect_step.
Qed.

(** X12.  The [groups] of a snapshot: one entry for each group that has
    a state row in the instance, in ascending order of group id and no
    group twice; the [tableIds] of an entry are the table ids of the
    state rows of the instance in that group, in the order of the table,
    so never empty.  A group row without a member is not listed. *)
Theorem snapshot_groups (layoutId : Z) (d : db) :
  Sorted (fun a b => Payload.group_id a <= Payload.group_id b)
    (Payload.groups (fetchLayoutPayload layoutId d))
  /\ NoDup (map Payload.group_id (Payload.groups (fetchLayoutPayload layoutId d)))
  /\ (forall e, In e (Payload.groups (fetchLayoutPayload layoutId d)) ->
        Payload.tableIds e <> []
        /\ Payload.tableIds e
           = map TableState.tableId
               (filter (in_group layoutId (Payload.group_id e)) (table_state d)))
  /\ (forall r g, In r (table_state d) ->
        TableState.layoutInstanceId r = layoutId ->
        TableState.groupId r = Some g ->
        exists e, In e (Payload.groups (fetchLayoutPayload layoutId d))
                  /\ Payload.group_id e = g
                  /\ In (TableState.tableId r) (Payload.tableIds e)).
Proof.
  change (Payload.groups (fetchLayoutPayload layoutId d))
    with (sort_on Payload.group_id (fold_left (collect layoutId) (table_state d) [])).
  destruct (collect_all layoutId (table_state d) [] []) as [Hnd [Hentries Hall]].
  { split; [constructor|]. split; [intros e []|intros r g []]. }
  simpl in Hentries, Hall.
  split; [apply sort_on_Sorted|]. split; [|split].
  - apply (Permutation_NoDup (l := map Payload.group_id
                                     (fold_left (collect layoutId) (table_state d) [])));
      [|exact Hnd].
    apply Permutation_map. symmetry. apply sort_on_Permutation.
  - intros e He. apply sort_on_In in He. now apply Hentries.
  - intros r g Hr Hl Hg.
    assert (Hin : in_group layoutId g r = true) by (now apply in_group_groupId).
    specialize (Hall r g Hr Hin). apply in_map_iff in Hall as [e [Hid He]].
    exists e. split; [now apply sort_on_In|]. split; [exact Hid|].
    destruct (Hentries e He) as [_ ->]. apply in_map. apply filter_In.
    now rewrite Hid.
Qed.

Lemma only_catalog_row (ts : list Tables.row) (k : Z) :
  NoDup (map Tables.id ts) -> In k (map Tables.id ts) ->
  exists t, In t ts /\ Tables.id t = k /\ filter (fun t => Tables.id t =? k) ts = [t].
Proof.
  induction ts as [|a ts IH]; simpl; intros Hnd Hin; [contradiction|].
  inversion Hnd as [|? ? Hnotin Hnd']; subst.
  destruct (Z.eqb_spec (Tables.id a) k) as [Heq|Hne].
  - exists a. split; [now left|]. split; [exact Heq|]. f_equal.
    apply filter_none. intros t Ht. apply Z.eqb_neq. intros Hk.
    apply Hnotin. rewrite Heq, <- Hk. now apply in_map.
  - destruct Hin as [Hin|Hin]; [contradiction|].
    destruct (IH Hnd' Hin) as [t [Ht [Hid Hf]]]. exists t. auto.
Qed.

Lemma joined_table_ids (d : db) (rows : list TableState.row) :
  catalog_key d ->
  (forall r, In r rows -> In (TableState.tableId r) (map Tables.id (tables d))) ->
  map Payload.tableId
    (flat_map
       (fun ts => map (join_table ts)
                    (filter (fun t => Tables.id t =? TableState.tableId ts) (tables d)))
       rows)
  = map TableState.tableId rows.
Proof.
  intros Hkey. induction rows as [|r rows IH]; simpl; intros Hfk; [reflexivity|].
  rewrite map_app, IH by (intros r0 Hr0; apply Hfk; now right).
  destruct (only_catalog_row (tables d) (TableState.tableId r) Hkey
              (Hfk r (or_introl eq_refl))) as [t [_ [_ ->]]].
  reflexivity.
Qed.

Lemma instance_table_ids (rows : list TableState.row) (layoutId : Z) :
  NoDup (map (fun r => (TableState.layoutInstanceId r, TableState.tableId r)) rows) ->
  NoDup (map TableState.tableId
           (filter (fun ts => TableState.layoutInstanceId ts =? layoutId) rows)).
Proof.
  induction rows as [|r rows IH]; simpl; intros Hnd; [constructor|].
  inversion Hnd as [|? ? Hnotin Hnd']; subst.
  destruct (Z.eqb_spec (TableState.layoutInstanceId r) layoutId) as [Hl|Hl];
    [|now apply IH].
  simpl. constructor; [|now apply IH].
  intros Hin. apply Hnotin. apply in_map_iff in Hin as [r0 [Ht Hr0]].
  apply filter_In in Hr0 as [Hr0 Hl0]. apply Z.eqb_eq in Hl0.
  apply in_map_iff. exists r0. split; [|exact Hr0]. now rewrite Ht, Hl0, Hl.
Qed.

(** X13.  The [tables] of a snapshot, in a store that satisfies the
    schema: the state rows of the instance, each joined with its catalog
    row, in ascending order of table id, each table once and none left
    out. *)
Theorem snapshot_tables (layoutId : Z) (d : db) :
  schema_ok d ->
  Sorted (fun a b => Payload.tableId a <= Payload.tableId b)
    (Payload.tables (fetchLayoutPayload layoutId d))
  /\ NoDup (map Payload.tableId (Payload.tables (fetchLayoutPayload layoutId d)))
  /\ Permutation
       (map Payload.tableId (Payload.tables (fetchLayoutPayload layoutId d)))
       (map TableState.tableId
          (filter (fun ts => TableState.layoutInstanceId ts =? layoutId) (table_state d)))
  /\ (forall r, In r (table_state d) -> TableState.layoutInstanceId r = layoutId ->
        exists t, In t (tables d)
                  /\ Tables.id t = TableState.tableId r
                  /\ In (join_table r t) (Payload.tables (fetchLayoutPayload layoutId d))).
Proof.
  intros Hok.
  change (Payload.tables (fetchLayoutPayload layoutId d)) with (select_tables layoutId d).
  assert (Hperm : Permutation (map Payload.tableId (select_tables layoutId d))
                    (map TableState.tableId
                       (filter (fun ts => TableState.layoutInstanceId ts =? layoutId)
                          (table_state d)))).
  { unfold select_tables.
    rewrite (Permutation_map Payload.tableId (sort_on_Permutation Payload.tableId _)).
    rewrite joined_table_ids; [reflexivity|exact (ok_catalog d Hok)|].
    intros r Hr. apply filter_In in Hr as [Hr _]. now apply (ok_state_table d Hok). }
  split; [apply sort_on_Sorted|]. split; [|split; [exact Hperm|]].
  - apply (Permutation_NoDup (Permutation_sym Hperm)).
    apply instance_table_ids. exact (ok_states d Hok).
  - intros r Hr Hl.
    destruct (only_catalog_row (tables d) (TableState.tableId r) (ok_catalog d Hok)
                (ok_state_table d Hok r Hr)) as [t [Ht [Hid _]]].
    exists t. split; [exact Ht|]. split; [exact Hid|].
    apply select_tables_In. exists r, t. auto.
Qed.

Lemma snapshot_tables_witness :
  Sorted (fun a b => Payload.tableId a <= Payload.tableId b)
    (Payload.tables (fetchLayoutPayload 1 grouped))
  /\ NoDup (map Payload.tableId (Payload.tables (fetchLayoutPayload 1 grouped)))
  /\ Permutation
       (map Payload.tableId (Payload.tables (fetchLayoutPayload 1 grouped)))
       (map TableState.tableId
          (filter (fun ts => TableState.layoutInstanceId ts =? 1) (table_state grouped)))
  /\ (forall r, In r (table_state grouped) -> TableState.layoutInstanceId r = 1 ->
        exists t, In t (tables grouped)
                  /\ Tables.id t = TableState.tableId r
                  /\ In (join_table r t) (Payload.tables (fetchLayoutPayload 1 grouped))).
Proof.
  apply (snapshot_tables 1 grouped). exact grouped_schema_ok.
Defined.

Lemma collect_nothing (layoutId : Z) (rows : list TableState.row) (groups : list Payload.group) :
  (forall r, In r rows ->
     TableState.layoutInstanceId r <> layoutId \/ TableState.groupId r = None) ->
  fold_left (collect layoutId) rows groups = groups.
Proof.
  revert groups. induction rows as [|r rows IH]; simpl; intros groups H; [reflexivity|].
  rewrite IH by (intros r0 Hr0; apply H; now right).
  unfold collect. destruct (H r (or_introl eq_refl)) as [Hl|Hg].
  - destruct (TableState.groupId r); [|reflexivity].
    replace (TableState.layoutInstanceId r =? layoutId) with false; [reflexivity|].
    symmetry. now apply Z.eqb_neq.
  - now rewrite Hg.
Qed.

Lemma joined_defaults (layoutId : Z) (d : db) (ts : list Tables.row) :
  catalog_key d -> incl ts (tables d) ->
  flat_map
    (fun s => map (join_table s)
                (filter (fun t => Tables.id t =? TableState.tableId s) (tables d)))
    (map (default_state layoutId) ts)
  = map (fun t => join_table (default_state layoutId t) t) ts.
Proof.
  intros Hkey. induction ts as [|t ts IH]; simpl; intros Hincl; [reflexivity|].
  rewrite IH by (intros a Ha; apply Hincl; now right).
  assert (Ht : In t (tables d)) by (apply Hincl; now left).
  destruct (only_catalog_row (tables d) (Tables.id t) Hkey (in_map Tables.id _ _ Ht))
    as [t' [Ht' [Hid ->]]].
  assert (t' = t) by now apply (key_determines_row Tables.id (tables d)).
  now subst t'.
Qed.

(** X14.  A date opened for the first time, in a store that satisfies
    the schema, shows in its snapshot the catalog and nothing else: one
    entry per catalog row, in ascending order of id, at the default
    position, in no group, with the name, size and capacity of the
    catalog; no group and no reservation. *)
Theorem first_snapshot_is_the_catalog (date : string) (d : db) :
  schema_ok d ->
  select_layout date d = None ->
  exists layoutId d1 snapshot,
    post_init date d = (Json (mk_ensured layoutId false), d1)
    /\ get_layout date d1 = Json snapshot
    /\ Payload.layoutInstanceId snapshot = layoutId
    /\ Payload.tables snapshot
       = sort_on Payload.tableId
           (map (fun t =>
                   Payload.mk_table (Tables.id t) (Tables.defaultX t) (Tables.defaultY t)
                     None (Tables.name t) (Tables.width t) (Tables.height t)
                     (Tables.capacity t))
              (tables d))
    /\ Payload.groups snapshot = []
    /\ Payload.reservations snapshot = [].
Proof.
  intros Hok Hnew.
  set (layoutId := autoincrement (layout_instances_seq d)
                     (map LayoutInstances.id (layout_instances d))).
  assert (Hfresh : ~ In layoutId (map LayoutInstances.id (layout_instances d)))
    by apply autoincrement_fresh.
  assert (Hold : forall r, In r (table_state d) -> TableState.layoutInstanceId r <> layoutId).
  { intros r Hr Heq. apply Hfresh. rewrite <- Heq. now apply (ok_state_instance d Hok). }
  set (d1 := set_table_state (table_state d ++ map (default_state layoutId) (tables d))
               (snd (insert_layout_instance date d))).
  exists layoutId, d1, (fetchLayoutPayload layoutId d1).
  split; [|split; [|split; [reflexivity|split; [|split]]]].
  - unfold post_init.
    now rewrite (ensureLayoutInstance_new_store date d Hnew (ok_catalog d Hok)
                   (ok_state_instance d Hok)).
  - unfold get_layout, select_layout. simpl.
    rewrite find_app_none by now apply select_layout_none.
    simpl. now rewrite String.eqb_refl.
  - simpl. unfold select_tables. simpl. f_equal.
    rewrite filter_app, filter_none, filter_all.
    + simpl. now rewrite (joined_defaults layoutId d (tables d) (ok_catalog d Hok)
                            (incl_refl _)).
    + intros r Hr. apply in_map_iff in Hr as [t [<- _]]. simpl. apply Z.eqb_refl.
    + intros r Hr. apply Z.eqb_neq. now apply Hold.
  - simpl.
    change (select_groups layoutId d1)
      with (sort_on Payload.group_id (fold_left (collect layoutId) (table_state d1) [])).
    rewrite collect_nothing; [reflexivity|].
    intros r Hr. simpl in Hr. apply in_app_or in Hr as [Hr|Hr].
    + left. now apply Hold.
    + right. apply in_map_iff in Hr as [t [<- _]]. reflexivity.
  - simpl. unfold select_reservations. simpl. rewrite filter_none; [reflexivity|].
    intros r Hr. apply Z.eqb_neq. intros Heq. apply Hfresh. rewrite <- Heq.
    now apply (ok_reservation_instance d Hok).
Qed.

Lemma first_snapshot_is_the_catalog_witness :
  exists layoutId d1 snapshot,
    post_init tomorrow reserved = (Json (mk_ensured layoutId false), d1)
    /\ get_layout tomorrow d1 = Json snapshot
    /\ Payload.layoutInstanceId snapshot = layoutId
    /\ Payload.tables snapshot
       = sort_on Payload.tableId
           (map (fun t =>
                   Payload.mk_table (Tables.id t) (Tables.defaultX t) (Tables.defaultY t)
                     None (Tables.name t) (Tables.width t) (Tables.height t)
                     (Tables.capacity t))
              (tables reserved))
    /\ Payload.groups snapshot = []
    /\ Payload.reservations snapshot = [].
Proof.
  apply (first_snapshot_is_the_catalog tomorrow reserved).
  - exact reserved_schema_ok.
  - reflexivity.
Defined.

(** ** The position update, field by field *)

Lemma integer_of_sound (q : Q) (k : Z) : integer_of q = Some k -> (q == inject_Z k)%Q.
Proof.
  unfold integer_of. destruct (num_eqb q (Qfloor q)) eqn:Hn; [|discriminate].
  intros H. injection H as <-. now apply num_eqb_true.
Qed.

Lemma references_group_sound (q : Q) (d : db) (k : Z) :
  references_group q d = Some k ->
  (q == inject_Z k)%Q /\ In k (map TableGroups.id (table_groups d)).
Proof.
  intros H. split; [|now apply (references_group_In q)].
  unfold references_group in H. destruct (integer_of q) as [k0|] eqn:Hi; [|discriminate].
  destruct (existsb _ (table_groups d)); [|discriminate].
  injection H as <-. now apply integer_of_sound.
Qed.

(** X15.  A position update that does not answer ok changes nothing.
    One that answers ok has rewritten the state rows of the date's
    instance with the table id of the request and no other row: each of
    them keeps its key, holds the rounded [x] and [y] of the body where
    the body has them and its own where it has not, and keeps its group
    unless the body has a group field, [null] clearing it and a number
    putting the group row of that id in its place; groups, reservations
    and instances are not touched. *)
Theorem put_table_updates_supplied_fields
    (date : string) (tableId : option Z) (b : PutTable.body) (d : db) :
  match fst (put_table date tableId b d) with
  | Json _ =>
      exists layoutId,
        select_layout date d = Some layoutId
        /\ table_groups (snd (put_table date tableId b d)) = table_groups d
        /\ reservations (snd (put_table date tableId b d)) = reservations d
        /\ layout_instances (snd (put_table date tableId b d)) = layout_instances d
        /\ Forall2
             (fun r r' =>
                if named_by layoutId tableId r then
                  TableState.layoutInstanceId r' = TableState.layoutInstanceId r
                  /\ TableState.tableId r' = TableState.tableId r
                  /\ TableState.x r'
                     = match PutTable.x b with
                       | Some q => Math_round q
                       | None => TableState.x r
                       end
                  /\ TableState.y r'
                     = match PutTable.y b with
                       | Some q => Math_round q
                       | None => TableState.y r
                       end
                  /\ match PutTable.groupId b with
                     | PutTable.Skipped => TableState.groupId r' = TableState.groupId r
                     | PutTable.Null => TableState.groupId r' = None
                     | PutTable.Number q =>
                         exists k, (q == inject_Z k)%Q
                                   /\ In k (map TableGroups.id (table_groups d))
                                   /\ TableState.groupId r' = Some k
                     end
                else r' = r)
             (table_state d) (table_state (snd (put_table date tableId b d)))
  | _ => snd (put_table date tableId b d) = d
  end.
Proof.
  destruct (put_table_outcome date tableId b d)
    as [[Hsame Hno]|[layoutId [rows [Hl [_ [Hu ->]]]]]].
  - destruct (fst (put_table date tableId b d)) as [[]| | | |]; auto. now elim Hno.
  - simpl. exists layoutId. repeat split; auto.
    apply (update_rows_Forall2 (named_by layoutId tableId) (updated b d)); [| |exact Hu].
    + intros r r' Hc Hr. rewrite Hc. unfold updated in Hr.
      destruct (PutTable.groupId b) as [| |q]; simpl in Hr.
      * injection Hr as <-. simpl. auto.
      * injection Hr as <-. simpl. auto.
      * destruct (references_group q d) as [k|] eqn:Hk; [|discriminate].
        simpl in Hr. injection Hr as <-. simpl. repeat split.
        exists k. apply references_group_sound in Hk as [Hq Hin]. auto.
    + intros r Hc. now rewrite Hc.
Qed.

Lemma update_rows_again (cond : TableState.row -> bool)
    (f : TableState.row -> option TableState.row) :
  (forall r r', f r = Some r' -> f r' = Some r' /\ cond r' = cond r) ->
  forall rows rows',
    update_rows cond f rows = Some rows' -> update_rows cond f rows' = Some rows'.
Proof.
  intros Hf. induction rows as [|r rows IH]; simpl; intros rows' H.
  - injection H as <-. reflexivity.
  - destruct (cond r) eqn:Hc.
    + destruct (f r) as [r1|] eqn:Hr; [|discriminate].
      destruct (update_rows cond f rows) as [rest|] eqn:Hrest; [|discriminate].
      injection H as <-. simpl. destruct (Hf r r1 Hr) as [Hr1 Hc1].
      now rewrite Hc1, Hc, Hr1, (IH rest eq_refl).
    + destruct (update_rows cond f rows) as [rest|] eqn:Hrest; [|discriminate].
      injection H as <-. simpl. now rewrite Hc, (IH rest eq_refl).
Qed.

Lemma updated_again (b : PutTable.body) (d : db) (r r' : TableState.row) :
  updated b d r = Some r' -> updated b d r' = Some r'.
Proof.
  unfold updated. destruct (PutTable.groupId b) as [| |q]; simpl.
  - intros H. injection H as <-. simpl.
    destruct (PutTable.x b), (PutTable.y b); reflexivity.
  - intros H. injection H as <-. simpl.
    destruct (PutTable.x b), (PutTable.y b); reflexivity.
  - destruct (references_group q d) as [k|]; simpl; [|discriminate].
    intros H. injection H as <-. simpl.
    destruct (PutTable.x b), (PutTable.y b); reflexivity.
Qed.

Lemma updated_key (b : PutTable.body) (d : db) (r r' : TableState.row) :
  updated b d r = Some r' ->
  TableState.layoutInstanceId r' = TableState.layoutInstanceId r
  /\ TableState.tableId r' = TableState.tableId r.
Proof.
  intros H. apply updated_rewritten in H as [Hl [Ht _]]. auto.
Qed.

(** X16.  A position update is idempotent: served a second time with the
    same body it gives the same answer and leaves the store that the
    first one left. *)
Theorem put_table_idempotent
    (date : string) (tableId : option Z) (b : PutTable.body) (d : db) :
  put_table date tableId b (snd (put_table date tableId b d))
  = put_table date tableId b d.
Proof.
  destruct (put_table_outcome date tableId b d)
    as [[Hsame _]|[layoutId [rows [Hl [Hsome [Hu Hput]]]]]].
  - now rewrite Hsame.
  - rewrite Hput. simpl snd. unfold put_table at 1.
    change (select_layout date (set_table_state rows d)) with (select_layout date d).
    rewrite Hl. destruct (assignments b) as [|a l] eqn:Ha; [congruence|].
    cbn [List.length Nat.eqb]. rewrite <- Ha.
    rewrite (update_rows_ext _ _ (updated b d))
      by (intros r; rewrite assign_all_updated; reflexivity).
    change (table_state (set_table_state rows d)) with rows.
    change (fun r => (TableState.layoutInstanceId r =? layoutId)
                     && param_eqb tableId (TableState.tableId r))
      with (named_by layoutId tableId).
    rewrite (update_rows_again (named_by layoutId tableId) (updated b d)
               ltac:(intros r r' H; split; [exact (updated_again b d r r' H)|];
                     apply updated_key in H as [Hk1 Hk2]; unfold named_by;
                     now rewrite Hk1, Hk2)
               _ _ Hu).
    reflexivity.
Qed.

(** * The client *)

(** ** The group of the selection *)

Lemma somes_length (l : list (option Z)) :
  (List.length (flat_map (fun o => match o with Some g => [g] | None => [] end) l)
   <= List.length l)%nat.
Proof.
  induction l as [|[g|] l IH]; simpl; lia.
Qed.

Lemma somes_all (l : list (option Z)) :
  List.length (flat_map (fun o => match o with Some g => [g] | None => [] end) l)
  = List.length l ->
  map Some (flat_map (fun o => match o with Some g => [g] | None => [] end) l) = l.
Proof.
  induction l as [|[g|] l IH]; simpl; intros H.
  - reflexivity.
  - f_equal. apply IH. lia.
  - pose proof (somes_length l). lia.
Qed.

Lemma nodup_single (l : list Z) (g : Z) :
  List.length (nodup Z.eq_dec l) = 1%nat -> In g l -> forall k, In k l -> k = g.
Proof.
  intros Hlen Hg k Hk.
  destruct (nodup Z.eq_dec l) as [|y [|z rest]] eqn:Hn; try discriminate.
  assert (Hall : forall x, In x l -> x = y).
  { intros x Hx. apply (nodup_In Z.eq_dec) in Hx. rewrite Hn in Hx.
    destruct Hx as [<-|[]]. reflexivity. }
  now rewrite (Hall k Hk), (Hall g Hg).
Qed.

Lemma nodup_constant (g : Z) (n : nat) :
  nodup Z.eq_dec (repeat g (S n)) = [g].
Proof.
  induction n as [|n IH]; [reflexivity|].
  change (repeat g (S (S n))) with (g :: repeat g (S n)).
  cbn [nodup]. destruct (in_dec Z.eq_dec g (repeat g (S n))) as [_|Hno];
    [exact IH|]. elim Hno. simpl. now left.
Qed.

(** X17.  The client takes the selection to be a group exactly when the
    selection is not empty and every selected id is the id of a table it
    holds (the first with that id) whose group is that one group; a
    selected table with no group, an id it does not hold, or two groups
    in the selection give no group. *)
Theorem selectedGroupId_is_the_common_group
    (selectedTableIds : list Z) (tables : list Payload.table) (g : Z) :
  App.selectedGroupId selectedTableIds tables = Some g <->
  selectedTableIds <> []
  /\ forall id, In id selectedTableIds ->
       exists table,
         find (fun table => Payload.tableId table =? id) tables = Some table
         /\ Payload.groupId table = Some g.
Proof.
  unfold App.selectedGroupId.
  set (lookup := fun id =>
                   match find (fun table => Payload.tableId table =? id) tables with
                   | Some table => Payload.groupId table
                   | None => None
                   end).
  set (groupIds := flat_map (fun found => match found with Some k => [k] | None => [] end)
                     (map lookup selectedTableIds)).
  assert (Hlookup : forall id,
            lookup id = Some g <->
            exists table, find (fun table => Payload.tableId table =? id) tables = Some table
                          /\ Payload.groupId table = Some g).
  { intros id. unfold lookup.
    destruct (find (fun table => Payload.tableId table =? id) tables) as [t|].
    - split; [intros H; exists t; auto|intros [t' [Ht Hg]]; congruence].
    - split; [discriminate|intros [t' [Ht _]]; discriminate]. }
  destruct (List.length selectedTableIds =? 0)%nat eqn:Hzero.
  { apply Nat.eqb_eq, length_zero_iff_nil in Hzero.
    split; [discriminate|intros [Hne _]; contradiction]. }
  apply Nat.eqb_neq in Hzero.
  assert (Hne : selectedTableIds <> []) by (intros ->; now apply Hzero).
  split.
  - destruct (List.length groupIds =? List.length selectedTableIds)%nat eqn:Hlen;
      [|discriminate]. simpl negb. cbv iota.
    destruct (List.length (nodup Z.eq_dec groupIds) =? 1)%nat eqn:Hone; [|discriminate].
    simpl negb. cbv iota. intros Hhd.
    apply Nat.eqb_eq in Hlen. apply Nat.eqb_eq in Hone.
    split; [exact Hne|]. intros id Hid. apply Hlookup.
    assert (Hall : map Some groupIds = map lookup selectedTableIds).
    { apply somes_all. unfold groupIds in Hlen. now rewrite Hlen, length_map. }
    assert (Hin : In (lookup id) (map Some groupIds))
      by (rewrite Hall; now apply in_map).
    apply in_map_iff in Hin as [k [Hk Hkin]]. rewrite <- Hk. f_equal.
    apply (nodup_single groupIds g Hone); [|exact Hkin].
    destruct groupIds; [discriminate|]. simpl in Hhd. injection Hhd as ->. now left.
  - intros [_ Hall].
    assert (Hg : groupIds = repeat g (List.length selectedTableIds)).
    { unfold groupIds. clear Hne Hzero. induction selectedTableIds as [|id sel IH];
        [reflexivity|].
      simpl. rewrite (proj2 (Hlookup id) (Hall id (or_introl eq_refl))). simpl.
      f_equal. apply IH. intros id' Hid'. apply Hall. now right. }
    rewrite Hg, repeat_length, Nat.eqb_refl. simpl negb. cbv iota.
    destruct (List.length selectedTableIds) as [|n]; [congruence|].
    rewrite nodup_constant. reflexivity.
Qed.

(** ** The selection *)

(** X18.  A click keeps the selection free of duplicates.  A plain click
    selects the table alone.  A shift-click toggles the table and
    nothing else: the table is selected afterwards exactly when it was
    not before, every other table stays as it was; two shift-clicks on
    the same table give back the same set of selected tables. *)
Theorem handleTableClick_toggles (tableId : Z) (prev : list Z) :
  NoDup prev ->
  (forall shiftKey, NoDup (App.handleTableClick tableId shiftKey prev))
  /\ App.handleTableClick tableId false prev = [tableId]
  /\ (forall id, In id (App.handleTableClick tableId true prev) <->
        (In id prev /\ id <> tableId) \/ (id = tableId /\ ~ In tableId prev))
  /\ (forall id,
        In id (App.handleTableClick tableId true (App.handleTableClick tableId true prev))
        <-> In id prev).
Proof.
  intros Hnd.
  assert (Htoggle : forall l id,
            In id (App.handleTableClick tableId true l) <->
            (In id l /\ id <> tableId) \/ (id = tableId /\ ~ In tableId l)).
  { intros l id. unfold App.handleTableClick.
    destruct (existsb (Z.eqb tableId) l) eqn:He.
    - apply existsb_exists in He as [x [Hx Heq]]. apply Z.eqb_eq in Heq. subst x.
      rewrite filter_In, negb_true_iff, Z.eqb_neq. tauto.
    - assert (Hno : ~ In tableId l).
      { intros Hin. apply not_true_iff_false in He. apply He.
        apply existsb_exists. exists tableId. split; [exact Hin|apply Z.eqb_refl]. }
      rewrite in_app_iff. simpl. split.
      + intros [Hin|[<-|[]]]; [left; split; [exact Hin|congruence]|right; auto].
      + intros [[Hin _]|[-> _]]; auto. }
  split; [|split; [reflexivity|split; [apply Htoggle|]]].
  - intros [|]; unfold App.handleTableClick.
    + destruct (existsb (Z.eqb tableId) prev) eqn:He.
      * now apply NoDup_filter.
      * apply NoDup_app; [exact Hnd|repeat constructor; tauto|].
        intros a Ha [Heq|[]]. subst a. apply not_true_iff_false in He. apply He.
        apply existsb_exists. exists tableId. split; [exact Ha|apply Z.eqb_refl].
    + repeat constructor. tauto.
  - intros id. rewrite Htoggle, !Htoggle.
    destruct (Z.eq_dec id tableId) as [->|Hne]; [|tauto].
    destruct (in_dec Z.eq_dec tableId prev); tauto.
Qed.

Lemma handleTableClick_toggles_witness :
  NoDup (App.handleTableClick 2 true [1; 2; 3])
  /\ App.handleTableClick 2 true [1; 2; 3] = [1; 3]
  /\ App.handleTableClick 2 true [1; 3] = [1; 3; 2].
Proof.
  destruct (handleTableClick_toggles 2 [1; 2; 3]) as [Hnd _].
  - repeat constructor; simpl; intuition lia.
  - split; [apply Hnd|]. split; reflexivity.
Defined.

(** ** The reservation of a group, as the client holds it *)

Lemma Map_has_set (k k' : Z) (v : Payload.reservation)
    (m : list (Z * Payload.reservation)) :
  App.Map_has k (App.Map_set k' v m) = (k' =? k) || App.Map_has k m.
Proof.
  unfold App.Map_has. induction m as [|[k0 v0] m IH]; [reflexivity|].
  cbn [App.Map_set]. destruct (Z.eqb_spec k0 k') as [->|Hne]; cbn [existsb fst].
  - destruct (k' =? k); reflexivity.
  - rewrite IH. destruct (k0 =? k), (k' =? k); reflexivity.
Qed.

Lemma Map_get_set (k k' : Z) (v : Payload.reservation)
    (m : list (Z * Payload.reservation)) :
  App.Map_get k (App.Map_set k' v m) = if k' =? k then Some v else App.Map_get k m.
Proof.
  induction m as [|[k0 v0] m IH].
  - unfold App.Map_get. simpl. destruct (k' =? k); reflexivity.
  - simpl. destruct (Z.eqb_spec k0 k') as [->|Hne].
    + unfold App.Map_get. simpl. destruct (k' =? k); reflexivity.
    + unfold App.Map_get in *. simpl. destruct (Z.eqb_spec k0 k) as [->|Hne'].
      * destruct (Z.eqb_spec k' k) as [->|_]; [congruence|reflexivity].
      * exact IH.
Qed.

Lemma find_last (A : Type) (p : A -> bool) (l : list A) (a : A) :
  find p (l ++ [a]) =
  match find p l with
  | Some x => Some x
  | None => if p a then Some a else None
  end.
Proof.
  induction l as [|b l IH]; simpl; [reflexivity|].
  destruct (p b); [reflexivity|exact IH].
Qed.

Lemma fold_Map_has (k : Z) (rs : list Payload.reservation)
    (m : list (Z * Payload.reservation)) :
  App.Map_has k
    (fold_left (fun m res => App.Map_set (Payload.reservation_groupId res) res m) rs m)
  = App.Map_has k m || existsb (fun res => Payload.reservation_groupId res =? k) rs.
Proof.
  revert m. induction rs as [|a rs IH]; intros m; simpl.
  - now rewrite orb_false_r.
  - rewrite IH, Map_has_set.
    destruct (Payload.reservation_groupId a =? k), (App.Map_has k m); reflexivity.
Qed.

Lemma fold_Map_get (k : Z) (rs : list Payload.reservation)
    (m : list (Z * Payload.reservation)) :
  App.Map_get k
    (fold_left (fun m res => App.Map_set (Payload.reservation_groupId res) res m) rs m)
  = match find (fun res => Payload.reservation_groupId res =? k) (rev rs) with
    | Some res => Some res
    | None => App.Map_get k m
    end.
Proof.
  revert m. induction rs as [|a rs IH]; intros m; simpl; [reflexivity|].
  rewrite IH, find_last, Map_get_set.
  destruct (find _ (rev rs)); [reflexivity|].
  destruct (Payload.reservation_groupId a =? k); reflexivity.
Qed.

(** X19.  When the snapshot holds several reservations of one group, the
    client keeps the last of them, in the order of the snapshot, as the
    reservation of the group; a group has a reservation for the client
    exactly when the snapshot holds one for it. *)
Theorem reservationByGroup_keeps_the_last
    (reservations : list Payload.reservation) (groupId : Z) :
  App.Map_get groupId (App.reservationByGroup reservations)
  = find (fun res => Payload.reservation_groupId res =? groupId) (rev reservations)
  /\ App.Map_has groupId (App.reservationByGroup reservations)
     = existsb (fun res => Payload.reservation_groupId res =? groupId) reservations.
Proof.
  unfold App.reservationByGroup. rewrite fold_Map_get, fold_Map_has. split.
  - destruct (find _ (rev reservations)); reflexivity.
  - reflexivity.
Qed.

(** ** The client's requests and the server's answers *)

Lemma snapshot_has_reservation (layoutId g : Z) (d : db) :
  existsb (fun res => Payload.reservation_groupId res =? g)
    (select_reservations layoutId d)
  = existsb
      (fun r => (Reservations.layoutInstanceId r =? layoutId)
                && num_eqb (inject_Z g) (Reservations.groupId r))
      (reservations d).
Proof.
  unfold select_reservations.
  induction (reservations d) as [|r rs IH]; [reflexivity|].
  simpl. destruct (Reservations.layoutInstanceId r =? layoutId); simpl.
  - rewrite IH. f_equal. symmetry. apply num_eqb_integer. reflexivity.
  - exact IH.
Qed.

(** X20.  The client and the server agree on when a group may be
    dissolved.  With the reservations of the current snapshot of the
    date, an ungroup request the client sends is for the group of the
    selection and the server answers ok; when the server would answer
    Conflict the client sends nothing and asks for the reservation to be
    deleted first.  A group request the client sends names at least two
    tables and passes the server's check of the body. *)
Theorem client_ungroup_agrees_with_server
    (date : string) (layoutId : Z) (d : db)
    (selectedTableIds : list Z) (tables : list Payload.table) :
  select_layout date d = Some layoutId ->
  (forall r,
     App.handleUngroup (Some date) selectedTableIds tables
       (Payload.reservations (fetchLayoutPayload layoutId d)) = App.Send r ->
     exists g,
       App.selectedGroupId selectedTableIds tables = Some g
       /\ r = ReqUngroup date (Some (inject_Z g))
       /\ fst (post_ungroup date (Some (inject_Z g)) d) = Json tt)
  /\ (forall g,
        App.selectedGroupId selectedTableIds tables = Some g ->
        fst (post_ungroup date (Some (inject_Z g)) d) = Conflict ->
        g <> 0 -> date <> EmptyString ->
        App.handleUngroup (Some date) selectedTableIds tables
          (Payload.reservations (fetchLayoutPayload layoutId d))
        = App.Toast "Delete the reservation before ungrouping.")
  /\ (forall r,
        App.handleGroup (Some date) selectedTableIds = App.Send r ->
        (2 <= List.length selectedTableIds)%nat
        /\ r = ReqGroup date (Some (map Some selectedTableIds))
        /\ fst (post_group date (Some (map Some selectedTableIds)) d) <> BadRequest).
Proof.
  intros Hlayout.
  assert (Hanswer : forall g,
            fst (post_ungroup date (Some (inject_Z g)) d)
            = if App.Map_has g
                   (App.reservationByGroup
                      (Payload.reservations (fetchLayoutPayload layoutId d)))
              then Conflict else Json tt).
  { intros g. unfold post_ungroup. rewrite Hlayout.
    unfold App.reservationByGroup. rewrite fold_Map_has. simpl App.Map_has.
    simpl Payload.reservations. rewrite snapshot_has_reservation. simpl orb.
    destruct (existsb _ (reservations d)); reflexivity. }
  split; [|split].
  - intros r. unfold App.handleUngroup.
    destruct (negb (truthy (Some date))); [discriminate|].
    destruct (App.selectedGroupId selectedTableIds tables) as [g|]; [|discriminate].
    cbn [orb App.no_group]. destruct (g =? 0); [discriminate|]. intros Hsend.
    exists g. rewrite Hanswer.
    destruct (App.Map_has g _); [discriminate|]. injection Hsend as <-. auto.
  - intros g Hg Hconflict Hne Hdate. unfold App.handleUngroup. rewrite Hg.
    rewrite Hanswer in Hconflict.
    replace (truthy (Some date)) with true
      by (destruct date; [congruence|reflexivity]).
    cbn [negb orb App.no_group].
    replace (g =? 0) with false by (symmetry; now apply Z.eqb_neq).
    destruct (App.Map_has g _); [reflexivity|discriminate].
  - intros r. unfold App.handleGroup.
    destruct (negb (truthy (Some date))); [discriminate|].
    destruct (List.length selectedTableIds <? 2)%nat eqn:Hlen; [discriminate|].
    apply Nat.ltb_ge in Hlen. intros Hsend. injection Hsend as <-.
    split; [exact Hlen|]. split; [reflexivity|].
    destruct selectedTableIds as [|id rest]; [simpl in Hlen; lia|].
    assert (Hlast : forall ids d0, fst (create_group layoutId ids d0) <> BadRequest).
    { intros ids d0. rewrite create_group_outcome. destruct (binds 2 ids); discriminate. }
    unfold post_group. cbn [map]. rewrite Hlayout.
    destruct (negb (binds 1 _)); [discriminate|].
    destruct (select_existing_groups layoutId _ d); [apply Hlast|].
    destruct (negb (binds 1 _)); [discriminate|].
    destruct (0 <? count_reserved layoutId _ d)%nat; [discriminate|].
    destruct (negb (binds 2 _)); [discriminate|apply Hlast].
Qed.

Lemma client_ungroup_agrees_with_server_witness :
  App.handleUngroup (Some day) [1; 2] (Payload.tables (fetchLayoutPayload 1 reserved))
    (Payload.reservations (fetchLayoutPayload 1 reserved))
  = App.Toast "Delete the reservation before ungrouping."
  /\ fst (post_ungroup day (Some (inject_Z 1)) reserved) = Conflict.
Proof.
  assert (Hconflict : fst (post_ungroup day (Some (inject_Z 1)) reserved) = Conflict)
    by reflexivity.
  split; [|exact Hconflict].
  refine (proj1 (proj2 (client_ungroup_agrees_with_server day 1 reserved [1; 2]
                          (Payload.tables (fetchLayoutPayload 1 reserved)) _))
            1 _ Hconflict _ _).
  - reflexivity.
  - reflexivity.
  - discriminate.
  - discriminate.
Defined.

(** ** The catalog, as [GET /api/tables/default] answers it *)

(** X21.  The answer lists the rows of the catalog in the order of their
    ids, each row as often as the catalog holds it and no other row. *)
Theorem get_tables_default_sorted (d : db) :
  Sorted (fun a b => Tables.id a <= Tables.id b) (get_tables_default d)
  /\ Permutation (tables d) (get_tables_default d).
Proof.
  unfold get_tables_default. split.
  - apply sort_on_Sorted.
  - symmetry. apply sort_on_Permutation.
Qed.

(** ** No group without a member, over all the requests *)

(** The grouping of a store is read off its group rows and off the
    instance and the group of its state rows. *)
Lemma grouping_ok_frame (d d' : db) :
  table_groups d' = table_groups d ->
  (forall l g,
     (exists r, In r (table_state d')
                /\ TableState.layoutInstanceId r = l /\ TableState.groupId r = Some g)
     <-> (exists r, In r (table_state d)
                    /\ TableState.layoutInstanceId r = l /\ TableState.groupId r = Some g)) ->
  grouping_ok d -> grouping_ok d'.
Proof.
  intros Hg Hrows [Hk [Hs Hm]]. split; [|split].
  - unfold group_key. now rewrite Hg.
  - intros r' g Hr' Hgr. rewrite Hg.
    destruct (proj1 (Hrows (TableState.layoutInstanceId r') g)) as [r [Hr [Hl Hrg]]];
      [exists r'; auto|].
    rewrite <- Hl. now apply Hs.
  - intros grp Hgrp. rewrite Hg in Hgrp. destruct (Hm grp Hgrp) as [r [Hr [Hrg Hl]]].
    destruct (proj2 (Hrows (TableGroups.layoutInstanceId grp) (TableGroups.id grp)))
      as [r' [Hr' [Hl' Hrg']]]; [exists r; auto|].
    exists r'. auto.
Qed.

Lemma post_init_grouping (date : string) (d : db) :
  table_groups (snd (post_init date d)) = table_groups d
  /\ exists rows,
       table_state (snd (post_init date d)) = table_state d ++ rows
       /\ forall r, In r rows -> TableState.groupId r = None.
Proof.
  unfold post_init, ensureLayoutInstance.
  destruct (select_layout date d).
  - simpl. split; [reflexivity|]. exists []. rewrite app_nil_r. split; [reflexivity|].
    intros r Hr. simpl in Hr. contradiction.
  - unfold insert_layout_instance, insert_default_states. simpl.
    destruct (insert_rows _ (table_state d)) as [rows|] eqn:Hins; simpl.
    + split; [reflexivity|].
      assert (Happ : forall new old rows0,
                insert_rows new old = Some rows0 -> rows0 = old ++ new).
      { induction new as [|r new IH]; simpl; intros old rows0 H0.
        - injection H0 as <-. now rewrite app_nil_r.
        - destruct (existsb (same_key r) old); [discriminate|].
          apply IH in H0. now rewrite <- app_assoc in H0. }
      apply Happ in Hins. subst rows. eexists. split; [reflexivity|].
      intros r Hr. apply in_map_iff in Hr as [t [<- _]]. reflexivity.
    + split; [reflexivity|]. exists []. rewrite app_nil_r. split; [reflexivity|].
      intros r Hr. simpl in Hr. contradiction.
Qed.

Lemma put_table_grouping (date : string) (tableId : option Z) (b : PutTable.body) (d : db) :
  PutTable.groupId b = PutTable.Skipped ->
  table_groups (snd (put_table date tableId b d)) = table_groups d
  /\ Forall2 (fun r r' =>
                TableState.layoutInstanceId r' = TableState.layoutInstanceId r
                /\ TableState.groupId r' = TableState.groupId r)
       (table_state d) (table_state (snd (put_table date tableId b d))).
Proof.
  intros Hskip.
  assert (Hsame : forall l : list TableState.row,
            Forall2 (fun r r' =>
                       TableState.layoutInstanceId r' = TableState.layoutInstanceId r
                       /\ TableState.groupId r' = TableState.groupId r) l l).
  { induction l; constructor; auto. }
  destruct (put_table_outcome date tableId b d)
    as [[-> _]|[layoutId [rows [_ [_ [Hu ->]]]]]]; [auto|].
  simpl. split; [reflexivity|].
  assert (Hrow : forall r r',
            named_by layoutId tableId r = true -> updated b d r = Some r' ->
            TableState.layoutInstanceId r' = TableState.layoutInstanceId r
            /\ TableState.groupId r' = TableState.groupId r).
  { intros r r' _ H. unfold updated in H. rewrite Hskip in H. injection H as <-.
    split; reflexivity. }
  exact (update_rows_Forall2 _ _ _ Hrow (fun r _ => conj eq_refl eq_refl) _ _ Hu).
Qed.

Lemma handle_keeps_grouping (r : request) (d : db) :
  state_key d -> grouping_ok d -> settled r d -> grouping_ok (handle r d).
Proof.
  intros Hkey Hok Hr.
  destruct r as [date|date tableId b|date tableIds|date groupId|now date b
                 |date reservationId]; simpl in *.
  - destruct (post_init_grouping date d) as [Hg [rows [Hrows Hnone]]].
    apply (grouping_ok_frame d); [exact Hg| |exact Hok].
    intros l g. rewrite Hrows. split.
    + intros [r [Hin [Hl Hrg]]]. apply in_app_or in Hin as [Hin|Hin].
      * exists r. auto.
      * rewrite (Hnone r Hin) in Hrg. discriminate.
    + intros [r [Hin H]]. exists r. split; [apply in_or_app; now left|exact H].
  - destruct (put_table_grouping date tableId b d Hr) as [Hg Hrows].
    apply (grouping_ok_frame d); [exact Hg| |exact Hok].
    intros l g. split.
    + intros [r' [Hin [Hl Hrg]]].
      destruct (Forall2_In_r _ _ _ r' Hrows Hin) as [r [Hr0 [Hl0 Hg0]]].
      exists r. split; [exact Hr0|]. split; congruence.
    + intros [r0 [Hin [Hl Hrg]]].
      destruct (Forall2_In_l _ _ _ r0 Hrows Hin) as [r' [Hr' [Hl' Hg']]].
      exists r'. split; [exact Hr'|]. split; congruence.
  - now apply post_group_ok.
  - now apply post_ungroup_ok.
  - destruct (post_reservation_states now date b d) as [Hs [_ [_ Hg]]].
    apply (grouping_ok_frame d); [exact Hg| |exact Hok].
    intros l g. now rewrite Hs.
  - destruct (delete_reservation_states date reservationId d) as [Hs [_ [_ Hg]]].
    apply (grouping_ok_frame d); [exact Hg| |exact Hok].
    intros l g. now rewrite Hs.
Qed.

(** X22.  No group without a member (invariant I2), over all the
    requests that write.  From a store that satisfies the schema and in
    which every grouped table points at a group row of its instance and
    every group row has a member, a sequence of requests in which every
    group request names a state row of the instance of its date, with no
    more table ids than its last UPDATE can bind beside its two other
    parameters, and no position update carries a group field leaves a
    store with the same properties, so with no empty group. *)
Theorem serve_keeps_groups_inhabited (requests : list request) (d : db) :
  schema_ok d -> grouping_ok d -> all_settled requests d ->
  grouping_ok (serve requests d) /\ no_empty_group (serve requests d) = true.
Proof.
  revert d. induction requests as [|r requests IH]; intros d Hschema Hok Hall; simpl.
  - split; [exact Hok|]. apply groups_have_members_no_empty_group. apply Hok.
  - destruct Hall as [Hr Hrest]. apply IH; [| |exact Hrest].
    + now apply handle_keeps_schema.
    + apply handle_keeps_grouping; [|exact Hok|exact Hr].
      exact (ok_states d Hschema).
Qed.

Lemma serve_keeps_groups_inhabited_witness :
  no_empty_group
    (serve [ReqGroup day (Some [Some 1; Some 2]);
            ReqReservation "2024-01-01T09:00:00.000Z" day smith;
            ReqPutTable day (Some 3) off_canvas;
            ReqInit tomorrow;
            ReqDeleteReservation day (Some 1);
            ReqUngroup day (Some (1 # 1));
            ReqGroup day (Some [Some 3])] opened) = true.
Proof.
  apply serve_keeps_groups_inhabited.
  - exact opened_schema_ok.
  - apply fresh_instance_grouping_ok; [reflexivity|].
    intros r Hr. simpl in Hr. destruct Hr as [<-|[<-|[<-|[]]]]; reflexivity.
  - simpl. repeat split; try (unfold SQLITE_MAX_VARIABLE_NUMBER; lia);
      intros layoutId Hl; injection Hl as <-.
    + exists (TableState.mk 1 1 40 40 None). simpl. auto.
    + exists (TableState.mk 1 3 (-5) 3 None). simpl. auto.
Defined.
